(** * tread.h: terminal compositor and software rasteriser

    A shallow embedding of the engine in [src/tread.h] (POSIX build, with
    [TR_3D] defined) and the properties of its specification, followed by
    the game logic of [src/games/2D/snake.c], a client of the engine.

    Conventions of the embedding
    - C [int] values are [Z]; where the source forms a sum or product of
      [int]s the result is reduced with [wrap32], the two's-complement
      wrap-around of the compiled code.
    - [unsigned char] channels and [char] glyphs are [Z] and [ascii].
    - The global variables of the header are the fields of [Engine]; every
      API function is a function on [Engine] returning a [result].
    - Heap buffers are lists; a read or write outside the list is the
      outcome [Fault], [exit(1)] is the outcome [Exit].
    - Terminal output is a trace of [Event]s, appended to the [out] field. *)

From Stdlib Require Import ZArith List Bool Lia Ascii String.
From Stdlib Require Import Floats.SpecFloat.
From stdpp Require Import base tactics option list list_numbers strings.

Local Open Scope Z_scope.

(** ** Machine integers *)

Module Int32.

Definition INT_MAX : Z := 2147483647.
Definition INT_MIN : Z := -2147483648.

(** Two's-complement reduction of a mathematical integer to [int]. *)
Definition wrap32 (z : Z) : Z := (z + 2147483648) mod 4294967296 - 2147483648.

Definition in_range (z : Z) : Prop := INT_MIN <= z <= INT_MAX.

End Int32.
Export Int32.

(** ** Outcomes of engine calls *)

Inductive result (A : Type) : Type :=
| Ok (a : A)
| Exit (code : Z)
| Fault.
Arguments Ok {A} a.
Arguments Exit {A} code.
Arguments Fault {A}.

Definition bind {A B} (r : result A) (k : A -> result B) : result B :=
  match r with
  | Ok a => k a
  | Exit c => Exit c
  | Fault => Fault
  end.

Notation "'let*' x ':=' r 'in' k" := (bind r (fun x => k))
  (at level 10, x name, r at level 100, k at level 200).

(** Runs [body] for every index of [idxs], in order, threading the state. *)
Fixpoint iterM {I S : Type} (body : I -> S -> result S) (idxs : list I) (s : S)
  : result S :=
  match idxs with
  | [] => Ok s
  | i :: rest => let* s' := body i s in iterM body rest s'
  end.

(** [for (int i = lo; i < hi; ++i) body] *)
Definition for_range {S : Type} (lo hi : Z) (body : Z -> S -> result S)
  : S -> result S :=
  iterM body (seqZ lo (hi - lo)).

(** ** Colours and cells *)

Record Color : Type := mkColor { r : Z; g : Z; b : Z; a : Z }.

Record __TR_Cell : Type :=
  mkCell { character : ascii; fg_color : Color; bg_color : Color }.

Definition BLANK : Color := mkColor 1 0 0 0.
Definition WHITE : Color := mkColor 255 255 255 255.
Definition BLACK : Color := mkColor 0 0 0 255.
Definition RED : Color := mkColor 230 41 55 255.
Definition BLUE : Color := mkColor 0 121 241 255.

Global Instance Color_eq_dec : EqDecision Color.
Proof. solve_decision. Defined.

Global Instance Cell_eq_dec : EqDecision __TR_Cell.
Proof. solve_decision. Defined.

Definition space : ascii := " "%char.
Definition hash : ascii := "#"%char.

(** [__tr_colors_equal]: compares two colours, ignoring alpha. *)
Definition __tr_colors_equal (c1 c2 : Color) : bool :=
  (r c1 =? r c2) && (g c1 =? g c2) && (b c1 =? b c2).

(** ** Colour mapper *)

Definition terminal_colors : list Color :=
  [ mkColor 0 0 0 255;       (* Black *)
    mkColor 255 0 0 255;     (* Red *)
    mkColor 0 255 0 255;     (* Green *)
    mkColor 255 255 0 255;   (* Yellow *)
    mkColor 0 0 255 255;     (* Blue *)
    mkColor 255 0 255 255;   (* Magenta *)
    mkColor 0 255 255 255;   (* Cyan *)
    mkColor 255 255 255 255  (* White *) ].

(** The squared distance of the loop body.  The source forms the three
    products in [double]; channels are bytes, so every intermediate value
    is an integer below [2^18] and the [double] arithmetic is exact. *)
Definition dist (color t : Color) : Z :=
  (r color - r t) * (r color - r t) +
  (g color - g t) * (g color - g t) +
  (b color - b t) * (b color - b t).

(** One iteration of the scan: the pair is [(min_dist, best_match)]. *)
Definition map_color_step (color : Color) (acc : Z * Z) (i : Z) (t : Color)
  : Z * Z :=
  let '(min_dist, best_match) := acc in
  let d := dist color t in
  if (min_dist =? -1) || (d <? min_dist) then (d, i) else (min_dist, best_match).

Fixpoint map_color_scan (color : Color) (acc : Z * Z) (i : Z) (ts : list Color)
  : Z * Z :=
  match ts with
  | [] => acc
  | t :: rest => map_color_scan color (map_color_step color acc i t) (i + 1) rest
  end.

(** [__tr_map_color_to_terminal]; the [is_background] flag is unused. *)
Definition __tr_map_color_to_terminal (color : Color) (is_background : bool) : Z :=
  snd (map_color_scan color (-1, 0) 0 terminal_colors).

(** ** Single-precision floats

    [float] of the source is IEEE-754 binary32, taken from the Standard
    Library's executable specification [SpecFloat] at precision 24 and
    maximal exponent 128 (round to nearest, ties to even). *)

Module F32.

Definition prec : Z := 24.
Definition emax : Z := 128.

Definition float : Type := spec_float.

Definition zero : float := S754_zero false.
Definition one : float := S754_finite false 8388608 (-23).
Definition half : float := S754_finite false 8388608 (-24).

Definition add : float -> float -> float := SFadd prec emax.
Definition sub : float -> float -> float := SFsub prec emax.
Definition mul : float -> float -> float := SFmul prec emax.
Definition div : float -> float -> float := SFdiv prec emax.
Definition neg : float -> float := SFopp.

Definition eqb : float -> float -> bool := SFeqb.
Definition ltb : float -> float -> bool := SFltb.
Definition gtb (x y : float) : bool := SFltb y x.

(** [(float)n] for an [int] [n]. *)
Definition of_int (n : Z) : float := binary_normalize prec emax n 0 false.

(** [(int)f]: truncation toward zero.  For a NaN, an infinity or a value
    outside the range of [int] the conversion instruction of the compiled
    code yields [INT_MIN]. *)
Definition to_int (f : float) : Z :=
  match f with
  | S754_zero _ => 0
  | S754_finite s m e =>
      let mag := if 0 <=? e then Z.pos m * 2 ^ e else Z.pos m / 2 ^ (- e) in
      let v := if s then - mag else mag in
      if (INT_MIN <=? v) && (v <=? INT_MAX) then v else INT_MIN
  | _ => INT_MIN
  end.

Definition is_finite (f : float) : bool :=
  match f with
  | S754_zero _ | S754_finite _ _ _ => true
  | _ => false
  end.

(** A well-formed binary32 datum. *)
Definition valid (f : float) : bool := valid_binary prec emax f.

End F32.

Abbreviation float := F32.float.

(** ** Engine state *)

(** What the engine sends to the terminal and to the operating system. *)
Inductive Event : Type :=
| EvCursor (row col : Z)          (* ESC [ row ; col H *)
| EvSgr (ansi_fg ansi_bg : Z)     (* ESC [ fg ; bg m *)
| EvPutc (c : ascii)              (* printf("%c", c) *)
| EvClearScreen                   (* ESC [ 2 J *)
| EvHome                          (* ESC [ H *)
| EvCursorVisible (visible : bool)
| EvTitle (title : string)
| EvResetAttributes               (* ESC [ 0 m *)
| EvFlush                         (* fflush(stdout) *)
| EvRawMode
| EvRestoreMode
| EvSigintIgnore
| EvSigintRestore
| EvStderr (msg : string)
| EvSleep (ns : Z).

Record Engine : Type := mkEngine {
  __tr_window_open : bool;
  __tr_frame_time_us : Z;
  __tr_key_buffer : Z;
  __tr_screen_buffer : list __TR_Cell;
  __tr_prev_screen_buffer : list __TR_Cell;
  __tr_buffer_width : Z;
  __tr_buffer_height : Z;
  __tr_current_bg_color : Color;
  __tr_initial_width : Z;
  __tr_initial_height : Z;
  __tr_z_buffer : list float;
  __tr_z_buffer_size : Z;
  __tr_last_frame_start_ns : Z;
  out : list Event
}.

(** The state of the header's static initialisers; [NULL] buffers are
    empty lists. *)
Definition initial_engine : Engine :=
  mkEngine false 0 0 [] [] 0 0 (mkColor 0 0 0 255) 0 0 [] 0 0 [].

Definition set_screen_buffer (buf : list __TR_Cell) (s : Engine) : Engine :=
  mkEngine (__tr_window_open s) (__tr_frame_time_us s) (__tr_key_buffer s)
    buf (__tr_prev_screen_buffer s) (__tr_buffer_width s)
    (__tr_buffer_height s) (__tr_current_bg_color s) (__tr_initial_width s)
    (__tr_initial_height s) (__tr_z_buffer s) (__tr_z_buffer_size s)
    (__tr_last_frame_start_ns s) (out s).

Definition set_prev_screen_buffer (buf : list __TR_Cell) (s : Engine) : Engine :=
  mkEngine (__tr_window_open s) (__tr_frame_time_us s) (__tr_key_buffer s)
    (__tr_screen_buffer s) buf (__tr_buffer_width s)
    (__tr_buffer_height s) (__tr_current_bg_color s) (__tr_initial_width s)
    (__tr_initial_height s) (__tr_z_buffer s) (__tr_z_buffer_size s)
    (__tr_last_frame_start_ns s) (out s).

Definition set_z_buffer (zb : list float) (s : Engine) : Engine :=
  mkEngine (__tr_window_open s) (__tr_frame_time_us s) (__tr_key_buffer s)
    (__tr_screen_buffer s) (__tr_prev_screen_buffer s) (__tr_buffer_width s)
    (__tr_buffer_height s) (__tr_current_bg_color s) (__tr_initial_width s)
    (__tr_initial_height s) zb (__tr_z_buffer_size s)
    (__tr_last_frame_start_ns s) (out s).

Definition set_key_buffer (k : Z) (s : Engine) : Engine :=
  mkEngine (__tr_window_open s) (__tr_frame_time_us s) k
    (__tr_screen_buffer s) (__tr_prev_screen_buffer s) (__tr_buffer_width s)
    (__tr_buffer_height s) (__tr_current_bg_color s) (__tr_initial_width s)
    (__tr_initial_height s) (__tr_z_buffer s) (__tr_z_buffer_size s)
    (__tr_last_frame_start_ns s) (out s).

Definition set_current_bg_color (c : Color) (s : Engine) : Engine :=
  mkEngine (__tr_window_open s) (__tr_frame_time_us s) (__tr_key_buffer s)
    (__tr_screen_buffer s) (__tr_prev_screen_buffer s) (__tr_buffer_width s)
    (__tr_buffer_height s) c (__tr_initial_width s)
    (__tr_initial_height s) (__tr_z_buffer s) (__tr_z_buffer_size s)
    (__tr_last_frame_start_ns s) (out s).

Definition set_last_frame_start_ns (t : Z) (s : Engine) : Engine :=
  mkEngine (__tr_window_open s) (__tr_frame_time_us s) (__tr_key_buffer s)
    (__tr_screen_buffer s) (__tr_prev_screen_buffer s) (__tr_buffer_width s)
    (__tr_buffer_height s) (__tr_current_bg_color s) (__tr_initial_width s)
    (__tr_initial_height s) (__tr_z_buffer s) (__tr_z_buffer_size s)
    t (out s).

Definition set_frame_time_us (t : Z) (s : Engine) : Engine :=
  mkEngine (__tr_window_open s) t (__tr_key_buffer s)
    (__tr_screen_buffer s) (__tr_prev_screen_buffer s) (__tr_buffer_width s)
    (__tr_buffer_height s) (__tr_current_bg_color s) (__tr_initial_width s)
    (__tr_initial_height s) (__tr_z_buffer s) (__tr_z_buffer_size s)
    (__tr_last_frame_start_ns s) (out s).

(** Appends terminal output. *)
Definition emit (evs : list Event) (s : Engine) : Engine :=
  mkEngine (__tr_window_open s) (__tr_frame_time_us s) (__tr_key_buffer s)
    (__tr_screen_buffer s) (__tr_prev_screen_buffer s) (__tr_buffer_width s)
    (__tr_buffer_height s) (__tr_current_bg_color s) (__tr_initial_width s)
    (__tr_initial_height s) (__tr_z_buffer s) (__tr_z_buffer_size s)
    (__tr_last_frame_start_ns s) (out s ++ evs).

(** ** Buffer accesses *)

(** [buf[i]] as an rvalue. *)
Definition load {A : Type} (i : Z) (buf : list A) : result A :=
  if (0 <=? i) && (i <? Z.of_nat (length buf)) then
    match buf !! Z.to_nat i with
    | Some c => Ok c
    | None => Fault
    end
  else Fault.

(** [buf[i] = c]. *)
Definition store {A : Type} (i : Z) (c : A) (buf : list A) : result (list A) :=
  if (0 <=? i) && (i <? Z.of_nat (length buf)) then Ok (<[Z.to_nat i := c]> buf)
  else Fault.

(** [__tr_screen_buffer[index] = (__TR_Cell){character, fg, bg}], also the
    three member assignments of the drawing calls. *)
Definition write_cell (index : Z) (c : __TR_Cell) (s : Engine) : result Engine :=
  let* buf := store index c (__tr_screen_buffer s) in
  Ok (set_screen_buffer buf s).

(** ** Platform backend (POSIX) *)

(** The answer of [ioctl(STDOUT_FILENO, TIOCGWINSZ, &ws)]. *)
Record Terminal : Type := mkTerminal { ioctl_ok : bool; ws_col : Z; ws_row : Z }.

(** What standard input holds when a key is polled: whether [select]
    reports data, the characters then returned by [read] (at most 8, as
    [char] values), and the prior contents of the 8-byte stack buffer. *)
Record Stdin : Type :=
  mkStdin { select_ready : bool; read_chars : list Z; buf_before : list Z }.

(** The allocator: the block returned for a request of [n] elements, or
    [None] for [NULL]. *)
Record Heap : Type := mkHeap {
  alloc_cells : Z -> option (list __TR_Cell);
  alloc_floats : Z -> option (list float)
}.

Definition TR_KEY_UP : Z := 256.
Definition TR_KEY_DOWN : Z := 257.
Definition TR_KEY_LEFT : Z := 258.
Definition TR_KEY_RIGHT : Z := 259.
Definition TR_KEY_ESCAPE : Z := 27.
Definition TR_KEY_F1 : Z := 260.
Definition TR_KEY_F2 : Z := 261.
Definition TR_KEY_F3 : Z := 262.
Definition TR_KEY_F4 : Z := 263.
Definition TR_KEY_F5 : Z := 264.
Definition TR_KEY_F6 : Z := 265.
Definition TR_KEY_F7 : Z := 266.
Definition TR_KEY_F8 : Z := 267.
Definition TR_KEY_F9 : Z := 268.
Definition TR_KEY_F10 : Z := 269.
Definition TR_KEY_F11 : Z := 270.
Definition TR_KEY_F12 : Z := 271.

(** [__tr_set_cursor_position] *)
Definition __tr_set_cursor_position (x y : Z) : list Event :=
  [EvCursor (wrap32 (y + 1)) (wrap32 (x + 1))].

(** [__tr_set_terminal_color] *)
Definition __tr_set_terminal_color (fg_color bg_color : Color) : list Event :=
  let fg_code := __tr_map_color_to_terminal fg_color false in
  let bg_code := __tr_map_color_to_terminal bg_color true in
  let ansi_fg := 30 + fg_code in
  let ansi_bg := 40 + bg_code in
  let ansi_fg :=
    if (128 <? r fg_color) || (128 <? g fg_color) || (128 <? b fg_color)
    then ansi_fg + 60 else ansi_fg in
  let ansi_bg :=
    if (128 <? r bg_color) || (128 <? g bg_color) || (128 <? b bg_color)
    then ansi_bg + 60 else ansi_bg in
  [EvSgr ansi_fg ansi_bg].

(** [__tr_clear_screen_direct] *)
Definition __tr_clear_screen_direct (bg_color : Color) : list Event :=
  __tr_set_terminal_color BLACK bg_color ++ [EvClearScreen; EvHome].

(** [__tr_set_cursor_visibility] *)
Definition __tr_set_cursor_visibility (visible : bool) : list Event :=
  [EvCursorVisible visible].

(** [__tr_set_console_title] *)
Definition __tr_set_console_title (title : string) : list Event :=
  [EvTitle title].

(** [strcmp(&buf[2], lit) == 0] for a three-character literal. *)
Definition tail_is (buf : list Z) (c0 c1 c2 : Z) : bool :=
  (nth 2 buf 0 =? c0) && (nth 3 buf 0 =? c1) && (nth 4 buf 0 =? c2) &&
  (nth 5 buf 0 =? 0).

(** [__tr_get_key_nonblocking] *)
Definition __tr_get_key_nonblocking (i : Stdin) : Z :=
  if select_ready i then
    let bytes_read := Z.of_nat (length (read_chars i)) in
    let buf := read_chars i ++ drop (length (read_chars i)) (buf_before i) in
    if 0 <? bytes_read then
      if nth 0 buf 0 =? 27 then
        if (bytes_read =? 3) && (nth 1 buf 0 =? 91) then       (* '[' *)
          if nth 2 buf 0 =? 65 then TR_KEY_UP                   (* 'A' *)
          else if nth 2 buf 0 =? 66 then TR_KEY_DOWN
          else if nth 2 buf 0 =? 67 then TR_KEY_RIGHT
          else if nth 2 buf 0 =? 68 then TR_KEY_LEFT
          else 0
        else if (bytes_read =? 3) && (nth 1 buf 0 =? 79) then  (* 'O' *)
          if nth 2 buf 0 =? 80 then TR_KEY_F1                   (* 'P' *)
          else if nth 2 buf 0 =? 81 then TR_KEY_F2
          else if nth 2 buf 0 =? 82 then TR_KEY_F3
          else if nth 2 buf 0 =? 83 then TR_KEY_F4
          else 0
        else if (bytes_read =? 4) && (nth 1 buf 0 =? 91) then
          if tail_is buf 49 53 126 then TR_KEY_F5               (* "15~" *)
          else if tail_is buf 49 55 126 then TR_KEY_F6          (* "17~" *)
          else if tail_is buf 49 56 126 then TR_KEY_F7          (* "18~" *)
          else if tail_is buf 49 57 126 then TR_KEY_F8          (* "19~" *)
          else if tail_is buf 50 48 126 then TR_KEY_F9          (* "20~" *)
          else if tail_is buf 50 49 126 then TR_KEY_F10         (* "21~" *)
          else if tail_is buf 50 51 126 then TR_KEY_F11         (* "23~" *)
          else if tail_is buf 50 52 126 then TR_KEY_F12         (* "24~" *)
          else 0
        else 0
      else nth 0 buf 0
    else 0
  else 0.

(** [__tr_get_screen_width_platform] and [__tr_get_screen_height_platform] *)
Definition __tr_get_screen_width_platform (t : Terminal) : Z :=
  if ioctl_ok t then ws_col t else 0.

Definition __tr_get_screen_height_platform (t : Terminal) : Z :=
  if ioctl_ok t then ws_row t else 0.

(** ** Window and frame API *)

Definition TR_GetScreenWidth (t : Terminal) : Z := __tr_get_screen_width_platform t.
Definition TR_GetScreenHeight (t : Terminal) : Z := __tr_get_screen_height_platform t.

(** [for (int i = 0; i < n; ++i) buf[i] = c;] *)
Definition fill_cells {A : Type} (n : Z) (c : A) (buf : list A) : result (list A) :=
  for_range 0 n (fun i bf => store i c bf) buf.

(** [TR_InitWindow] *)
Definition TR_InitWindow (width height : Z) (title : string)
    (t : Terminal) (h : Heap) (sigaction_ok : bool) (s : Engine) : result Engine :=
  if __tr_window_open s then Ok s else
  let ev0 := [EvRawMode; EvSigintIgnore] ++
             (if sigaction_ok then [] else
                [EvStderr "TREAD WARNING: Could not set SIGINT handler. Ctrl+C might still terminate the app."]) in
  let bw := TR_GetScreenWidth t in
  let bh := TR_GetScreenHeight t in
  if (bw =? 0) || (bh =? 0) then Exit 1 else
  match alloc_cells h (bw * bh), alloc_cells h (bw * bh) with
  | Some screen, Some prev =>
      let zsize := wrap32 (bw * bh) in
      match alloc_floats h zsize with
      | None => Exit 1
      | Some zbuf =>
          let blank := mkCell space BLACK BLACK in
          let* screen := fill_cells (wrap32 (bw * bh)) blank screen in
          let* prev := fill_cells (wrap32 (bw * bh)) blank prev in
          Ok (mkEngine true 0 0 screen prev bw bh BLACK bw bh zbuf zsize
                (__tr_last_frame_start_ns s)
                (out s ++ ev0 ++ __tr_set_console_title title ++
                   __tr_set_cursor_visibility false ++
                   __tr_clear_screen_direct BLACK ++ [EvFlush]))
      end
  | _, _ => Exit 1
  end.

(** [TR_WindowShouldClose] *)
Definition TR_WindowShouldClose (s : Engine) : bool :=
  (__tr_key_buffer s =? 27) || (__tr_key_buffer s =? 113).

(** [TR_SetTargetFPS] *)
Definition TR_SetTargetFPS (fps : Z) (s : Engine) : Engine :=
  if 0 <? fps then set_frame_time_us (Z.quot 1000000 fps) s
  else set_frame_time_us 0 s.

(** [TR_BeginDrawing]: [t] is the terminal size now, [now] the monotonic
    clock in nanoseconds, [i] the state of standard input. *)
Definition TR_BeginDrawing (t : Terminal) (now : Z) (i : Stdin) (s : Engine)
  : result Engine :=
  if negb (__tr_window_open s) then Ok s else
  let current_width := TR_GetScreenWidth t in
  let current_height := TR_GetScreenHeight t in
  if negb (current_width =? __tr_initial_width s) ||
     negb (current_height =? __tr_initial_height s)
  then Exit 1
  else
    let s := set_last_frame_start_ns now s in
    let s := set_key_buffer (__tr_get_key_nonblocking i) s in
    let bg := __tr_current_bg_color s in
    let* buf := fill_cells (wrap32 (__tr_buffer_width s * __tr_buffer_height s))
                  (mkCell space bg bg) (__tr_screen_buffer s) in
    Ok (set_screen_buffer buf s).

(** The test of the differ: the cell is redrawn when this holds. *)
Definition cell_changed (current_cell prev_cell : __TR_Cell) : bool :=
  negb (Ascii.eqb (character current_cell) (character prev_cell)) ||
  negb (__tr_colors_equal (fg_color current_cell) (fg_color prev_cell)) ||
  negb (__tr_colors_equal (bg_color current_cell) (bg_color prev_cell)).

(** Body of the inner loop of [TR_EndDrawing]. *)
Definition flush_cell (y x : Z) (s : Engine) : result Engine :=
  let index := wrap32 (wrap32 (y * __tr_buffer_width s) + x) in
  let* current_cell := load index (__tr_screen_buffer s) in
  let* prev_cell := load index (__tr_prev_screen_buffer s) in
  if cell_changed current_cell prev_cell then
    Ok (emit (__tr_set_cursor_position x y ++
              __tr_set_terminal_color (fg_color current_cell) (bg_color current_cell) ++
              [EvPutc (character current_cell)]) s)
  else Ok s.

(** [memcpy(dst, src, sizeof(__TR_Cell) * n)] on two distinct blocks. *)
Definition memcpy_cells (n : Z) (src dst : list __TR_Cell) : result (list __TR_Cell) :=
  if (0 <=? n) && (n <=? Z.of_nat (length src)) && (n <=? Z.of_nat (length dst))
  then Ok (take (Z.to_nat n) src ++ drop (Z.to_nat n) dst)
  else Fault.

(** The frame pacing at the end of [TR_EndDrawing]; the retried
    [nanosleep] is one [EvSleep] of the whole remaining duration. *)
Definition pace_frame (now : Z) (s : Engine) : Engine :=
  if 0 <? __tr_frame_time_us s then
    let elapsed_ns := now - __tr_last_frame_start_ns s in
    let target_ns := __tr_frame_time_us s * 1000 in
    if elapsed_ns <? target_ns then emit [EvSleep (target_ns - elapsed_ns)] s
    else s
  else s.

(** [TR_EndDrawing]; [now] is the monotonic clock read for the pacing. *)
Definition TR_EndDrawing (now : Z) (s : Engine) : result Engine :=
  if negb (__tr_window_open s) then Ok s else
  let* s := for_range 0 (__tr_buffer_height s) (fun y =>
              for_range 0 (__tr_buffer_width s) (fun x => flush_cell y x)) s in
  let s := emit [EvFlush] s in
  let* prev := memcpy_cells (__tr_buffer_width s * __tr_buffer_height s)
                 (__tr_screen_buffer s) (__tr_prev_screen_buffer s) in
  let s := set_prev_screen_buffer prev s in
  Ok (pace_frame now s).

(** [TR_ClearBackground] *)
Definition TR_ClearBackground (color : Color) (s : Engine) : result Engine :=
  if negb (__tr_window_open s) then Ok s else
  let s := set_current_bg_color color s in
  let* buf := fill_cells (wrap32 (__tr_buffer_width s * __tr_buffer_height s))
                (mkCell space color color) (__tr_screen_buffer s) in
  Ok (set_screen_buffer buf s).

(** [TR_GetKeyPressed]: the pair is (return value, state). *)
Definition TR_GetKeyPressed (s : Engine) : Z * Engine :=
  let key := __tr_key_buffer s in
  (key, set_key_buffer 0 s).

(** [TR_IsKeyDown] and [TR_IsKeyPressed] *)
Definition TR_IsKeyDown (key : Z) (s : Engine) : bool := __tr_key_buffer s =? key.
Definition TR_IsKeyPressed (key : Z) (s : Engine) : bool := __tr_key_buffer s =? key.

(** ** 2D primitives *)

(** The guard [x >= 0 && x < __tr_buffer_width && y >= 0 && y < __tr_buffer_height]. *)
Definition in_bounds (s : Engine) (x y : Z) : bool :=
  (0 <=? x) && (x <? __tr_buffer_width s) &&
  (0 <=? y) && (y <? __tr_buffer_height s).

(** [y * __tr_buffer_width + x] *)
Definition cell_index (s : Engine) (x y : Z) : Z :=
  wrap32 (wrap32 (y * __tr_buffer_width s) + x).

(** [TR_DrawPixel] *)
Definition TR_DrawPixel (x y : Z) (color : Color) (s : Engine) : result Engine :=
  if negb (__tr_window_open s) || (x <? 0) || (__tr_buffer_width s <=? x) ||
     (y <? 0) || (__tr_buffer_height s <=? y)
  then Ok s
  else write_cell (cell_index s x y) (mkCell space color color) s.

(** The background actually used by the text and rectangle calls. *)
Definition final_bg_color (bg_color : Color) (s : Engine) : Color :=
  if __tr_colors_equal bg_color BLANK then __tr_current_bg_color s else bg_color.

(** The loop of [TR_DrawText] over the characters of [text] from offset
    [i]; it stops at the terminating NUL. *)
Fixpoint draw_text_loop (text : string) (i x y : Z) (fg_color final_bg : Color)
    (s : Engine) : result Engine :=
  match text with
  | EmptyString => Ok s
  | String ch rest =>
      if Ascii.eqb ch zero then Ok s else
      let current_x := wrap32 (x + i) in
      let* s' :=
        if (0 <=? current_x) && (current_x <? __tr_buffer_width s)
        then write_cell (cell_index s current_x y) (mkCell ch fg_color final_bg) s
        else Ok s in
      draw_text_loop rest (i + 1) x y fg_color final_bg s'
  end.

(** [TR_DrawText]; [None] is the [NULL] pointer. *)
Definition TR_DrawText (text : option string) (x y fontSize : Z)
    (fg_color bg_color : Color) (s : Engine) : result Engine :=
  match text with
  | None => Ok s
  | Some txt =>
      if negb (__tr_window_open s) || (y <? 0) || (__tr_buffer_height s <=? y)
      then Ok s
      else draw_text_loop txt 0 x y fg_color (final_bg_color bg_color s) s
  end.

(** [TR_DrawRectangle] *)
Definition TR_DrawRectangle (x y width height : Z) (fg_color bg_color : Color)
    (s : Engine) : result Engine :=
  if negb (__tr_window_open s) then Ok s else
  let final_bg := final_bg_color bg_color s in
  for_range 0 height (fun j =>
    for_range 0 width (fun i s =>
      let current_x := wrap32 (x + i) in
      let current_y := wrap32 (y + j) in
      if in_bounds s current_x current_y
      then write_cell (cell_index s current_x current_y)
             (mkCell space fg_color final_bg) s
      else Ok s)) s.

(** One guarded border cell of [TR_DrawRectangleLines]. *)
Definition draw_border_cell (cx cy : Z) (fg_color final_bg : Color) (s : Engine)
  : result Engine :=
  if in_bounds s cx cy
  then write_cell (cell_index s cx cy) (mkCell hash fg_color final_bg) s
  else Ok s.

(** [TR_DrawRectangleLines] *)
Definition TR_DrawRectangleLines (x y width height : Z) (fg_color bg_color : Color)
    (s : Engine) : result Engine :=
  if negb (__tr_window_open s) then Ok s else
  let final_bg := final_bg_color bg_color s in
  let* s :=
    for_range 0 width (fun i s =>
      let top_x := wrap32 (x + i) in
      let bottom_x := wrap32 (x + i) in
      let top_y := y in
      let bottom_y := wrap32 (wrap32 (y + height) - 1) in
      let* s := draw_border_cell top_x top_y fg_color final_bg s in
      draw_border_cell bottom_x bottom_y fg_color final_bg s) s in
  for_range 1 (wrap32 (height - 1)) (fun j s =>
    let left_y := wrap32 (y + j) in
    let right_y := wrap32 (y + j) in
    let left_x := x in
    let right_x := wrap32 (wrap32 (x + width) - 1) in
    let* s := draw_border_cell left_x left_y fg_color final_bg s in
    draw_border_cell right_x right_y fg_color final_bg s) s.

(** ** 3D data *)

Module V3.
Record t : Type := mk { x : float; y : float; z : float }.
End V3.
Abbreviation TR_Vector3 := V3.t.

(** A C array of four elements. *)
Definition arr4 (A : Type) : Type := (A * A * A * A)%type.

Definition get4 {A : Type} (d : A) (t : arr4 A) (i : Z) : A :=
  let '(a0, a1, a2, a3) := t in
  match i with
  | 0 => a0 | 1 => a1 | 2 => a2 | 3 => a3
  | _ => d
  end.

Definition set4 {A : Type} (t : arr4 A) (i : Z) (v : A) : arr4 A :=
  let '(a0, a1, a2, a3) := t in
  match i with
  | 0 => (v, a1, a2, a3) | 1 => (a0, v, a2, a3)
  | 2 => (a0, a1, v, a3) | 3 => (a0, a1, a2, v)
  | _ => t
  end.

(** [struct { float m[4][4]; }], row-major. *)
Record TR_Matrix4x4 : Type := mkMatrix { m : arr4 (arr4 float) }.

Definition zero_row : arr4 float := (F32.zero, F32.zero, F32.zero, F32.zero).

(** [TR_Matrix4x4 mat = {0};] *)
Definition matrix_zero : TR_Matrix4x4 :=
  mkMatrix (zero_row, zero_row, zero_row, zero_row).

(** [mat.m[i][j]] *)
Definition mget (mat : TR_Matrix4x4) (i j : Z) : float :=
  get4 F32.zero (get4 zero_row (m mat) i) j.

(** [mat.m[i][j] = v] *)
Definition mset (mat : TR_Matrix4x4) (i j : Z) (v : float) : TR_Matrix4x4 :=
  mkMatrix (set4 (m mat) i (set4 (get4 zero_row (m mat) i) j v)).

(** The functions of [libm] the header calls, each composed with the
    promotion of its [float] argument to [double] and the cast of its
    result back to [float]. *)
Record Libm : Type := mkLibm {
  cos_f : float -> float;
  sin_f : float -> float;
  tan_f : float -> float
}.

(** ** 3D math *)

(** [TR_MatrixIdentity] *)
Definition TR_MatrixIdentity : TR_Matrix4x4 :=
  let mat := matrix_zero in
  let mat := mset mat 0 0 F32.one in
  let mat := mset mat 1 1 F32.one in
  let mat := mset mat 2 2 F32.one in
  let mat := mset mat 3 3 F32.one in
  mat.

(** A pure [for (int i = 0; i < 4; i++)] over an accumulator. *)
Definition for4 {A : Type} (body : Z -> A -> A) (acc : A) : A :=
  fold_left (fun acc i => body i acc) [0; 1; 2; 3] acc.

(** [TR_MatrixMultiply] *)
Definition TR_MatrixMultiply (mat1 mat2 : TR_Matrix4x4) : TR_Matrix4x4 :=
  for4 (fun i =>
    for4 (fun j =>
      for4 (fun k result =>
        mset result i j
          (F32.add (mget result i j)
                   (F32.mul (mget mat1 i k) (mget mat2 k j))))))
    matrix_zero.

(** [TR_Vector3Transform] *)
Definition TR_Vector3Transform (v : TR_Vector3) (mat : TR_Matrix4x4) : TR_Vector3 :=
  let lin (j : Z) :=
    F32.add (F32.add (F32.add (F32.mul (V3.x v) (mget mat 0 j))
                              (F32.mul (V3.y v) (mget mat 1 j)))
                     (F32.mul (V3.z v) (mget mat 2 j)))
            (F32.mul F32.one (mget mat 3 j)) in
  let x := lin 0 in
  let y := lin 1 in
  let z := lin 2 in
  let w := lin 3 in
  if negb (F32.eqb w F32.zero)
  then V3.mk (F32.div x w) (F32.div y w) (F32.div z w)
  else V3.mk x y z.

(** [TR_MatrixTranslate] *)
Definition TR_MatrixTranslate (x y z : float) : TR_Matrix4x4 :=
  let mat := TR_MatrixIdentity in
  let mat := mset mat 3 0 x in
  let mat := mset mat 3 1 y in
  let mat := mset mat 3 2 z in
  mat.

(** [TR_MatrixRotateX] *)
Definition TR_MatrixRotateX (lm : Libm) (angle : float) : TR_Matrix4x4 :=
  let mat := TR_MatrixIdentity in
  let c := cos_f lm angle in
  let s := sin_f lm angle in
  let mat := mset mat 1 1 c in
  let mat := mset mat 1 2 s in
  let mat := mset mat 2 1 (F32.neg s) in
  let mat := mset mat 2 2 c in
  mat.

(** [TR_MatrixRotateY] *)
Definition TR_MatrixRotateY (lm : Libm) (angle : float) : TR_Matrix4x4 :=
  let mat := TR_MatrixIdentity in
  let c := cos_f lm angle in
  let s := sin_f lm angle in
  let mat := mset mat 0 0 c in
  let mat := mset mat 0 2 (F32.neg s) in
  let mat := mset mat 2 0 s in
  let mat := mset mat 2 2 c in
  mat.

(** [TR_MatrixRotateZ] *)
Definition TR_MatrixRotateZ (lm : Libm) (angle : float) : TR_Matrix4x4 :=
  let mat := TR_MatrixIdentity in
  let c := cos_f lm angle in
  let s := sin_f lm angle in
  let mat := mset mat 0 0 c in
  let mat := mset mat 0 1 s in
  let mat := mset mat 1 0 (F32.neg s) in
  let mat := mset mat 1 1 c in
  mat.

(** [TR_MatrixScale] *)
Definition TR_MatrixScale (x y z : float) : TR_Matrix4x4 :=
  let mat := TR_MatrixIdentity in
  let mat := mset mat 0 0 x in
  let mat := mset mat 1 1 y in
  let mat := mset mat 2 2 z in
  mat.

(** ** Filled triangles *)

(** [__tr_project_vertex] for a buffer of [bw] by [bh] cells. *)
Definition __tr_project_vertex (bw bh : Z) (vertex : TR_Vector3)
    (mvp_matrix : TR_Matrix4x4) : TR_Vector3 :=
  let transformed_v := TR_Vector3Transform vertex mvp_matrix in
  V3.mk
    (F32.mul (F32.mul (F32.add (V3.x transformed_v) F32.one) F32.half)
             (F32.of_int bw))
    (F32.mul (F32.mul (F32.sub F32.one (V3.y transformed_v)) F32.half)
             (F32.of_int bh))
    (V3.z transformed_v).

(** The three conditional swaps that order [p] by ascending [y]. *)
Definition sort_by_y (p : TR_Vector3 * TR_Vector3 * TR_Vector3)
  : TR_Vector3 * TR_Vector3 * TR_Vector3 :=
  let '(p0, p1, p2) := p in
  let '(p0, p1) := if F32.gtb (V3.y p0) (V3.y p1) then (p1, p0) else (p0, p1) in
  let '(p0, p2) := if F32.gtb (V3.y p0) (V3.y p2) then (p2, p0) else (p0, p2) in
  let '(p1, p2) := if F32.gtb (V3.y p1) (V3.y p2) then (p2, p1) else (p1, p2) in
  (p0, p1, p2).

(** The scanline extent: [(x_left, x_right, z_left, z_right)]. *)
Definition Span : Type := (float * float * float * float)%type.

(** One iteration of the edge loop at scanline [y]. *)
Definition edge_step (y : Z) (p_curr p_next : TR_Vector3) (acc : Span) : Span :=
  let '(x_left, x_right, z_left, z_right) := acc in
  let yc := F32.to_int (V3.y p_curr) in
  let yn := F32.to_int (V3.y p_next) in
  if ((yc <=? y) && (y <? yn)) || ((yn <=? y) && (y <? yc)) then
    if F32.eqb (V3.y p_curr) (V3.y p_next) then acc else
    let t := F32.div (F32.sub (F32.of_int y) (V3.y p_curr))
                     (F32.sub (V3.y p_next) (V3.y p_curr)) in
    let intersect_x :=
      F32.add (V3.x p_curr) (F32.mul t (F32.sub (V3.x p_next) (V3.x p_curr))) in
    let intersect_z :=
      F32.add (V3.z p_curr) (F32.mul t (F32.sub (V3.z p_next) (V3.z p_curr))) in
    let '(x_left, z_left) :=
      if F32.ltb intersect_x x_left then (intersect_x, intersect_z)
      else (x_left, z_left) in
    let '(x_right, z_right) :=
      if F32.gtb intersect_x x_right then (intersect_x, intersect_z)
      else (x_right, z_right) in
    (x_left, x_right, z_left, z_right)
  else acc.

(** The edge loop [for (int i = 0; i < 3; ++i)] at scanline [y]. *)
Definition scan_edges (bw y : Z) (p0 p1 p2 : TR_Vector3) : Span :=
  let acc := (F32.of_int bw, F32.zero, F32.one, F32.zero) in
  let acc := edge_step y p0 p1 acc in
  let acc := edge_step y p1 p2 acc in
  let acc := edge_step y p2 p0 acc in
  acc.

(** The interpolated depth of pixel [x] in the span. *)
Definition pixel_depth (x x_start x_end : Z) (z_left z_right : float) : float :=
  if negb (x_end =? x_start) then
    let t_x := F32.div (F32.of_int (wrap32 (x - x_start)))
                       (F32.of_int (wrap32 (x_end - x_start))) in
    F32.add z_left (F32.mul t_x (F32.sub z_right z_left))
  else z_left.

(** The depth test and the write of one pixel. *)
Definition depth_test_draw (x y : Z) (pixel_z : float) (color : Color) (s : Engine)
  : result Engine :=
  let index := cell_index s x y in
  if (0 <=? index) && (index <? __tr_z_buffer_size s) then
    let* zv := load index (__tr_z_buffer s) in
    if F32.ltb pixel_z zv then
      let* zb := store index pixel_z (__tr_z_buffer s) in
      TR_DrawPixel x y color (set_z_buffer zb s)
    else Ok s
  else Ok s.

(** The clamped integer column range of a span. *)
Definition span_columns (bw : Z) (sp : Span) : Z * Z :=
  let '(x_left, x_right, _, _) := sp in
  let x_start := F32.to_int x_left in
  let x_end := F32.to_int x_right in
  let x_start := if x_start <? 0 then 0 else x_start in
  let x_end := if bw <=? x_end then wrap32 (bw - 1) else x_end in
  (x_start, x_end).

(** The clamped scanline range of the sorted vertices. *)
Definition scanline_rows (bh : Z) (p0 p2 : TR_Vector3) : Z * Z :=
  let y_start := F32.to_int (V3.y p0) in
  let y_end := F32.to_int (V3.y p2) in
  let y_start := if y_start <? 0 then 0 else y_start in
  let y_end := if bh <=? y_end then wrap32 (bh - 1) else y_end in
  (y_start, y_end).

(** [TR_DrawTriangle3DFilled].  The buffer dimensions are read once: no
    callee assigns them. *)
Definition TR_DrawTriangle3DFilled (v1 v2 v3 : TR_Vector3)
    (mvp_matrix : TR_Matrix4x4) (color : Color) (s : Engine) : result Engine :=
  let bw := __tr_buffer_width s in
  let bh := __tr_buffer_height s in
  let '(p0, p1, p2) :=
    sort_by_y (__tr_project_vertex bw bh v1 mvp_matrix,
               __tr_project_vertex bw bh v2 mvp_matrix,
               __tr_project_vertex bw bh v3 mvp_matrix) in
  let '(y_start, y_end) := scanline_rows bh p0 p2 in
  for_range y_start (y_end + 1) (fun y s =>
    let sp := scan_edges bw y p0 p1 p2 in
    let '(x_start, x_end) := span_columns bw sp in
    let '(_, _, z_left, z_right) := sp in
    for_range x_start (x_end + 1) (fun x s =>
      depth_test_draw x y (pixel_depth x x_start x_end z_left z_right) color s) s) s.


(** [TR_CloseWindow]; [sigaction_ok] tells whether restoring the SIGINT
    handler succeeded.  The freed buffers become [NULL]; the buffer
    dimensions and [__tr_z_buffer_size] are left as they were. *)
Definition TR_CloseWindow (sigaction_ok : bool) (s : Engine) : Engine :=
  if negb (__tr_window_open s) then s else
  let evs :=
    [EvRestoreMode; EvSigintRestore] ++
    (if sigaction_ok then [] else
       [EvStderr "TREAD WARNING: Could not restore original SIGINT handler."]) ++
    [EvResetAttributes] ++
    __tr_set_cursor_visibility true ++
    __tr_set_cursor_position 0 0 ++
    __tr_clear_screen_direct BLACK ++
    [EvFlush] in
  mkEngine false (__tr_frame_time_us s) (__tr_key_buffer s) [] []
    (__tr_buffer_width s) (__tr_buffer_height s) (__tr_current_bg_color s)
    (__tr_initial_width s) (__tr_initial_height s) [] (__tr_z_buffer_size s)
    (__tr_last_frame_start_ns s) (out s ++ evs).

(** ** Wireframe *)

(** The loop of [__tr_draw_line_2d].  [fuel] bounds the number of
    iterations; [None] is a run still inside the loop at the bound. *)
Fixpoint draw_line_loop (fuel : nat) (x1 y1 x2 y2 dx dy sx sy err : Z)
    (color : Color) (s : Engine) : option (result Engine) :=
  match fuel with
  | O => None
  | S fuel =>
      match TR_DrawPixel x1 y1 color s with
      | Ok s =>
          if (x1 =? x2) && (y1 =? y2) then Some (Ok s) else
          let e2 := wrap32 (2 * err) in
          let '(err, x1) :=
            if wrap32 (- dy) <? e2 then (wrap32 (err - dy), wrap32 (x1 + sx))
            else (err, x1) in
          let '(err, y1) :=
            if e2 <? dx then (wrap32 (err + dx), wrap32 (y1 + sy))
            else (err, y1) in
          draw_line_loop fuel x1 y1 x2 y2 dx dy sx sy err color s
      | Exit code => Some (Exit code)
      | Fault => Some Fault
      end
  end.

(** [__tr_draw_line_2d] *)
Definition __tr_draw_line_2d (fuel : nat) (x1 y1 x2 y2 : Z) (color : Color)
    (s : Engine) : option (result Engine) :=
  let dx := wrap32 (Z.abs (wrap32 (x2 - x1))) in
  let dy := wrap32 (Z.abs (wrap32 (y2 - y1))) in
  let sx := if x1 <? x2 then 1 else -1 in
  let sy := if y1 <? y2 then 1 else -1 in
  let err := wrap32 (dx - dy) in
  draw_line_loop fuel x1 y1 x2 y2 dx dy sx sy err color s.

(** [TR_DrawTriangle3DWireframe]; each of the three lines runs with the
    bound [fuel]. *)
Definition TR_DrawTriangle3DWireframe (fuel : nat) (v1 v2 v3 : TR_Vector3)
    (mvp_matrix : TR_Matrix4x4) (color : Color) (s : Engine)
  : option (result Engine) :=
  let bw := __tr_buffer_width s in
  let bh := __tr_buffer_height s in
  let pv1 := __tr_project_vertex bw bh v1 mvp_matrix in
  let pv2 := __tr_project_vertex bw bh v2 mvp_matrix in
  let pv3 := __tr_project_vertex bw bh v3 mvp_matrix in
  match __tr_draw_line_2d fuel (F32.to_int (V3.x pv1)) (F32.to_int (V3.y pv1))
          (F32.to_int (V3.x pv2)) (F32.to_int (V3.y pv2)) color s with
  | Some (Ok s) =>
      match __tr_draw_line_2d fuel (F32.to_int (V3.x pv2)) (F32.to_int (V3.y pv2))
              (F32.to_int (V3.x pv3)) (F32.to_int (V3.y pv3)) color s with
      | Some (Ok s) =>
          __tr_draw_line_2d fuel (F32.to_int (V3.x pv3)) (F32.to_int (V3.y pv3))
            (F32.to_int (V3.x pv1)) (F32.to_int (V3.y pv1)) color s
      | r => r
      end
  | r => r
  end.

(** * The snake game

    The game logic of [src/games/2D/snake.c], a client of the engine: the
    globals of the program are the fields of [Game]; [rand()] is a stream
    of integers handed to the functions that draw from it. *)

Module Seg.
Record t : Type := mk { x : Z; y : Z }.
End Seg.
Abbreviation Segment := Seg.t.

Definition MAP_WIDTH : Z := 40.
Definition MAP_HEIGHT : Z := 20.
Definition MAX_SNAKE_LENGTH : Z := MAP_WIDTH * MAP_HEIGHT.

Record Game : Type := mkGame {
  snake : list Segment;       (* Segment snake[MAX_SNAKE_LENGTH] *)
  snake_length : Z;
  current_dx : Z;
  current_dy : Z;
  food : Segment;
  score : Z;
  game_over : bool
}.

(** The globals as the program starts: zero-initialised. *)
Definition initial_game : Game :=
  mkGame (replicate (Z.to_nat MAX_SNAKE_LENGTH) (Seg.mk 0 0)) 0 0 0 (Seg.mk 0 0) 0 false.

Definition set_snake (arr : list Segment) (g : Game) : Game :=
  mkGame arr (snake_length g) (current_dx g) (current_dy g) (food g) (score g)
    (game_over g).

Definition set_snake_length (n : Z) (g : Game) : Game :=
  mkGame (snake g) n (current_dx g) (current_dy g) (food g) (score g)
    (game_over g).

Definition set_direction (dx dy : Z) (g : Game) : Game :=
  mkGame (snake g) (snake_length g) dx dy (food g) (score g) (game_over g).

Definition set_food (f : Segment) (g : Game) : Game :=
  mkGame (snake g) (snake_length g) (current_dx g) (current_dy g) f (score g)
    (game_over g).

Definition set_score (n : Z) (g : Game) : Game :=
  mkGame (snake g) (snake_length g) (current_dx g) (current_dy g) (food g) n
    (game_over g).

Definition set_game_over (b : bool) (g : Game) : Game :=
  mkGame (snake g) (snake_length g) (current_dx g) (current_dy g) (food g)
    (score g) b.

(** [snake[i].x == cx && snake[i].y == cy] *)
Definition same_cell (seg : Segment) (cx cy : Z) : bool :=
  (Seg.x seg =? cx) && (Seg.y seg =? cy).

(** A scan of the segments at [idxs] that stops at the first one lying on
    [(cx, cy)]. *)
Fixpoint any_segment (idxs : list Z) (arr : list Segment) (cx cy : Z)
  : result bool :=
  match idxs with
  | [] => Ok false
  | i :: rest =>
      let* seg := load i arr in
      if same_cell seg cx cy then Ok true else any_segment rest arr cx cy
  end.

(** [IsCollidingWithSelf] *)
Definition IsCollidingWithSelf (head_x head_y : Z) (g : Game) : result bool :=
  any_segment (seqZ 1 (snake_length g - 1)) (snake g) head_x head_y.

(** [PlaceFoodRandomly].  Every turn of its loop draws two numbers; [None]
    is a run still inside the loop when the stream ends. *)
Fixpoint PlaceFoodRandomly (rands : list Z) (g : Game)
  : option (result Game * list Z) :=
  match rands with
  | r1 :: r2 :: rest =>
      let new_x := wrap32 (Z.rem r1 (MAP_WIDTH - 2) + 1) in
      let new_y := wrap32 (Z.rem r2 (MAP_HEIGHT - 2) + 1) in
      match any_segment (seqZ 0 (snake_length g)) (snake g) new_x new_y with
      | Ok true => PlaceFoodRandomly rest g
      | Ok false => Some (Ok (set_food (Seg.mk new_x new_y) g), rest)
      | Exit code => Some (Exit code, rest)
      | Fault => Some (Fault, rest)
      end
  | _ => None
  end.

(** [InitGame] *)
Definition InitGame (rands : list Z) (g : Game) : option (result Game * list Z) :=
  let g := set_snake_length 1 g in
  match store 0 (Seg.mk (MAP_WIDTH / 2) (MAP_HEIGHT / 2)) (snake g) with
  | Ok arr =>
      let g := set_snake arr g in
      let g := set_direction 1 0 g in
      let g := set_score 0 g in
      let g := set_game_over false g in
      PlaceFoodRandomly rands g
  | Exit code => Some (Exit code, rands)
  | Fault => Some (Fault, rands)
  end.

(** The indices [n, n - 1, ..., 1] of a loop counting down to 1. *)
Fixpoint down_from (n : nat) : list Z :=
  match n with
  | O => []
  | S k => Z.of_nat n :: down_from k
  end.

(** The input handling of [UpdateGame]. *)
Definition steer (key : Z) (g : Game) : Game :=
  if negb (key =? 0) then
    if ((key =? 119) || (key =? TR_KEY_UP)) && (current_dy g =? 0)
    then set_direction 0 (-1) g
    else if ((key =? 115) || (key =? TR_KEY_DOWN)) && (current_dy g =? 0)
    then set_direction 0 1 g
    else if ((key =? 97) || (key =? TR_KEY_LEFT)) && (current_dx g =? 0)
    then set_direction (-1) 0 g
    else if ((key =? 100) || (key =? TR_KEY_RIGHT)) && (current_dx g =? 0)
    then set_direction 1 0 g
    else g
  else g.

(** [UpdateGame] up to the call of [PlaceFoodRandomly]: the flag tells
    whether the food was eaten. *)
Definition move_snake (key : Z) (g : Game) : result (Game * bool) :=
  let g := steer key g in
  let* arr :=
    iterM (fun i arr => let* seg := load (wrap32 (i - 1)) arr in store i seg arr)
          (down_from (Z.to_nat (wrap32 (snake_length g - 1)))) (snake g) in
  let* head := load 0 arr in
  let head := Seg.mk (wrap32 (Seg.x head + current_dx g))
                     (wrap32 (Seg.y head + current_dy g)) in
  let* arr := store 0 head arr in
  let g := set_snake arr g in
  if (Seg.x head <? 0) || (MAP_WIDTH <=? Seg.x head) ||
     (Seg.y head <? 0) || (MAP_HEIGHT <=? Seg.y head)
  then Ok (set_game_over true g, false)
  else
    let* hit := IsCollidingWithSelf (Seg.x head) (Seg.y head) g in
    if hit then Ok (set_game_over true g, false)
    else if (Seg.x head =? Seg.x (food g)) && (Seg.y head =? Seg.y (food g))
    then
      let g := set_score (wrap32 (score g + 10)) g in
      let g := set_snake_length (wrap32 (snake_length g + 1)) g in
      let g := if MAX_SNAKE_LENGTH <? snake_length g
               then set_snake_length MAX_SNAKE_LENGTH g else g in
      Ok (g, true)
    else Ok (g, false).

(** [UpdateGame] *)
Definition UpdateGame (rands : list Z) (g : Game) (s : Engine)
  : option (result (Game * Engine) * list Z) :=
  let '(key, s) := TR_GetKeyPressed s in
  match move_snake key g with
  | Ok (g, true) =>
      match PlaceFoodRandomly rands g with
      | Some (Ok g, rest) => Some (Ok (g, s), rest)
      | Some (Exit code, rest) => Some (Exit code, rest)
      | Some (Fault, rest) => Some (Fault, rest)
      | None => None
      end
  | Ok (g, false) => Some (Ok (g, s), rands)
  | Exit code => Some (Exit code, rands)
  | Fault => Some (Fault, rands)
  end.

(** ** Vocabulary of the specification *)

(** The state of the scan after a non-empty prefix [pre] of the palette:
    the first index of least distance, with that distance. *)
Definition first_min (c : Color) (pre : list Color) (acc : Z * Z) : Prop :=
  exists t,
    pre !! Z.to_nat (snd acc) = Some t /\ 0 <= snd acc /\
    fst acc = dist c t /\
    (forall j u, pre !! j = Some u -> dist c t <= dist c u) /\
    (forall j u, (j < Z.to_nat (snd acc))%nat -> pre !! j = Some u ->
                 dist c t < dist c u).

(** The invariant of an open session: positive dimensions whose product is
    an [int], and three buffers of that many elements. *)
Record wf (s : Engine) : Prop := mkWf {
  wf_open : __tr_window_open s = true;
  wf_width : 0 < __tr_buffer_width s;
  wf_height : 0 < __tr_buffer_height s;
  wf_area : __tr_buffer_width s * __tr_buffer_height s <= INT_MAX;
  wf_screen :
    Z.of_nat (length (__tr_screen_buffer s)) =
    __tr_buffer_width s * __tr_buffer_height s;
  wf_prev :
    Z.of_nat (length (__tr_prev_screen_buffer s)) =
    __tr_buffer_width s * __tr_buffer_height s;
  wf_z :
    Z.of_nat (length (__tr_z_buffer s)) =
    __tr_buffer_width s * __tr_buffer_height s;
  wf_z_size :
    __tr_z_buffer_size s = __tr_buffer_width s * __tr_buffer_height s
}.

(** The session that a 4-by-3 terminal and an honest allocator give. *)
Definition demo_terminal : Terminal := mkTerminal true 4 3.

Definition demo_heap : Heap :=
  mkHeap (fun n => Some (replicate (Z.to_nat n) (mkCell "?"%char BLANK BLANK)))
         (fun n => Some (replicate (Z.to_nat n) F32.zero)).

Definition demo_blank : __TR_Cell := mkCell space BLACK BLACK.

Definition demo_session : Engine :=
  mkEngine true 0 0 (replicate 12 demo_blank) (replicate 12 demo_blank)
    4 3 BLACK 4 3 (replicate 12 F32.zero) 12 0
    [EvRawMode; EvSigintIgnore; EvTitle "demo"; EvCursorVisible false;
     EvSgr 30 40; EvClearScreen; EvHome; EvFlush].


Definition idle_stdin : Stdin := mkStdin false [] [].

(** Equal red, green and blue components. *)
Definition same_rgb (c1 c2 : Color) : Prop :=
  r c1 = r c2 /\ g c1 = g c2 /\ b c1 = b c2.

(** The four 2D drawing calls. *)
Inductive DrawCall : Type :=
| CallPixel (x y : Z) (color : Color)
| CallText (text : option string) (x y fontSize : Z) (fg bg : Color)
| CallRectangle (x y width height : Z) (fg bg : Color)
| CallRectangleLines (x y width height : Z) (fg bg : Color).

Definition run_call (c : DrawCall) (s : Engine) : result Engine :=
  match c with
  | CallPixel x y color => TR_DrawPixel x y color s
  | CallText text x y fontSize fg bg => TR_DrawText text x y fontSize fg bg s
  | CallRectangle x y w h fg bg => TR_DrawRectangle x y w h fg bg s
  | CallRectangleLines x y w h fg bg => TR_DrawRectangleLines x y w h fg bg s
  end.

(** [strlen]: the characters before the first NUL. *)
Fixpoint c_strlen (text : string) : Z :=
  match text with
  | EmptyString => 0
  | String ch rest => if Ascii.eqb ch zero then 0 else 1 + c_strlen rest
  end.

(** The cells of a rectangle, row by row. *)
Definition rect_positions (x y width height : Z) : list (Z * Z) :=
  flat_map (fun j => map (fun i => (wrap32 (x + i), wrap32 (y + j)))
                         (seqZ 0 width))
           (seqZ 0 height).

(** The cells a call addresses, as (column, row) pairs. *)
Definition addressed (c : DrawCall) : list (Z * Z) :=
  match c with
  | CallPixel x y _ => [(x, y)]
  | CallText None _ _ _ _ _ => []
  | CallText (Some txt) x y _ _ _ =>
      map (fun i => (wrap32 (x + i), y)) (seqZ 0 (c_strlen txt))
  | CallRectangle x y w h _ _ => rect_positions x y w h
  | CallRectangleLines x y w h _ _ =>
      flat_map (fun i => [(wrap32 (x + i), y);
                          (wrap32 (x + i), wrap32 (wrap32 (y + h) - 1))])
               (seqZ 0 w) ++
      flat_map (fun j => [(x, wrap32 (y + j));
                          (wrap32 (wrap32 (x + w) - 1), wrap32 (y + j))])
               (seqZ 1 (wrap32 (h - 1) - 1))
  end.

(** The bounds-checked cell write of the frame buffer: a write outside the
    bounds is dropped. *)
Definition put_cell (c : __TR_Cell) (p : Z * Z) (s : Engine) : result Engine :=
  if in_bounds s (fst p) (snd p)
  then write_cell (cell_index s (fst p) (snd p)) c s
  else Ok s.


(** The frame-buffer cell at column [x], row [y]. *)
Definition cell_at (s : Engine) (x y : Z) : option __TR_Cell :=
  __tr_screen_buffer s !! Z.to_nat (cell_index s x y).

(** The cell of the previous frame at column [x], row [y]. *)
Definition prev_cell_at (s : Engine) (x y : Z) : option __TR_Cell :=
  __tr_prev_screen_buffer s !! Z.to_nat (cell_index s x y).

(** All positions of a [bw] by [bh] buffer, row by row. *)
Definition positions_row_major (bw bh : Z) : list (Z * Z) :=
  flat_map (fun y => map (fun x => (x, y)) (seqZ 0 bw)) (seqZ 0 bh).


Definition changed_at (s : Engine) (p : Z * Z) : bool :=
  match cell_at s (fst p) (snd p), prev_cell_at s (fst p) (snd p) with
  | Some c, Some q => cell_changed c q
  | _, _ => false
  end.

(** The positions whose cell changed since the previous frame, in scan order. *)
Definition changed_positions (s : Engine) : list (Z * Z) :=
  filter (fun p => changed_at s p = true)
         (positions_row_major (__tr_buffer_width s) (__tr_buffer_height s)).

(** The backend write for the current cell at a position: cursor move,
    colour set, glyph print. *)
Definition write_events (s : Engine) (p : Z * Z) : list Event :=
  match cell_at s (fst p) (snd p) with
  | Some c =>
      __tr_set_cursor_position (fst p) (snd p) ++
      __tr_set_terminal_color (fg_color c) (bg_color c) ++
      [EvPutc (character c)]
  | None => []
  end.

(** The positions (column, row) of the cursor moves in a trace. *)
Definition written_positions (evs : list Event) : list (Z * Z) :=
  flat_map (fun e => match e with
                     | EvCursor row col => [(col - 1, row - 1)]
                     | _ => []
                     end) evs.

(** The number of glyphs printed in a trace. *)
Definition glyph_count (evs : list Event) : nat :=
  length (List.filter (fun e => match e with EvPutc _ => true | _ => false end) evs).

(** What the frame pacing appends to the trace. *)
Definition pace_events (now : Z) (s : Engine) : list Event :=
  if 0 <? __tr_frame_time_us s then
    if now - __tr_last_frame_start_ns s <? __tr_frame_time_us s * 1000
    then [EvSleep (__tr_frame_time_us s * 1000 - (now - __tr_last_frame_start_ns s))]
    else []
  else [].

(** A one-cell session whose two frames differ in the alpha of the
    foreground only. *)
Definition alpha_only_session : Engine :=
  mkEngine true 0 0
    [mkCell space (mkColor 9 9 9 255) BLACK]
    [mkCell space (mkColor 9 9 9 0) BLACK]
    1 1 BLACK 1 1 [F32.one] 1 0 [].

(** A zero of either sign. *)
Definition is_zero (f : float) : bool :=
  match f with
  | S754_zero _ => true
  | _ => false
  end.

(** A well-formed finite number. *)
Definition is_number (f : float) : bool := F32.valid f && F32.is_finite f.

(** The sign bit of a zero or finite number. *)
Definition sign_of (f : float) : bool :=
  match f with
  | S754_zero s | S754_finite s _ _ => s
  | _ => false
  end.

(** A number with a negative zero replaced by the positive zero. *)
Definition plus_zero (f : float) : float :=
  match f with
  | S754_zero _ => S754_zero false
  | _ => f
  end.

(** The product of two four-element rows, summed left to right. *)
Definition dot4 (u v : arr4 float) : float :=
  let '(u0, u1, u2, u3) := u in
  let '(v0, v1, v2, v3) := v in
  F32.add (F32.add (F32.add (F32.mul u0 v0) (F32.mul u1 v1)) (F32.mul u2 v2))
          (F32.mul u3 v3).

(** Column [j] of a matrix. *)
Definition column (mat : TR_Matrix4x4) (j : Z) : arr4 float :=
  (mget mat 0 j, mget mat 1 j, mget mat 2 j, mget mat 3 j).

(** The homogeneous product [(v.x, v.y, v.z, 1) . mat]. *)
Definition homogeneous (v : TR_Vector3) (mat : TR_Matrix4x4) : arr4 float :=
  let row := (V3.x v, V3.y v, V3.z v, F32.one) in
  (dot4 row (column mat 0), dot4 row (column mat 1),
   dot4 row (column mat 2), dot4 row (column mat 3)).

Definition matrix_entries (mat : TR_Matrix4x4) : list float :=
  flat_map (fun i => map (fun j => mget mat i j) [0; 1; 2; 3]) [0; 1; 2; 3].

(** Every entry is a well-formed finite number. *)
Definition matrix_finite (mat : TR_Matrix4x4) : bool :=
  forallb is_number (matrix_entries mat).

(** Entry-wise [==] of two matrices. *)
Definition matrix_eqb (m1 m2 : TR_Matrix4x4) : bool :=
  forallb (fun i => forallb (fun j => F32.eqb (mget m1 i j) (mget m2 i j))
                            [0; 1; 2; 3]) [0; 1; 2; 3].

(** A [libm] whose cosine is constantly 1 and whose sine and tangent are
    the identity: exact at the angle 0. *)
Definition libm_at_zero : Libm := mkLibm (fun _ => F32.one) (fun a => a) (fun a => a).

Definition demo_matrix : TR_Matrix4x4 :=
  mkMatrix ((F32.of_int 2, F32.zero, F32.of_int (-3), F32.half),
            (F32.one, F32.of_int 7, F32.neg F32.zero, F32.zero),
            (F32.half, F32.one, F32.of_int 100, F32.of_int (-1)),
            (F32.zero, F32.of_int 5, F32.zero, F32.one)).

(** A key for every float but NaN: floats compare as their keys do in the
    lexicographic order. *)
Definition order_key (f : float) : option (Z * Z * Z) :=
  match f with
  | S754_nan => None
  | S754_infinity true => Some (-2, 0, 0)
  | S754_infinity false => Some (2, 0, 0)
  | S754_zero _ => Some (0, 0, 0)
  | S754_finite true m e => Some (-1, - e, Z.neg m)
  | S754_finite false m e => Some (1, e, Z.pos m)
  end.

Definition key_lt (k1 k2 : Z * Z * Z) : Prop :=
  let '(a1, a2, a3) := k1 in
  let '(b1, b2, b3) := k2 in
  a1 < b1 \/ (a1 = b1 /\ (a2 < b2 \/ (a2 = b2 /\ a3 < b3))).

(** A fragment: column, row and interpolated depth of one visited pixel. *)
Definition Fragment : Type := (Z * Z * float)%type.

Definition frag_depth (f : Fragment) : float := snd f.

(** The fragments of scanline [y], left to right. *)
Definition row_fragments (bw y : Z) (p0 p1 p2 : TR_Vector3) : list Fragment :=
  let sp := scan_edges bw y p0 p1 p2 in
  let '(x_start, x_end) := span_columns bw sp in
  let '(_, _, z_left, z_right) := sp in
  map (fun x => (x, y, pixel_depth x x_start x_end z_left z_right))
      (seqZ x_start (x_end + 1 - x_start)).

(** The fragments [TR_DrawTriangle3DFilled] visits on a [bw] by [bh]
    buffer, in the order of the scan. *)
Definition triangle_fragments (bw bh : Z) (v1 v2 v3 : TR_Vector3)
    (mvp_matrix : TR_Matrix4x4) : list Fragment :=
  let '(p0, p1, p2) :=
    sort_by_y (__tr_project_vertex bw bh v1 mvp_matrix,
               __tr_project_vertex bw bh v2 mvp_matrix,
               __tr_project_vertex bw bh v3 mvp_matrix) in
  let '(y_start, y_end) := scanline_rows bh p0 p2 in
  flat_map (fun y => row_fragments bw y p0 p1 p2)
           (seqZ y_start (y_end + 1 - y_start)).

(** The depth test and write for one fragment. *)
Definition plot (color : Color) (f : Fragment) (s : Engine) : result Engine :=
  depth_test_draw (fst (fst f)) (snd (fst f)) (snd f) color s.

(** The depth buffer and the frame buffer. *)
Definition Buffers : Type := (list float * list __TR_Cell)%type.

(** The index of a fragment's pixel in a buffer [bw] cells wide. *)
Definition frag_index (bw : Z) (f : Fragment) : nat :=
  Z.to_nat (snd (fst f) * bw + fst (fst f)).

(** The cell [TR_DrawPixel] writes. *)
Definition pixel_cell (color : Color) : __TR_Cell := mkCell space color color.

(** The effect of one fragment on the buffers: a strictly smaller depth
    replaces the stored depth and the cell. *)
Definition pixel_step (bw : Z) (color : Color) (bufs : Buffers) (f : Fragment)
  : Buffers :=
  match fst bufs !! frag_index bw f with
  | Some zv =>
      if F32.ltb (snd f) zv
      then (<[frag_index bw f := snd f]> (fst bufs),
            <[frag_index bw f := pixel_cell color]> (snd bufs))
      else bufs
  | None => bufs
  end.

Definition with_buffers (bufs : Buffers) (s : Engine) : Engine :=
  set_screen_buffer (snd bufs) (set_z_buffer (fst bufs) s).

Definition buffers_of (s : Engine) : Buffers :=
  (__tr_z_buffer s, __tr_screen_buffer s).

(** A fragment inside a [bw] by [bh] buffer. *)
Definition frag_inside (bw bh : Z) (f : Fragment) : Prop :=
  0 <= fst (fst f) < bw /\ 0 <= snd (fst f) < bh.

(** The depth and the cell stored at one index. *)
Definition local (i : nat) (bufs : Buffers) : option float * option __TR_Cell :=
  (fst bufs !! i, snd bufs !! i).


(** Two overlapping triangles in normalised device coordinates, at depths
    0.5 and 0.7. *)
Definition demo_vertex (x10 y10 z10 : Z) : TR_Vector3 :=
  V3.mk (F32.div (F32.of_int x10) (F32.of_int 10))
        (F32.div (F32.of_int y10) (F32.of_int 10))
        (F32.div (F32.of_int z10) (F32.of_int 10)).

Definition near_a1 : TR_Vector3 := demo_vertex (-9) (-9) 5.
Definition near_a2 : TR_Vector3 := demo_vertex 9 (-9) 5.
Definition near_a3 : TR_Vector3 := demo_vertex 0 9 5.
Definition far_b1 : TR_Vector3 := demo_vertex (-9) 9 7.
Definition far_b2 : TR_Vector3 := demo_vertex 9 9 7.
Definition far_b3 : TR_Vector3 := demo_vertex 0 (-9) 7.

(** An allocator whose blocks have the requested number of elements. *)
Definition honest (h : Heap) : Prop :=
  (forall n l, 0 <= n -> alloc_cells h n = Some l -> Z.of_nat (length l) = n) /\
  (forall n l, 0 <= n -> alloc_floats h n = Some l -> Z.of_nat (length l) = n).

(** One frame on a 10-by-10 terminal: open, begin, clear to black, fill a
    3-by-3 red rectangle at (2,2), end. *)
Definition red_square_frame : result Engine :=
  let t := mkTerminal true 10 10 in
  let* s := TR_InitWindow 10 10 "square" t demo_heap true initial_engine in
  let* s := TR_BeginDrawing t 0 idle_stdin s in
  let* s := TR_ClearBackground BLACK s in
  let* s := TR_DrawRectangle 2 2 3 3 RED RED s in
  TR_EndDrawing 0 s.

(** The [i]-th character of a C string. *)
Fixpoint c_char_at (text : string) (i : nat) : ascii :=
  match text, i with
  | EmptyString, _ => zero
  | String ch _, O => ch
  | String _ rest, S i' => c_char_at rest i'
  end.

(** A call that only rewrites the frame buffer, keeping its length: it
    returns normally, and every other field of the engine, the previous
    frame and the terminal output included, stays as it was. *)
Definition frame_only (f : Engine -> result Engine) : Prop :=
  forall s, wf s ->
    exists buf, f s = Ok (set_screen_buffer buf s) /\
                length buf = length (__tr_screen_buffer s).

(** The border cells of [TR_DrawRectangleLines], in drawing order. *)
Definition border_positions (x y width height : Z) : list (Z * Z) :=
  addressed (CallRectangleLines x y width height BLACK BLACK).

(** The cells of the rectangle outline, by coordinates. *)
Definition on_border (x y width height cx cy : Z) : bool :=
  ((x <=? cx) && (cx <? x + width) && ((cy =? y) || (cy =? y + height - 1))) ||
  (((cx =? x) || (cx =? x + width - 1)) && (y + 1 <=? cy) && (cy <? y + height - 1)).

(** The cells of the filled rectangle, by coordinates. *)
Definition in_rectangle (x y width height cx cy : Z) : bool :=
  (x <=? cx) && (cx <? x + width) && (y <=? cy) && (cy <? y + height).

(** The corners of a rectangle call are [int]s: no coordinate sum wraps. *)
Definition corners_in_range (x y width height : Z) : Prop :=
  in_range x /\ in_range y /\ in_range (x + width) /\ in_range (y + height) /\
  in_range (x + width - 1) /\ in_range (y + height - 1) /\ in_range (height - 1).

(** The cell every buffer holds after [TR_InitWindow]. *)
Definition blank_cell : __TR_Cell := mkCell space BLACK BLACK.

(** The palette index whose red, green and blue bits are set for the
    channels of at least 128. *)
Definition threshold_index (c : Color) : Z :=
  (if 128 <=? r c then 1 else 0) + (if 128 <=? g c then 2 else 0) +
  (if 128 <=? b c then 4 else 0).

(** The foreground and background codes of the ANSI palette, plain and bright. *)
Definition ansi_fg_code (n : Z) : Prop := 30 <= n <= 37 \/ 90 <= n <= 97.
Definition ansi_bg_code (n : Z) : Prop := 40 <= n <= 47 \/ 100 <= n <= 107.

(** Input with an escape sequence of four bytes, read over a stack
    buffer whose fifth and sixth bytes happen to hold a tilde and a NUL. *)
Definition stale_f5_input : Stdin :=
  mkStdin true [27; 91; 49; 53] [0; 0; 0; 0; 126; 0; 0; 0].

(** The positions at which the loop of [__tr_draw_line_2d] calls
    [TR_DrawPixel], in order. *)
Fixpoint line_points (fuel : nat) (x1 y1 x2 y2 dx dy sx sy err : Z)
  : option (list (Z * Z)) :=
  match fuel with
  | O => None
  | S fuel =>
      if (x1 =? x2) && (y1 =? y2) then Some [(x1, y1)] else
      let e2 := wrap32 (2 * err) in
      let '(err, x1') :=
        if wrap32 (- dy) <? e2 then (wrap32 (err - dy), wrap32 (x1 + sx))
        else (err, x1) in
      let '(err, y1') :=
        if e2 <? dx then (wrap32 (err + dx), wrap32 (y1 + sy))
        else (err, y1) in
      option_map (cons (x1, y1)) (line_points fuel x1' y1' x2 y2 dx dy sx sy err)
  end.

(** [c] lies between [a] and [b], in either order. *)
Definition between (a b c : Z) : Prop := a <= c <= b \/ b <= c <= a.

(** The step of a line from coordinate [a] to coordinate [b]. *)
Definition direction (a b : Z) : Z := if a <? b then 1 else -1.

(** A move to a neighbouring cell: by [sx] along the row, by [sy] along
    the column, or both. *)
Definition line_move (sx sy : Z) (p q : Z * Z) : Prop :=
  (fst q = fst p \/ fst q = fst p + sx) /\
  (snd q = snd p \/ snd q = snd p + sy) /\ q <> p.

(** Every element is related to its successor. *)
Fixpoint chain {A : Type} (R : A -> A -> Prop) (l : list A) : Prop :=
  match l with
  | a :: rest => match rest with b :: _ => R a b | [] => True end /\ chain R rest
  | [] => True
  end.

(** Coordinates for which the arithmetic of the line loop stays within
    [int]: at most [2^27] in absolute value. *)
Definition line_coordinate (c : Z) : Prop := -134217728 <= c <= 134217728.

(** The cell on which a vertex lands: the projected coordinates,
    truncated as the line calls of the wireframe do. *)
Definition projected_cell (s : Engine) (v : TR_Vector3) (mvp : TR_Matrix4x4)
  : Z * Z :=
  let pv := __tr_project_vertex (__tr_buffer_width s) (__tr_buffer_height s)
              v mvp in
  (F32.to_int (V3.x pv), F32.to_int (V3.y pv)).

Definition line_cell (p : Z * Z) : Prop :=
  line_coordinate (fst p) /\ line_coordinate (snd p).

Definition manhattan (p q : Z * Z) : Z :=
  Z.abs (fst q - fst p) + Z.abs (snd q - snd p).

(** A cell of the map. *)
Definition in_map (seg : Segment) : Prop :=
  0 <= Seg.x seg < MAP_WIDTH /\ 0 <= Seg.y seg < MAP_HEIGHT.

(** One step along a row or along a column. *)
Definition unit_direction (dx dy : Z) : Prop :=
  (dx = 0 /\ (dy = 1 \/ dy = -1)) \/ (dy = 0 /\ (dx = 1 \/ dx = -1)).

(** The invariant of a running game: the array has its declared size, the
    live segments lie in the map, and the entries behind them are still
    the zeros the array started with. *)
Record game_inv (g : Game) : Prop := mkGameInv {
  inv_array : Z.of_nat (length (snake g)) = MAX_SNAKE_LENGTH;
  inv_length : 1 <= snake_length g <= MAX_SNAKE_LENGTH;
  inv_direction : unit_direction (current_dx g) (current_dy g);
  inv_live : forall j seg, Z.of_nat j < snake_length g ->
             snake g !! j = Some seg -> in_map seg;
  inv_rest : forall j, snake_length g <= Z.of_nat j < MAX_SNAKE_LENGTH ->
             snake g !! j = Some (Seg.mk 0 0)
}.

(** The cell named by two numbers of the random stream. *)
Definition food_cell (p : Z * Z) : Segment :=
  Seg.mk (Z.rem (fst p) (MAP_WIDTH - 2) + 1) (Z.rem (snd p) (MAP_HEIGHT - 2) + 1).

(** The stream cut into the pairs the loop of [PlaceFoodRandomly] draws. *)
Fixpoint pairs (rands : list Z) : list (Z * Z) :=
  match rands with
  | r1 :: r2 :: rest => (r1, r2) :: pairs rest
  | _ => []
  end.

(** A live segment of the snake lies on the cell. *)
Definition occupied (g : Game) (c : Segment) : Prop :=
  exists j, Z.of_nat j < snake_length g /\ snake g !! j = Some c.

(** The snake after one move: the head advanced by the direction, every
    other live segment in the place of its predecessor, the rest of the
    array as it was. *)
Definition moved (g : Game) (dx dy : Z) (arr : list Segment) : Prop :=
  length arr = length (snake g) /\
  (exists h, snake g !! 0%nat = Some h /\
             arr !! 0%nat = Some (Seg.mk (Seg.x h + dx) (Seg.y h + dy))) /\
  (forall j, (1 <= j)%nat -> Z.of_nat j < snake_length g ->
             arr !! j = snake g !! (j - 1)%nat) /\
  (forall j, snake_length g <= Z.of_nat j -> arr !! j = snake g !! j).

(** The head of the moved snake left the map or ran into the body. *)
Definition crashed (g : Game) (arr : list Segment) : Prop :=
  exists h, arr !! 0%nat = Some h /\
    (~ in_map h \/
     exists j, (1 <= j)%nat /\ Z.of_nat j < snake_length g /\ arr !! j = Some h).

(** The head of the moved snake lies on the food. *)
Definition on_food (g : Game) (arr : list Segment) : bool :=
  match arr !! 0%nat with
  | Some h => same_cell h (Seg.x (food g)) (Seg.y (food g))
  | None => false
  end.

(** The state [UpdateGame] reaches before it places new food. *)
Definition after_move (g : Game) (dx dy : Z) (arr : list Segment)
    (hit : bool) : Game * bool :=
  let g1 := set_snake arr (set_direction dx dy g) in
  if hit then (set_game_over true g1, false)
  else if on_food g arr
  then (set_snake_length (Z.min (snake_length g + 1) MAX_SNAKE_LENGTH)
          (set_score (wrap32 (score g + 10)) g1), true)
  else (g1, false).

(** [UpdateGame] cannot place new food: the snake moves onto the food,
    and every cell the stream names lies under the grown snake. *)
Definition starved (g : Game) (rands : list Z) : Prop :=
  exists dx dy arr,
    moved g dx dy arr /\ on_food g arr = true /\
    Forall (fun p =>
              occupied (set_snake_length (Z.min (snake_length g + 1) MAX_SNAKE_LENGTH)
                          (set_score (wrap32 (score g + 10))
                             (set_snake arr (set_direction dx dy g))))
                       (food_cell p))
           (pairs rands).

(** A game in progress: a snake of three segments heading right, food
    just ahead of it. *)
Definition demo_game : Game :=
  mkGame (<[0%nat := Seg.mk 20 10]> (<[1%nat := Seg.mk 19 10]>
            (<[2%nat := Seg.mk 18 10]> (snake initial_game))))
         3 1 0 (Seg.mk 21 10) 20 false.

(** * Properties *)

(** ** Machine integers and the loop combinators *)

Lemma wrap32_range z : in_range (wrap32 z).
Proof.
  unfold in_range, wrap32, INT_MIN, INT_MAX.
  pose proof (Z.mod_pos_bound (z + 2147483648) 4294967296 eq_refl). lia.
Qed.

Lemma wrap32_id z : in_range z -> wrap32 z = z.
Proof.
  unfold in_range, wrap32, INT_MIN, INT_MAX. intros H.
  rewrite Z.mod_small by lia. lia.
Qed.

Lemma iterM_app {I S} (body : I -> S -> result S) (l1 l2 : list I) (s : S) :
  iterM body (l1 ++ l2) s = bind (iterM body l1 s) (iterM body l2).
Proof.
  revert s. induction l1 as [|i l1 IH]; intros s; simpl; [reflexivity|].
  destruct (body i s); simpl; auto.
Qed.

(** A loop whose every iteration leaves the state alone leaves it alone. *)
Lemma iterM_noop {I S} (body : I -> S -> result S) (l : list I) (s : S) :
  (forall i, i ∈ l -> body i s = Ok s) -> iterM body l s = Ok s.
Proof.
  induction l as [|i l IH]; intros H; simpl; [reflexivity|].
  rewrite H by (left; reflexivity). simpl. apply IH.
  intros k Hk. apply H. now right.
Qed.


(** A nested loop is one loop over the pairs, inner index first. *)
Lemma iterM_nested {I J S} (f : I -> J -> S -> result S) (lj : list J)
    (li : list I) (s : S) :
  iterM (fun j => iterM (fun i => f i j) li) lj s =
  iterM (fun p => f (fst p) (snd p))
        (flat_map (fun j => map (fun i => (i, j)) li) lj) s.
Proof.
  revert s. induction lj as [|j lj IH]; intros s; simpl; [reflexivity|].
  rewrite iterM_app.
  assert (E : forall t, iterM (fun i => f i j) li t =
            iterM (fun p => f (fst p) (snd p)) (map (fun i => (i, j)) li) t).
  { clear. induction li as [|i li IH]; intros t; simpl; [reflexivity|].
    destruct (f i j t); simpl; auto. }
  rewrite E. destruct (iterM _ (map _ li) s); simpl; auto.
Qed.

(** ** Colour mapper *)

Lemma dist_nonneg c t : 0 <= dist c t.
Proof.
  unfold dist.
  pose proof (Z.square_nonneg (r c - r t)).
  pose proof (Z.square_nonneg (g c - g t)).
  pose proof (Z.square_nonneg (b c - b t)). lia.
Qed.

Lemma map_color_scan_app c acc i l1 l2 :
  map_color_scan c acc i (l1 ++ l2) =
  map_color_scan c (map_color_scan c acc i l1) (i + Z.of_nat (length l1)) l2.
Proof.
  revert acc i. induction l1 as [|t l1 IH]; intros acc i; simpl.
  - f_equal. lia.
  - rewrite IH. f_equal. lia.
Qed.

Lemma map_color_scan_first_min c t0 pre :
  first_min c (t0 :: pre) (map_color_scan c (-1, 0) 0 (t0 :: pre)).
Proof.
  induction pre as [|t pre IH] using rev_ind.
  - simpl. exists t0. simpl. repeat split; auto; try lia.
    intros [|j] u Hu; simpl in Hu; [|discriminate]. injection Hu as <-. lia.
  - rewrite app_comm_cons, map_color_scan_app.
    destruct (map_color_scan c (-1, 0) 0 (t0 :: pre)) as [md bm].
    destruct IH as (tb & Hb & Hbm & Hmd & Hle & Hlt).
    cbn [fst snd] in Hb, Hbm, Hmd, Hlt.
    assert (Hlen : (Z.to_nat bm < length (t0 :: pre))%nat)
      by (eapply lookup_lt_Some; eauto).
    cbn [map_color_scan]. unfold map_color_step. pose proof (dist_nonneg c tb) as Hnn.
    destruct (md =? -1) eqn:E1; [lia|]. simpl orb.
    set (n := length (t0 :: pre)) in *.
    destruct (dist c t <? md) eqn:E2.
    + apply Z.ltb_lt in E2. exists t. cbn [fst snd].
      replace (Z.to_nat (0 + Z.of_nat n)) with n by lia.
      split; [|split; [lia|split; [reflexivity|split]]].
      * rewrite lookup_app_r by (unfold n; lia).
        replace (n - length (t0 :: pre))%nat with 0%nat by (unfold n; lia).
        reflexivity.
      * intros j u Hu. destruct (decide (j < n)%nat) as [Hj|Hj].
        -- rewrite lookup_app_l in Hu by exact Hj. specialize (Hle _ _ Hu). lia.
        -- rewrite lookup_app_r in Hu by (unfold n in *; lia).
           destruct (j - length (t0 :: pre))%nat; simpl in Hu; [|discriminate].
           injection Hu as <-. lia.
      * intros j u Hj Hu. rewrite lookup_app_l in Hu by exact Hj.
        specialize (Hle _ _ Hu). lia.
    + apply Z.ltb_ge in E2. exists tb. cbn [fst snd].
      split; [|split; [lia|split; [exact Hmd|split]]].
      * rewrite lookup_app_l by exact Hlen. exact Hb.
      * intros j u Hu. destruct (decide (j < n)%nat) as [Hj|Hj].
        -- rewrite lookup_app_l in Hu by exact Hj. eauto.
        -- rewrite lookup_app_r in Hu by (unfold n in *; lia).
           destruct (j - length (t0 :: pre))%nat; simpl in Hu; [|discriminate].
           injection Hu as <-. lia.
      * intros j u Hj Hu.
        rewrite lookup_app_l in Hu by (unfold n in *; lia). eauto.
Qed.

(** C3. For every colour, [__tr_map_color_to_terminal] returns an index in
    [0,8) of a canonical colour at least squared RGB distance, the lowest
    such index; the result does not depend on alpha or on the background
    flag; and each canonical colour maps to its own index. *)
Theorem map_color_nearest_lowest_index (c : Color) (flag : bool) :
  let i := __tr_map_color_to_terminal c flag in
  0 <= i < 8 /\
  (exists t, terminal_colors !! Z.to_nat i = Some t /\
     (forall j u, terminal_colors !! j = Some u -> dist c t <= dist c u) /\
     (forall j u, (j < Z.to_nat i)%nat -> terminal_colors !! j = Some u ->
                  dist c t < dist c u)) /\
  (forall c' flag', r c' = r c -> g c' = g c -> b c' = b c ->
     __tr_map_color_to_terminal c' flag' = i) /\
  (forall k t, terminal_colors !! k = Some t ->
     __tr_map_color_to_terminal t flag = Z.of_nat k).
Proof.
  intros i.
  pose proof (map_color_scan_first_min c (mkColor 0 0 0 255)
                (tl terminal_colors)) as (t & Ht & H0 & _ & Hle & Hlt).
  change (mkColor 0 0 0 255 :: tl terminal_colors) with terminal_colors in *.
  fold (__tr_map_color_to_terminal c flag) in Ht, H0, Hlt. fold i in Ht, H0, Hlt.
  split; [|split; [|split]].
  - apply lookup_lt_Some in Ht. simpl in Ht. lia.
  - exists t. auto.
  - intros c' flag' Hr Hg Hb. unfold i, __tr_map_color_to_terminal.
    unfold terminal_colors, map_color_scan, map_color_step, dist.
    rewrite Hr, Hg, Hb. reflexivity.
  - intros k u Hk.
    do 8 (destruct k as [|k]; [injection Hk as <-; reflexivity|]).
    discriminate.
Qed.

(** ** Buffers *)

Lemma load_Ok {A} (i : Z) (buf : list A) (c : A) :
  load i buf = Ok c <-> 0 <= i /\ buf !! Z.to_nat i = Some c.
Proof.
  unfold load. destruct (0 <=? i) eqn:E0; simpl.
  - apply Z.leb_le in E0. destruct (i <? Z.of_nat (length buf)) eqn:E1.
    + destruct (buf !! Z.to_nat i) eqn:E; split.
      * intros [= <-]. auto.
      * intros [_ [= <-]]. reflexivity.
      * discriminate.
      * intros [_ ?]. discriminate.
    + apply Z.ltb_ge in E1. split; [discriminate|]. intros [_ H].
      apply lookup_lt_Some in H. lia.
  - apply Z.leb_gt in E0. split; [discriminate|]. lia.
Qed.

Lemma load_lookup {A} (i : Z) (buf : list A) :
  0 <= i < Z.of_nat (length buf) ->
  exists c, load i buf = Ok c /\ buf !! Z.to_nat i = Some c.
Proof.
  intros H. destruct (lookup_lt_is_Some_2 buf (Z.to_nat i)) as [c Hc]; [lia|].
  exists c. split; [|exact Hc]. apply load_Ok. split; [lia|exact Hc].
Qed.

Lemma store_Ok {A} (i : Z) (c : A) (buf : list A) :
  0 <= i < Z.of_nat (length buf) ->
  store i c buf = Ok (<[Z.to_nat i := c]> buf).
Proof.
  intros H. unfold store.
  destruct (0 <=? i) eqn:E0; [|apply Z.leb_gt in E0; lia].
  destruct (i <? Z.of_nat (length buf)) eqn:E1; [|apply Z.ltb_ge in E1; lia].
  reflexivity.
Qed.

(** The filling loop overwrites the first [n] elements. *)
Lemma fill_cells_prefix {A} (n : nat) (c : A) (buf : list A) :
  (n <= length buf)%nat ->
  fill_cells (Z.of_nat n) c buf = Ok (replicate n c ++ drop n buf).
Proof.
  unfold fill_cells, for_range. rewrite Z.sub_0_r.
  induction n as [|n IH]; intros Hn.
  - rewrite seqZ_nil by lia. simpl. now rewrite drop_0.
  - rewrite seqZ_S, iterM_app, IH by lia. simpl.
    rewrite store_Ok by (rewrite length_app, length_replicate, length_drop; lia).
    cbn [bind]. f_equal. replace (Z.to_nat (0 + Z.of_nat n)) with n by lia.
    rewrite insert_app_r_alt by (rewrite length_replicate; lia).
    rewrite length_replicate, Nat.sub_diag.
    destruct (drop n buf) as [|d rest] eqn:E.
    { apply (f_equal length) in E. rewrite length_drop in E. simpl in E. lia. }
    replace (drop (S n) buf) with rest.
    + cbn [insert list_insert]. rewrite app_comm_cons, replicate_cons_app.
      rewrite <- app_assoc. reflexivity.
    + replace (S n) with (n + 1)%nat by lia. rewrite <- drop_drop, E.
      reflexivity.
Qed.

Lemma fill_cells_all {A} (n : Z) (c : A) (buf : list A) :
  Z.of_nat (length buf) = n ->
  fill_cells n c buf = Ok (replicate (length buf) c).
Proof.
  intros <-. rewrite fill_cells_prefix by lia.
  rewrite drop_all, app_nil_r. reflexivity.
Qed.

(** ** Sessions *)

Lemma wf_area_wrap s :
  wf s ->
  wrap32 (__tr_buffer_width s * __tr_buffer_height s) =
  __tr_buffer_width s * __tr_buffer_height s.
Proof.
  intros [_ Hw Hh Ha _ _ _ _]. apply wrap32_id.
  unfold in_range, INT_MIN, INT_MAX in *. nia.
Qed.

(** Inside the bounds the cell index is [y * width + x], within the buffers. *)
Lemma cell_index_in_bounds s x y :
  wf s -> in_bounds s x y = true ->
  cell_index s x y = y * __tr_buffer_width s + x /\
  0 <= cell_index s x y < __tr_buffer_width s * __tr_buffer_height s.
Proof.
  intros [_ Hw Hh Ha _ _ _ _] Hb. unfold in_bounds in Hb.
  apply andb_prop in Hb as [Hb Hy2]. apply andb_prop in Hb as [Hb Hy1].
  apply andb_prop in Hb as [Hx1 Hx2].
  apply Z.leb_le in Hx1, Hy1. apply Z.ltb_lt in Hx2, Hy2.
  unfold cell_index.
  assert (0 <= y * __tr_buffer_width s + x <
          __tr_buffer_width s * __tr_buffer_height s) by nia.
  rewrite (wrap32_id (y * _)) by (unfold in_range, INT_MIN, INT_MAX in *; nia).
  rewrite wrap32_id by (unfold in_range, INT_MIN, INT_MAX in *; nia).
  auto.
Qed.

Lemma demo_session_wf : wf demo_session.
Proof. split; simpl; unfold INT_MAX; try reflexivity; lia. Qed.

(** ** Input *)





(** ** Opening a window *)

(** C9. [TR_InitWindow] ignores its [width] and [height]: any two requests
    give the same outcome, and when the window opens the buffer dimensions,
    the dimensions kept for the resize check and the clipping bounds of
    the drawing calls are those the terminal reported. *)
Theorem init_window_ignores_requested_size
    (width height width' height' : Z) (title : string) (t : Terminal)
    (h : Heap) (sigaction_ok : bool) (s s' : Engine) :
  __tr_window_open s = false ->
  TR_InitWindow width height title t h sigaction_ok s = Ok s' ->
  TR_InitWindow width' height' title t h sigaction_ok s = Ok s' /\
  __tr_buffer_width s' = TR_GetScreenWidth t /\
  __tr_buffer_height s' = TR_GetScreenHeight t /\
  __tr_initial_width s' = TR_GetScreenWidth t /\
  __tr_initial_height s' = TR_GetScreenHeight t /\
  (forall x y,
     in_bounds s' x y =
     (0 <=? x) && (x <? TR_GetScreenWidth t) &&
     (0 <=? y) && (y <? TR_GetScreenHeight t)).
Proof.
  intros Hclosed Hinit. split; [exact Hinit|].
  unfold TR_InitWindow in Hinit. rewrite Hclosed in Hinit.
  destruct ((TR_GetScreenWidth t =? 0) || (TR_GetScreenHeight t =? 0));
    [discriminate|].
  destruct (alloc_cells h _) as [screen|]; [|discriminate].
  destruct (alloc_floats h _) as [zbuf|]; [|discriminate].
  destruct (fill_cells _ _ screen) as [filled| |]; try discriminate.
  simpl in Hinit. injection Hinit as <-. unfold in_bounds. simpl. auto.
Qed.

Lemma init_window_ignores_requested_size_witness :
  TR_InitWindow 1 1 "demo" demo_terminal demo_heap true initial_engine =
    Ok demo_session /\
  __tr_buffer_width demo_session = TR_GetScreenWidth demo_terminal /\
  __tr_buffer_height demo_session = TR_GetScreenHeight demo_terminal /\
  __tr_initial_width demo_session = TR_GetScreenWidth demo_terminal /\
  __tr_initial_height demo_session = TR_GetScreenHeight demo_terminal /\
  (forall x y,
     in_bounds demo_session x y =
     (0 <=? x) && (x <? TR_GetScreenWidth demo_terminal) &&
     (0 <=? y) && (y <? TR_GetScreenHeight demo_terminal)).
Proof.
  apply (init_window_ignores_requested_size 80 25 1 1 "demo" demo_terminal
           demo_heap true initial_engine demo_session); reflexivity.
Defined.

(** An opened window satisfies the session invariant. *)
Lemma init_window_wf width height title t h sigaction_ok s s' :
  __tr_window_open s = false ->
  honest h ->
  0 <= TR_GetScreenWidth t -> 0 <= TR_GetScreenHeight t ->
  TR_GetScreenWidth t * TR_GetScreenHeight t <= INT_MAX ->
  TR_InitWindow width height title t h sigaction_ok s = Ok s' ->
  wf s'.
Proof.
  intros Hclosed [Hc Hf] Hw Hh Ha Hinit.
  unfold TR_InitWindow in Hinit. rewrite Hclosed in Hinit.
  set (bw := TR_GetScreenWidth t) in *. set (bh := TR_GetScreenHeight t) in *.
  destruct ((bw =? 0) || (bh =? 0)) eqn:E0; [discriminate|].
  apply orb_false_elim in E0 as [E1 E2]. apply Z.eqb_neq in E1, E2.
  assert (Hwrap : wrap32 (bw * bh) = bw * bh)
    by (apply wrap32_id; unfold in_range, INT_MIN, INT_MAX in *; nia).
  rewrite Hwrap in Hinit.
  destruct (alloc_cells h (bw * bh)) as [screen|] eqn:Es; [|discriminate].
  destruct (alloc_floats h (bw * bh)) as [zbuf|] eqn:Ez; [|discriminate].
  apply Hc in Es; [|nia]. apply Hf in Ez; [|nia].
  rewrite (fill_cells_all _ _ screen Es) in Hinit. cbn [bind] in Hinit.
  injection Hinit as <-.
  split; cbn [__tr_window_open __tr_buffer_width __tr_buffer_height
              __tr_screen_buffer __tr_prev_screen_buffer __tr_z_buffer
              __tr_z_buffer_size];
    rewrite ?length_replicate; auto; lia.
Qed.

(** The end-to-end scenario of the specification: exactly the 9 cells of
    the square are written, each with the bright red foreground and
    background codes. *)
Lemma red_square_frame_writes_nine_cells :
  exists s',
    red_square_frame = Ok s' /\
    glyph_count (out s') = 9%nat /\
    written_positions (out s') = rect_positions 2 2 3 3 /\
    List.filter (fun e => match e with EvSgr _ _ => true | _ => false end)
                (skipn 8 (out s')) = replicate 9 (EvSgr 91 101).
Proof.
  exists (match red_square_frame with Ok s' => s' | _ => initial_engine end).
  vm_compute. repeat split.
Qed.

(** ** Alpha *)

Lemma colors_equal_same_rgb c1 c2 :
  __tr_colors_equal c1 c2 = true <-> same_rgb c1 c2.
Proof.
  unfold __tr_colors_equal, same_rgb.
  rewrite !andb_true_iff, !Z.eqb_eq. tauto.
Qed.


Lemma cell_unchanged_same_rgb cur prev :
  character cur = character prev ->
  same_rgb (fg_color cur) (fg_color prev) ->
  same_rgb (bg_color cur) (bg_color prev) ->
  cell_changed cur prev = false.
Proof.
  intros Hc Hf Hb. unfold cell_changed.
  apply colors_equal_same_rgb in Hf, Hb. rewrite Hc, Hf, Hb.
  rewrite (proj2 (Ascii.eqb_eq _ _) eq_refl). reflexivity.
Qed.



(** ** Clipping *)

Lemma c_strlen_nonneg text : 0 <= c_strlen text.
Proof.
  induction text as [|ch rest IH]; simpl; [lia|].
  destruct (Ascii.eqb ch zero); lia.
Qed.

Lemma draw_text_loop_outside txt i x y fg bg s :
  (forall k, 0 <= k < c_strlen txt -> in_bounds s (wrap32 (x + (i + k))) y = false) ->
  0 <= y < __tr_buffer_height s ->
  draw_text_loop txt i x y fg bg s = Ok s.
Proof.
  intros H Hy. revert i H. induction txt as [|ch rest IH]; intros i H; simpl.
  - reflexivity.
  - simpl in H. destruct (Ascii.eqb ch zero); [reflexivity|].
    pose proof (c_strlen_nonneg rest) as Hn.
    specialize (H 0 ltac:(lia)) as H0. rewrite Z.add_0_r in H0.
    unfold in_bounds in H0.
    rewrite (proj2 (Z.leb_le 0 y)), (proj2 (Z.ltb_lt y _)), !andb_true_r in H0
      by lia.
    rewrite H0. cbn [bind].
    apply IH. intros k Hk. replace (i + 1 + k) with (i + (1 + k)) by lia.
    apply H. lia.
Qed.

Lemma draw_border_cell_outside cx cy fg bg s :
  in_bounds s cx cy = false -> draw_border_cell cx cy fg bg s = Ok s.
Proof. intros H. unfold draw_border_cell. now rewrite H. Qed.

(** C4. A drawing call none of whose addressed cells lies inside
    [[0,width) x [0,height)] returns normally and leaves the whole engine
    state, frame buffer included, as it was. *)
Theorem draw_outside_is_noop (c : DrawCall) (s : Engine) :
  Forall (fun p => in_bounds s (fst p) (snd p) = false) (addressed c) ->
  run_call c s = Ok s.
Proof.
  intros H. rewrite Forall_forall in H. destruct c as
    [x y color | [txt|] x y fs fg bg | x y w h fg bg | x y w h fg bg];
    cbn [run_call addressed] in *.
  - specialize (H (x, y) ltac:(left)). cbn [fst snd] in H.
    unfold TR_DrawPixel. destruct (__tr_window_open s); [|reflexivity].
    cbn [negb orb]. unfold in_bounds in H.
    destruct (x <? 0) eqn:E1; [reflexivity|].
    destruct (__tr_buffer_width s <=? x) eqn:E2; [reflexivity|].
    destruct (y <? 0) eqn:E3; [reflexivity|].
    destruct (__tr_buffer_height s <=? y) eqn:E4; [reflexivity|].
    apply Z.ltb_ge in E1, E3. apply Z.leb_gt in E2, E4.
    apply Z.leb_le in E1, E3. apply Z.ltb_lt in E2, E4.
    rewrite E1, E2, E3, E4 in H. discriminate.
  - unfold TR_DrawText. destruct (__tr_window_open s); [|reflexivity].
    cbn [negb orb]. destruct (y <? 0) eqn:E3; [reflexivity|].
    destruct (__tr_buffer_height s <=? y) eqn:E4; [reflexivity|].
    apply Z.ltb_ge in E3. apply Z.leb_gt in E4.
    apply draw_text_loop_outside; [|lia].
    intros k Hk. rewrite Z.add_0_l.
    apply (H (wrap32 (x + k), y)).
    apply list_elem_of_fmap. exists k. split; [reflexivity|].
    apply elem_of_seqZ. lia.
  - reflexivity.
  - unfold TR_DrawRectangle. destruct (__tr_window_open s); [|reflexivity].
    cbn [negb]. unfold for_range. rewrite !Z.sub_0_r.
    set (fb := final_bg_color bg s).
    rewrite (iterM_nested (fun i j t =>
               if in_bounds t (wrap32 (x + i)) (wrap32 (y + j))
               then write_cell (cell_index t (wrap32 (x + i)) (wrap32 (y + j)))
                      (mkCell space fg fb) t
               else Ok t)).
    apply iterM_noop. intros [i j] Hij. cbn [fst snd].
    assert (Hin : (wrap32 (x + i), wrap32 (y + j)) ∈ rect_positions x y w h).
    { unfold rect_positions. apply list_elem_of_In, in_flat_map.
      apply list_elem_of_In, in_flat_map in Hij as (j' & Hj' & Hi').
      apply in_map_iff in Hi' as (i' & [= <- <-] & Hi').
      exists j'. split; [exact Hj'|]. apply in_map_iff. exists i'. auto. }
    pose proof (H _ Hin) as Hb. cbn [fst snd] in Hb. rewrite Hb. reflexivity.
  - unfold TR_DrawRectangleLines. destruct (__tr_window_open s); [|reflexivity].
    cbn [negb]. unfold for_range. rewrite Z.sub_0_r.
    rewrite iterM_noop.
    + cbn [bind]. apply iterM_noop. intros j Hj.
      rewrite draw_border_cell_outside; [cbn [bind]|];
        [apply draw_border_cell_outside|].
      * apply (H (_, _)). apply elem_of_app. right.
        apply list_elem_of_In, in_flat_map. exists j.
        split; [apply list_elem_of_In, Hj|right; left; reflexivity].
      * apply (H (_, _)). apply elem_of_app. right.
        apply list_elem_of_In, in_flat_map. exists j.
        split; [apply list_elem_of_In, Hj|left; reflexivity].
    + intros i Hi.
      rewrite draw_border_cell_outside; [cbn [bind]|];
        [apply draw_border_cell_outside|].
      * apply (H (_, _)). apply elem_of_app. left.
        apply list_elem_of_In, in_flat_map. exists i.
        split; [apply list_elem_of_In, Hi|right; left; reflexivity].
      * apply (H (_, _)). apply elem_of_app. left.
        apply list_elem_of_In, in_flat_map. exists i.
        split; [apply list_elem_of_In, Hi|left; reflexivity].
Qed.

Lemma draw_outside_is_noop_witness :
  run_call (CallRectangle (-5) 7 3 2 RED BLUE) demo_session = Ok demo_session.
Proof.
  apply (draw_outside_is_noop (CallRectangle (-5) 7 3 2 RED BLUE) demo_session).
  repeat constructor.
Defined.

(** ** Rectangles *)

Lemma iterM_nested_map {I J K S} (g : I -> J -> K) (f : K -> S -> result S)
    (lj : list J) (li : list I) (s : S) :
  iterM (fun j => iterM (fun i => f (g i j)) li) lj s =
  iterM f (flat_map (fun j => map (fun i => g i j) li) lj) s.
Proof.
  revert s. induction lj as [|j lj IH]; intros s; simpl; [reflexivity|].
  rewrite iterM_app.
  assert (E : forall t, iterM (fun i => f (g i j)) li t =
                        iterM f (map (fun i => g i j) li) t).
  { clear. induction li as [|i li IH]; intros t; simpl; [reflexivity|].
    destruct (f (g i j) t); simpl; auto. }
  rewrite E. destruct (iterM f (map _ li) s); simpl; auto.
Qed.

Lemma set_screen_buffer_wf s buf :
  wf s -> length buf = length (__tr_screen_buffer s) ->
  wf (set_screen_buffer buf s).
Proof.
  intros [H1 H2 H3 H4 H5 H6 H7 H8] Hl.
  split; cbn [set_screen_buffer __tr_window_open __tr_buffer_width
              __tr_buffer_height __tr_screen_buffer __tr_prev_screen_buffer
              __tr_z_buffer __tr_z_buffer_size]; auto.
  now rewrite Hl.
Qed.

(** Within the bounds two positions share an index only when equal. *)
Lemma cell_index_inj s x y x' y' :
  wf s -> in_bounds s x y = true -> in_bounds s x' y' = true ->
  cell_index s x y = cell_index s x' y' -> x = x' /\ y = y'.
Proof.
  intros Hwf Hb Hb' E.
  destruct (cell_index_in_bounds s x y Hwf Hb) as [E1 _].
  destruct (cell_index_in_bounds s x' y' Hwf Hb') as [E2 _].
  rewrite E1, E2 in E. unfold in_bounds in Hb, Hb'.
  rewrite !andb_true_iff, !Z.leb_le, !Z.ltb_lt in Hb, Hb'.
  assert (y = y') by nia. subst y'. split; [lia|reflexivity].
Qed.

Lemma put_cell_spec c p s :
  wf s ->
  exists s',
    put_cell c p s = Ok s' /\ wf s' /\
    __tr_buffer_width s' = __tr_buffer_width s /\
    __tr_buffer_height s' = __tr_buffer_height s /\
    (forall cx cy, in_bounds s cx cy = true ->
       cell_at s' cx cy = if decide ((cx, cy) = p) then Some c else cell_at s cx cy).
Proof.
  intros Hwf. destruct p as [px py]. unfold put_cell. cbn [fst snd].
  destruct (in_bounds s px py) eqn:Hb.
  - destruct (cell_index_in_bounds s px py Hwf Hb) as [Ei Hr].
    unfold write_cell. rewrite store_Ok by (rewrite (wf_screen s Hwf); exact Hr).
    cbn [bind]. eexists. split; [reflexivity|].
    split; [apply set_screen_buffer_wf; [exact Hwf|apply length_insert]|].
    split; [reflexivity|]. split; [reflexivity|].
    intros cx cy Hc. unfold cell_at.
    change (cell_index (set_screen_buffer ?b s) cx cy) with (cell_index s cx cy).
    cbn [set_screen_buffer __tr_screen_buffer].
    destruct (cell_index_in_bounds s cx cy Hwf Hc) as [_ Hr'].
    destruct (decide ((cx, cy) = (px, py))) as [[= -> ->]|Hne].
    + apply list_lookup_insert_eq. rewrite <- (wf_screen s Hwf) in Hr. lia.
    + apply list_lookup_insert_ne. intros E. apply Hne.
      assert (cell_index s px py = cell_index s cx cy) as E' by lia.
      destruct (cell_index_inj s px py cx cy Hwf Hb Hc E') as [-> ->].
      reflexivity.
  - exists s. split; [reflexivity|]. split; [exact Hwf|].
    split; [reflexivity|]. split; [reflexivity|].
    intros cx cy Hc. destruct (decide ((cx, cy) = (px, py))) as [[= -> ->]|Hne];
      [congruence|reflexivity].
Qed.

(** After a run of bounds-checked writes of one cell value, the in-bounds
    cells of the list hold it and the others are untouched. *)
Lemma iterM_put_cell_spec c ps s :
  wf s ->
  exists s',
    iterM (put_cell c) ps s = Ok s' /\ wf s' /\
    (forall cx cy, in_bounds s cx cy = true ->
       cell_at s' cx cy = if decide ((cx, cy) ∈ ps) then Some c else cell_at s cx cy).
Proof.
  revert s. induction ps as [|p ps IH]; intros s Hwf.
  - exists s. split; [reflexivity|]. split; [exact Hwf|].
    intros cx cy _. destruct (decide _) as [H|_]; [|reflexivity].
    now apply elem_of_nil in H.
  - destruct (put_cell_spec c p s Hwf) as (s1 & E1 & Hwf1 & Hw & Hh & Hc1).
    destruct (IH s1 Hwf1) as (s' & E' & Hwf' & Hc').
    exists s'. cbn [iterM]. rewrite E1. cbn [bind].
    split; [exact E'|]. split; [exact Hwf'|].
    intros cx cy Hb.
    assert (Hb1 : in_bounds s1 cx cy = true)
      by (unfold in_bounds in *; now rewrite Hw, Hh).
    rewrite (Hc' cx cy Hb1), (Hc1 cx cy Hb).
    destruct (decide ((cx, cy) ∈ ps)) as [Hin|Hnin].
    + rewrite decide_True by (now right). reflexivity.
    + destruct (decide ((cx, cy) = p)) as [->|Hne].
      * rewrite decide_True by (now left). reflexivity.
      * rewrite decide_False; [reflexivity|].
        intros [?|?]%elem_of_cons; contradiction.
Qed.


Lemma draw_rectangle_put_cells x y w h fg bg s :
  __tr_window_open s = true ->
  TR_DrawRectangle x y w h fg bg s =
  iterM (put_cell (mkCell space fg (final_bg_color bg s)))
        (rect_positions x y w h) s.
Proof.
  intros Ho. unfold TR_DrawRectangle, for_range, rect_positions.
  rewrite Ho, !Z.sub_0_r. cbn [negb].
  exact (iterM_nested_map (fun i j => (wrap32 (x + i), wrap32 (y + j)))
           (put_cell (mkCell space fg (final_bg_color bg s)))
           (seqZ 0 h) (seqZ 0 w) s).
Qed.

Lemma put_cell_is_draw_pixel color p s :
  __tr_window_open s = true ->
  put_cell (mkCell space color color) p s =
  TR_DrawPixel (fst p) (snd p) color s.
Proof.
  intros Ho. unfold put_cell, TR_DrawPixel, in_bounds. rewrite Ho. cbn [negb orb].
  destruct (fst p <? 0) eqn:E1, (__tr_buffer_width s <=? fst p) eqn:E2,
           (snd p <? 0) eqn:E3, (__tr_buffer_height s <=? snd p) eqn:E4;
    rewrite ?Z.ltb_lt, ?Z.ltb_ge, ?Z.leb_le, ?Z.leb_gt in *;
    repeat match goal with
    | |- context [?a <=? ?b] =>
        first [rewrite (proj2 (Z.leb_le a b)) by lia
              |rewrite (proj2 (Z.leb_gt a b)) by lia]
    | |- context [?a <? ?b] =>
        first [rewrite (proj2 (Z.ltb_lt a b)) by lia
              |rewrite (proj2 (Z.ltb_ge a b)) by lia]
    end; cbn [andb orb]; try reflexivity; rewrite ?andb_false_r; reflexivity.
Qed.




(** ** The differ *)

Lemma emit_emit e1 e2 s : emit e2 (emit e1 s) = emit (e1 ++ e2) s.
Proof. unfold emit. simpl. now rewrite app_assoc. Qed.

Lemma emit_nil s : emit [] s = s.
Proof. destruct s. unfold emit. simpl. now rewrite app_nil_r. Qed.

Lemma pace_frame_emit now s : pace_frame now s = emit (pace_events now s) s.
Proof.
  unfold pace_frame, pace_events. destruct (0 <? __tr_frame_time_us s);
    [destruct (_ <? _)|]; now rewrite ?emit_nil.
Qed.


Lemma in_positions_row_major bw bh x y :
  (x, y) ∈ positions_row_major bw bh <-> 0 <= x < bw /\ 0 <= y < bh.
Proof.
  unfold positions_row_major. rewrite list_elem_of_In, in_flat_map. split.
  - intros (y' & Hy & Hx). apply in_map_iff in Hx as (x' & [= -> ->] & Hx).
    apply list_elem_of_In, elem_of_seqZ in Hy, Hx. lia.
  - intros [Hx Hy]. exists y. split.
    + apply list_elem_of_In, elem_of_seqZ. lia.
    + apply in_map_iff. exists x. split; [reflexivity|].
      apply list_elem_of_In, elem_of_seqZ. lia.
Qed.

Lemma NoDup_positions_row_major bw bh : NoDup (positions_row_major bw bh).
Proof.
  unfold positions_row_major.
  generalize (NoDup_seqZ 0 bh). generalize (seqZ 0 bh) as ys.
  induction ys as [|y ys IH]; intros Hnd; simpl; [constructor|].
  apply NoDup_cons in Hnd as [Hy Hnd]. apply NoDup_app. split; [|split].
  - apply NoDup_fmap_2; [|apply NoDup_seqZ]. intros a b [= ->]. reflexivity.
  - intros [x' y'] H1 H2. apply list_elem_of_fmap in H1 as (x & [= -> ->] & _).
    apply list_elem_of_In, in_flat_map in H2 as (y2 & Hy2 & H2).
    apply in_map_iff in H2 as (x2 & [= -> ->] & _).
    apply Hy, list_elem_of_In, Hy2.
  - apply IH, Hnd.
Qed.

Lemma in_bounds_iff s x y :
  in_bounds s x y = true <->
  0 <= x < __tr_buffer_width s /\ 0 <= y < __tr_buffer_height s.
Proof.
  unfold in_bounds. rewrite !andb_true_iff, !Z.leb_le, !Z.ltb_lt. tauto.
Qed.

(** One step of the scan: only the trace grows, by the write of the cell
    when it changed. *)
Lemma flush_cell_spec s evs x y :
  wf s -> in_bounds s x y = true ->
  flush_cell y x (emit evs s) =
  Ok (emit (evs ++ if changed_at s (x, y) then write_events s (x, y) else []) s).
Proof.
  intros Hwf Hb. destruct (cell_index_in_bounds s x y Hwf Hb) as [_ Hr].
  unfold flush_cell. cbn [emit __tr_buffer_width __tr_screen_buffer
                          __tr_prev_screen_buffer].
  fold (cell_index s x y).
  destruct (load_lookup (cell_index s x y) (__tr_screen_buffer s))
    as (c & Ec & Lc); [rewrite (wf_screen s Hwf); exact Hr|].
  destruct (load_lookup (cell_index s x y) (__tr_prev_screen_buffer s))
    as (q & Eq & Lq); [rewrite (wf_prev s Hwf); exact Hr|].
  rewrite Ec, Eq. cbn [bind].
  unfold changed_at, write_events, cell_at, prev_cell_at. cbn [fst snd].
  rewrite Lc, Lq. destruct (cell_changed c q).
  - fold (emit evs s). now rewrite emit_emit.
  - fold (emit evs s). now rewrite app_nil_r.
Qed.

Lemma flush_scan_spec s ps evs :
  wf s ->
  (forall p, p ∈ ps -> in_bounds s (fst p) (snd p) = true) ->
  iterM (fun p => flush_cell (snd p) (fst p)) ps (emit evs s) =
  Ok (emit (evs ++ flat_map (write_events s)
                     (filter (fun p => changed_at s p = true) ps)) s).
Proof.
  intros Hwf. revert evs. induction ps as [|[x y] ps IH]; intros evs Hb.
  - simpl. now rewrite app_nil_r.
  - cbn [iterM fst snd]. rewrite flush_cell_spec; [|exact Hwf|].
    2:{ apply (Hb (x, y)). now left. }
    cbn [bind]. rewrite IH by (intros p Hp; apply Hb; now right).
    f_equal. f_equal. rewrite <- app_assoc. f_equal.
    rewrite filter_cons. destruct (changed_at s (x, y)) eqn:E.
    + rewrite decide_True by reflexivity. reflexivity.
    + rewrite decide_False by discriminate. reflexivity.
Qed.







(** ** Single-precision arithmetic *)

(** The comparison [w == 0.0f] holds exactly for the two zeros. *)
Lemma eqb_zero_is_zero w : F32.eqb w F32.zero = is_zero w.
Proof. destruct w as [s|s| |s m e]; try destruct s; reflexivity. Qed.

(** Rounding the exact product of a valid mantissa by [2^23], at an
    exponent 23 lower, gives the number back. *)
Lemma round_shifted_mantissa s m e :
  F32.valid (S754_finite s m e) = true ->
  binary_round_aux F32.prec F32.emax s
    (Z.pos (m~0~0~0~0~0~0~0~0~0~0~0~0~0~0~0~0~0~0~0~0~0~0~0)) (e + -23) loc_Exact
  = S754_finite s m e.
Proof.
  intros Hv.
  unfold F32.valid, valid_binary, bounded, canonical_mantissa in Hv.
  apply andb_prop in Hv as [Hc Hb]. apply Z.eqb_eq in Hc.
  unfold binary_round_aux, shr_fexp.
  assert (Hd : Zdigits2 (Z.pos (m~0~0~0~0~0~0~0~0~0~0~0~0~0~0~0~0~0~0~0~0~0~0~0))
               = Z.pos (digits2_pos m) + 23).
  { cbn [Zdigits2 digits2_pos]. rewrite !Pos2Z.inj_succ. lia. }
  rewrite Hd.
  replace (Z.pos (digits2_pos m) + 23 + (e + -23))
    with (Z.pos (digits2_pos m) + e) by lia.
  rewrite Hc. replace (e - (e + -23)) with 23 by lia.
  cbn [shr shr_record_of_loc].
  change (SpecFloat.iter_pos shr_1 23 _)
    with {| shr_m := Z.pos m; shr_r := false; shr_s := false |}.
  cbn [shr_m loc_of_shr_record round_nearest_even Zdigits2].
  replace (e + -23 + 23) with e by lia.
  rewrite Hc, Z.sub_diag. cbn [shr shr_m shr_record_of_loc].
  now rewrite Hb.
Qed.

Lemma is_number_cases x :
  is_number x = true ->
  (exists s, x = S754_zero s) \/
  (exists s m e, x = S754_finite s m e /\ F32.valid x = true).
Proof.
  unfold is_number. intros [Hv Hf]%andb_prop.
  destruct x as [s| | |s m e]; try discriminate; eauto 6.
Qed.

Lemma mul_one_r x : is_number x = true -> F32.mul x F32.one = x.
Proof.
  intros [[s ->]|(s & m & e & -> & Hv)]%is_number_cases.
  - unfold F32.mul, F32.one. simpl. now rewrite xorb_false_r.
  - unfold F32.mul, F32.one, SFmul. rewrite xorb_false_r, Pos.mul_comm.
    now apply round_shifted_mantissa.
Qed.

Lemma mul_one_l x : is_number x = true -> F32.mul F32.one x = x.
Proof.
  intros [[s ->]|(s & m & e & -> & Hv)]%is_number_cases.
  - reflexivity.
  - unfold F32.mul, F32.one, SFmul. cbn [xorb]. rewrite Z.add_comm.
    now apply round_shifted_mantissa.
Qed.

Lemma mul_zero_r x :
  is_number x = true -> F32.mul x F32.zero = S754_zero (sign_of x).
Proof.
  intros [[s ->]|(s & m & e & -> & _)]%is_number_cases;
    unfold F32.mul, F32.zero; simpl; now rewrite xorb_false_r.
Qed.

Lemma mul_zero_l x :
  is_number x = true -> F32.mul F32.zero x = S754_zero (sign_of x).
Proof.
  intros [[s ->]|(s & m & e & -> & _)]%is_number_cases; reflexivity.
Qed.

Lemma add_zero_zero s : F32.add F32.zero (S754_zero s) = F32.zero.
Proof. destruct s; reflexivity. Qed.

Lemma add_zero_number x :
  is_number x = true -> F32.add F32.zero x = plus_zero x.
Proof.
  intros [[s ->]|(s & m & e & -> & _)]%is_number_cases;
    [destruct s|]; reflexivity.
Qed.

Lemma add_plus_zero_zero x s :
  is_number x = true -> F32.add (plus_zero x) (S754_zero s) = plus_zero x.
Proof.
  intros [[s' ->]|(s' & m & e & -> & _)]%is_number_cases;
    [destruct s|]; reflexivity.
Qed.

Lemma eqb_plus_zero x : is_number x = true -> F32.eqb (plus_zero x) x = true.
Proof.
  intros [[s ->]|(s & m & e & -> & _)]%is_number_cases; [reflexivity|].
  unfold F32.eqb, SFeqb, plus_zero, SFcompare.
  rewrite Z.compare_refl, Pos.compare_cont_refl. now destruct s.
Qed.

(** ** The perspective divide *)

(** C7. [TR_Vector3Transform] forms the homogeneous product
    [(x, y, z, w) = (v.x, v.y, v.z, 1) . M]; when [w] is a zero it returns
    [(x, y, z)] as computed, without dividing, and for every other [w]
    (a NaN included) it returns [(x / w, y / w, z / w)].  The function is
    total and no division has a zero divisor. *)
Theorem transform_guarded_divide (v : TR_Vector3) (mat : TR_Matrix4x4) :
  let '(x, y, z, w) := homogeneous v mat in
  TR_Vector3Transform v mat =
    (if is_zero w then V3.mk x y z
     else V3.mk (F32.div x w) (F32.div y w) (F32.div z w)) /\
  (is_zero w = true -> TR_Vector3Transform v mat = V3.mk x y z) /\
  (is_zero w = false ->
   TR_Vector3Transform v mat = V3.mk (F32.div x w) (F32.div y w) (F32.div z w)).
Proof.
  unfold homogeneous, TR_Vector3Transform, dot4, column.
  rewrite eqb_zero_is_zero.
  destruct (is_zero _); cbn [negb]; repeat split; intros; congruence.
Qed.

(** ** Matrix identities *)

Ltac sum_of_products :=
  repeat first
    [ rewrite mul_one_r by assumption
    | rewrite mul_one_l by assumption
    | rewrite mul_zero_r by assumption
    | rewrite mul_zero_l by assumption
    | rewrite add_zero_zero
    | rewrite add_zero_number by assumption
    | rewrite add_plus_zero_zero by assumption
    | rewrite eqb_plus_zero by assumption ].

(** C8. For every matrix [M] of finite entries the products [M * I] and
    [I * M] equal [M] entry by entry under the floating-point comparison
    (no rounding error at all: at most the sign of a zero changes), and
    [TR_MatrixRotateX(0)] equals the identity in the same sense, given
    that the cosine of 0 is 1 and its sine 0. *)
Theorem matrix_identity_laws (mat : TR_Matrix4x4) (lm : Libm) :
  matrix_finite mat = true ->
  cos_f lm F32.zero = F32.one ->
  sin_f lm F32.zero = F32.zero ->
  matrix_eqb (TR_MatrixMultiply mat TR_MatrixIdentity) mat = true /\
  matrix_eqb (TR_MatrixMultiply TR_MatrixIdentity mat) mat = true /\
  matrix_eqb (TR_MatrixRotateX lm F32.zero) TR_MatrixIdentity = true.
Proof.
  intros Hfin Hcos Hsin.
  destruct mat as [[[[[[[a00 a01] a02] a03] [[[a10 a11] a12] a13]]
                      [[[a20 a21] a22] a23]] [[[a30 a31] a32] a33]]].
  unfold matrix_finite, matrix_entries in Hfin.
  cbn [flat_map map app forallb mget get4 m] in Hfin.
  repeat match type of Hfin with
         | _ && _ = true => apply andb_prop in Hfin as [? Hfin]
         end.
  split; [|split].
  - unfold matrix_eqb, TR_MatrixMultiply, TR_MatrixIdentity, matrix_zero,
      zero_row, for4.
    cbn [fold_left forallb mget mset get4 set4 m].
    sum_of_products. reflexivity.
  - unfold matrix_eqb, TR_MatrixMultiply, TR_MatrixIdentity, matrix_zero,
      zero_row, for4.
    cbn [fold_left forallb mget mset get4 set4 m].
    sum_of_products. reflexivity.
  - unfold TR_MatrixRotateX. rewrite Hcos, Hsin. reflexivity.
Qed.

Lemma matrix_identity_laws_witness :
  matrix_eqb (TR_MatrixMultiply demo_matrix TR_MatrixIdentity) demo_matrix = true /\
  matrix_eqb (TR_MatrixMultiply TR_MatrixIdentity demo_matrix) demo_matrix = true /\
  matrix_eqb (TR_MatrixRotateX libm_at_zero F32.zero) TR_MatrixIdentity = true.
Proof.
  apply (matrix_identity_laws demo_matrix libm_at_zero); reflexivity.
Defined.

(** ** The order of depths *)

Lemma compare_cont_Eq_spec m1 m2 :
  Pos.compare_cont Eq m1 m2 = (Z.pos m1 ?= Z.pos m2).
Proof. reflexivity. Qed.

Lemma ltb_key x y :
  F32.ltb x y = true <->
  exists k1 k2, order_key x = Some k1 /\ order_key y = Some k2 /\ key_lt k1 k2.
Proof.
  unfold F32.ltb, SFltb.
  destruct x as [s1|s1| |s1 m1 e1], y as [s2|s2| |s2 m2 e2];
    try destruct s1; try destruct s2; cbn [SFcompare order_key];
    try (split; [discriminate|intros (k1 & k2 & H1 & H2 & H3);
                  try discriminate; injection H1 as <-; injection H2 as <-;
                  cbn in H3; lia]);
    try (split; [intros _; eexists _, _; split; [reflexivity|];
                 split; [reflexivity|]; cbn; lia|reflexivity]).
  - rewrite compare_cont_Eq_spec.
    destruct (Z.compare_spec e1 e2) as [->|He|He];
      [destruct (Z.compare_spec (Z.pos m1) (Z.pos m2)) as [Hm|Hm|Hm]| |];
      cbn [CompOpp];
      (split; [first [discriminate
                     |intros _; eexists _, _; (split; [reflexivity|]);
                      (split; [reflexivity|]); cbn; lia]
              |intros (k1 & k2 & [= <-] & [= <-] & H3); cbn in H3;
               first [reflexivity|lia]]).
  - rewrite compare_cont_Eq_spec.
    destruct (Z.compare_spec e1 e2) as [->|He|He];
      [destruct (Z.compare_spec (Z.pos m1) (Z.pos m2)) as [Hm|Hm|Hm]| |];
      (split; [first [discriminate
                     |intros _; eexists _, _; (split; [reflexivity|]);
                      (split; [reflexivity|]); cbn; lia]
              |intros (k1 & k2 & [= <-] & [= <-] & H3); cbn in H3;
               first [reflexivity|lia]]).
Qed.


Lemma key_lt_trans k1 k2 k3 : key_lt k1 k2 -> key_lt k2 k3 -> key_lt k1 k3.
Proof.
  destruct k1 as [[? ?] ?], k2 as [[? ?] ?], k3 as [[? ?] ?]. cbn. lia.
Qed.

Lemma key_lt_asym k1 k2 : key_lt k1 k2 -> ~ key_lt k2 k1.
Proof. destruct k1 as [[? ?] ?], k2 as [[? ?] ?]. cbn. lia. Qed.


Lemma ltb_trans x y z :
  F32.ltb x y = true -> F32.ltb y z = true -> F32.ltb x z = true.
Proof.
  rewrite !ltb_key.
  intros (k1 & k2 & H1 & H2 & H12) (k2' & k3 & H2' & H3 & H23).
  rewrite H2 in H2'. injection H2' as <-.
  exists k1, k3. eauto using key_lt_trans.
Qed.

Lemma ltb_asym x y : F32.ltb x y = true -> F32.ltb y x = false.
Proof.
  intros H. apply not_true_iff_false. rewrite ltb_key in *.
  destruct H as (k1 & k2 & H1 & H2 & H12).
  intros (k2' & k1' & H2' & H1' & H21).
  rewrite H2 in H2'. rewrite H1 in H1'.
  injection H2' as <-. injection H1' as <-.
  exact (key_lt_asym _ _ H12 H21).
Qed.


(** ** Fragments of a filled triangle *)

Lemma iterM_map {I J S} (g : I -> J) (f : J -> S -> result S) (l : list I) (s : S) :
  iterM f (map g l) s = iterM (fun i => f (g i)) l s.
Proof.
  revert s. induction l as [|i l IH]; intros s; simpl; [reflexivity|].
  destruct (f (g i) s); simpl; auto.
Qed.

Lemma iterM_flat_map {I J S} (rows : I -> list J) (body : I -> S -> result S)
    (f : J -> S -> result S) (l : list I) (s : S) :
  (forall i t, body i t = iterM f (rows i) t) ->
  iterM body l s = iterM f (flat_map rows l) s.
Proof.
  intros Hb. revert s. induction l as [|i l IH]; intros s; simpl; [reflexivity|].
  rewrite iterM_app, Hb. destruct (iterM f (rows i) s); simpl; auto.
Qed.

(** The drawing call is the run of the depth test over its fragments. *)
Lemma draw_triangle_fragments v1 v2 v3 mvp color s :
  TR_DrawTriangle3DFilled v1 v2 v3 mvp color s =
  iterM (plot color)
    (triangle_fragments (__tr_buffer_width s) (__tr_buffer_height s)
       v1 v2 v3 mvp) s.
Proof.
  unfold TR_DrawTriangle3DFilled, triangle_fragments.
  destruct (sort_by_y _) as [[p0 p1] p2].
  destruct (scanline_rows _ p0 p2) as [y_start y_end].
  unfold for_range. apply iterM_flat_map. intros y t.
  unfold row_fragments.
  destruct (scan_edges _ y p0 p1 p2) as [[[xl xr] zl] zr].
  destruct (span_columns _ _) as [x_start x_end].
  rewrite iterM_map. reflexivity.
Qed.

Lemma row_fragments_spec bw y p0 p1 p2 f :
  0 < bw <= INT_MAX ->
  f ∈ row_fragments bw y p0 p1 p2 -> snd (fst f) = y /\ 0 <= fst (fst f) < bw.
Proof.
  intros Hbw. unfold row_fragments.
  destruct (scan_edges bw y p0 p1 p2) as [[[xl xr] zl] zr].
  unfold span_columns.
  intros (x & -> & Hx)%list_elem_of_fmap. apply elem_of_seqZ in Hx.
  cbn [fst snd]. split; [reflexivity|].
  rewrite wrap32_id in Hx by (unfold in_range, INT_MIN, INT_MAX in *; lia).
  destruct (F32.to_int xl <? 0) eqn:E1; destruct (bw <=? F32.to_int xr) eqn:E2;
    rewrite ?Z.ltb_lt, ?Z.ltb_ge, ?Z.leb_le, ?Z.leb_gt in *; lia.
Qed.

Lemma triangle_fragments_in_bounds bw bh v1 v2 v3 mvp f :
  0 < bw <= INT_MAX -> 0 < bh <= INT_MAX ->
  f ∈ triangle_fragments bw bh v1 v2 v3 mvp ->
  0 <= fst (fst f) < bw /\ 0 <= snd (fst f) < bh.
Proof.
  intros Hbw Hbh. unfold triangle_fragments.
  destruct (sort_by_y _) as [[p0 p1] p2]. unfold scanline_rows.
  intros Hf. apply list_elem_of_In, in_flat_map in Hf as (y & Hy & Hf).
  apply list_elem_of_In in Hy, Hf. apply elem_of_seqZ in Hy.
  destruct (row_fragments_spec bw y p0 p1 p2 f Hbw Hf) as [-> Hx].
  split; [exact Hx|].
  rewrite wrap32_id in Hy by (unfold in_range, INT_MIN, INT_MAX in *; lia).
  destruct (F32.to_int (V3.y p0) <? 0) eqn:E1;
    destruct (bh <=? F32.to_int (V3.y p2)) eqn:E2;
    rewrite ?Z.ltb_lt, ?Z.ltb_ge, ?Z.leb_le, ?Z.leb_gt in *; lia.
Qed.


(** ** The depth test on the two buffers *)

Lemma with_buffers_id s : with_buffers (buffers_of s) s = s.
Proof. now destruct s. Qed.

Lemma with_buffers_twice b1 b2 s :
  with_buffers b2 (with_buffers b1 s) = with_buffers b2 s.
Proof. reflexivity. Qed.

Lemma buffers_of_with_buffers bufs s : buffers_of (with_buffers bufs s) = bufs.
Proof. now destruct bufs. Qed.

Lemma pixel_step_length bw color bufs f :
  length (fst (pixel_step bw color bufs f)) = length (fst bufs) /\
  length (snd (pixel_step bw color bufs f)) = length (snd bufs).
Proof.
  unfold pixel_step. destruct (fst bufs !! _); [|auto].
  destruct (F32.ltb _ _); [|auto]. cbn [fst snd]. now rewrite !length_insert.
Qed.

Lemma fold_pixel_step_length bw color fs bufs :
  length (fst (fold_left (pixel_step bw color) fs bufs)) = length (fst bufs) /\
  length (snd (fold_left (pixel_step bw color) fs bufs)) = length (snd bufs).
Proof.
  revert bufs. induction fs as [|f fs IH]; intros bufs; [auto|].
  cbn [fold_left]. destruct (IH (pixel_step bw color bufs f)) as [-> ->].
  apply pixel_step_length.
Qed.

Lemma with_buffers_wf bufs s :
  wf s ->
  length (fst bufs) = length (__tr_z_buffer s) ->
  length (snd bufs) = length (__tr_screen_buffer s) ->
  wf (with_buffers bufs s).
Proof.
  intros [H1 H2 H3 H4 H5 H6 H7 H8] Hz Hs.
  split; cbn [with_buffers set_screen_buffer set_z_buffer __tr_window_open
              __tr_buffer_width __tr_buffer_height __tr_screen_buffer
              __tr_prev_screen_buffer __tr_z_buffer __tr_z_buffer_size]; auto.
  - now rewrite Hs.
  - now rewrite Hz.
Qed.

(** On an open session the depth test of an inside fragment is the pure
    step on the two buffers. *)
Lemma plot_step color f s :
  wf s ->
  frag_inside (__tr_buffer_width s) (__tr_buffer_height s) f ->
  plot color f s =
  Ok (with_buffers (pixel_step (__tr_buffer_width s) color (buffers_of s) f) s).
Proof.
  intros Hwf Hin. destruct f as [[x y] z]. unfold frag_inside in Hin.
  cbn [fst snd] in Hin.
  assert (Hb : in_bounds s x y = true) by (apply in_bounds_iff; exact Hin).
  destruct (cell_index_in_bounds s x y Hwf Hb) as [Ei Hr].
  unfold plot, depth_test_draw, pixel_step, frag_index. cbn [fst snd buffers_of].
  rewrite Ei in *. rewrite (wf_z_size s Hwf).
  rewrite (proj2 (Z.leb_le 0 _)), (proj2 (Z.ltb_lt _ _)) by lia. cbn [andb].
  destruct (load_lookup (y * __tr_buffer_width s + x) (__tr_z_buffer s))
    as (zv & Ez & Lz); [rewrite (wf_z s Hwf); exact Hr|].
  rewrite Ez, Lz. cbn [bind]. destruct (F32.ltb z zv).
  - rewrite store_Ok by (rewrite (wf_z s Hwf); exact Hr). cbn [bind].
    unfold TR_DrawPixel.
    change (__tr_window_open (set_z_buffer ?b s)) with (__tr_window_open s).
    change (__tr_buffer_width (set_z_buffer ?b s)) with (__tr_buffer_width s).
    change (__tr_buffer_height (set_z_buffer ?b s)) with (__tr_buffer_height s).
    change (cell_index (set_z_buffer ?b s) x y) with (cell_index s x y).
    rewrite (wf_open s Hwf). cbn [negb orb].
    rewrite (proj2 (Z.ltb_ge x 0)), (proj2 (Z.leb_gt _ x)),
      (proj2 (Z.ltb_ge y 0)), (proj2 (Z.leb_gt _ y)) by lia.
    cbn [orb]. unfold cell_index in Ei |- *. rewrite Ei. unfold write_cell.
    change (__tr_screen_buffer (set_z_buffer ?b s)) with (__tr_screen_buffer s).
    rewrite store_Ok by (rewrite (wf_screen s Hwf); exact Hr).
    reflexivity.
  - now rewrite <- (with_buffers_id s) at 1.
Qed.

(** The run of the depth test over inside fragments is the fold of the
    pure step. *)
Lemma run_plot color fs s :
  wf s ->
  Forall (frag_inside (__tr_buffer_width s) (__tr_buffer_height s)) fs ->
  iterM (plot color) fs s =
  Ok (with_buffers
        (fold_left (pixel_step (__tr_buffer_width s) color) fs (buffers_of s)) s) /\
  wf (with_buffers
        (fold_left (pixel_step (__tr_buffer_width s) color) fs (buffers_of s)) s).
Proof.
  intros Hwf Hfs. revert s Hwf Hfs.
  induction fs as [|f fs IH]; intros s Hwf Hfs.
  - cbn [iterM fold_left]. rewrite with_buffers_id. auto.
  - apply Forall_cons in Hfs as [Hf Hfs].
    cbn [iterM fold_left]. rewrite plot_step by assumption. cbn [bind].
    set (b1 := pixel_step (__tr_buffer_width s) color (buffers_of s) f).
    assert (Hwf1 : wf (with_buffers b1 s))
      by (apply with_buffers_wf; [exact Hwf|apply pixel_step_length..]).
    destruct (IH (with_buffers b1 s) Hwf1 Hfs) as [E Hwf'].
    change (__tr_buffer_width (with_buffers b1 s)) with (__tr_buffer_width s) in *.
    rewrite buffers_of_with_buffers in E, Hwf'.
    rewrite with_buffers_twice in E, Hwf'. auto.
Qed.

(** ** Order independence of the depth test *)





Lemma pixel_step_other bw color bufs f i :
  frag_index bw f <> i -> local i (pixel_step bw color bufs f) = local i bufs.
Proof.
  intros Hne. unfold pixel_step, local.
  destruct (fst bufs !! frag_index bw f); [|reflexivity].
  destruct (F32.ltb _ _); [|reflexivity]. cbn [fst snd].
  now rewrite !list_lookup_insert_ne by exact Hne.
Qed.


Lemma pixel_step_same bw color bufs f zv c0 :
  local (frag_index bw f) bufs = (Some zv, Some c0) ->
  local (frag_index bw f) (pixel_step bw color bufs f) =
  if F32.ltb (snd f) zv then (Some (snd f), Some (pixel_cell color))
  else (Some zv, Some c0).
Proof.
  unfold local, pixel_step. intros [= Lz Lc]. rewrite Lz.
  destruct (F32.ltb (snd f) zv); cbn [fst snd]; [|now rewrite Lz, Lc].
  rewrite !list_lookup_insert_eq by (eapply lookup_lt_Some; eauto).
  reflexivity.
Qed.






Lemma demo_triangles_overlap :
  let fas := triangle_fragments 4 3 near_a1 near_a2 near_a3 TR_MatrixIdentity in
  let fbs := triangle_fragments 4 3 far_b1 far_b2 far_b3 TR_MatrixIdentity in
  exists x y za zb,
    (x, y, za) ∈ fas /\ (x, y, zb) ∈ fbs /\
    F32.ltb za zb = true /\ F32.ltb za F32.one = true.
Proof.
  exists 1, 1, (F32.div (F32.of_int 5) (F32.of_int 10)),
         (F32.div (F32.of_int 7) (F32.of_int 10)).
  split; [|split; [|split; reflexivity]];
    apply list_elem_of_In; vm_compute; tauto.
Qed.


(** * Further properties of the engine *)

(** ** The 2D calls only rewrite the frame buffer *)

Lemma set_screen_buffer_same s : set_screen_buffer (__tr_screen_buffer s) s = s.
Proof. now destruct s. Qed.

Lemma frame_only_skip : frame_only (fun s => Ok s).
Proof.
  intros s _. exists (__tr_screen_buffer s).
  now rewrite set_screen_buffer_same.
Qed.

Lemma frame_only_seq f g :
  frame_only f -> frame_only g -> frame_only (fun s => let* t := f s in g t).
Proof.
  intros Hf Hg s Hwf. destruct (Hf s Hwf) as (b1 & E1 & L1).
  assert (Hwf1 : wf (set_screen_buffer b1 s))
    by (now apply set_screen_buffer_wf).
  destruct (Hg _ Hwf1) as (b2 & E2 & L2).
  exists b2. rewrite E1. cbn [bind]. rewrite E2. split; [reflexivity|].
  cbn [set_screen_buffer __tr_screen_buffer] in L2. congruence.
Qed.

Lemma frame_only_iterM {I} (body : I -> Engine -> result Engine) (l : list I) :
  (forall i, frame_only (body i)) -> frame_only (iterM body l).
Proof.
  intros Hb. induction l as [|i l IH]; [apply frame_only_skip|].
  exact (frame_only_seq _ _ (Hb i) IH).
Qed.

Lemma frame_only_put_cell c p : frame_only (put_cell c p).
Proof.
  intros s Hwf. unfold put_cell. destruct (in_bounds s (fst p) (snd p)) eqn:Hb.
  - destruct (cell_index_in_bounds s _ _ Hwf Hb) as [_ Hr].
    unfold write_cell.
    rewrite store_Ok by (rewrite (wf_screen s Hwf); exact Hr). cbn [bind].
    eexists. split; [reflexivity|]. apply length_insert.
  - apply frame_only_skip, Hwf.
Qed.

Lemma frame_only_ext f g :
  (forall s, wf s -> f s = g s) -> frame_only g -> frame_only f.
Proof. intros E Hg s Hwf. rewrite E by exact Hwf. now apply Hg. Qed.

(** Past the row test, the loop of [TR_DrawText] is a run of bounds-checked
    cell writes. *)
Lemma draw_text_loop_put_cell txt i x y fg bg s :
  0 <= y < __tr_buffer_height s ->
  draw_text_loop txt i x y fg bg s =
  match txt with
  | EmptyString => Ok s
  | String ch rest =>
      if Ascii.eqb ch zero then Ok s else
      let* s' := put_cell (mkCell ch fg bg) (wrap32 (x + i), y) s in
      draw_text_loop rest (i + 1) x y fg bg s'
  end.
Proof.
  intros Hy. destruct txt as [|ch rest]; [reflexivity|].
  cbn [draw_text_loop]. destruct (Ascii.eqb ch zero); [reflexivity|].
  unfold put_cell, in_bounds. cbn [fst snd].
  rewrite (proj2 (Z.leb_le 0 y)), (proj2 (Z.ltb_lt y _)), !andb_true_r by lia.
  reflexivity.
Qed.

Lemma frame_only_draw_text_loop txt i x y fg bg :
  forall s, wf s -> 0 <= y < __tr_buffer_height s ->
    exists buf, draw_text_loop txt i x y fg bg s = Ok (set_screen_buffer buf s) /\
                length buf = length (__tr_screen_buffer s).
Proof.
  revert i. induction txt as [|ch rest IH]; intros i s Hwf Hy.
  - apply frame_only_skip, Hwf.
  - rewrite draw_text_loop_put_cell by exact Hy.
    destruct (Ascii.eqb ch zero); [apply frame_only_skip, Hwf|].
    destruct (frame_only_put_cell (mkCell ch fg bg) (wrap32 (x + i), y) s Hwf)
      as (b1 & E1 & L1).
    rewrite E1. cbn [bind].
    destruct (IH (i + 1) (set_screen_buffer b1 s)) as (b2 & E2 & L2);
      [now apply set_screen_buffer_wf|exact Hy|].
    exists b2. rewrite E2. split; [reflexivity|].
    cbn [set_screen_buffer __tr_screen_buffer] in L2. congruence.
Qed.

Lemma draw_rectangle_lines_put_cells x y w h fg bg s :
  __tr_window_open s = true ->
  TR_DrawRectangleLines x y w h fg bg s =
  iterM (put_cell (mkCell hash fg (final_bg_color bg s)))
        (border_positions x y w h) s.
Proof.
  intros Ho. unfold TR_DrawRectangleLines, border_positions, addressed, for_range.
  rewrite Ho, Z.sub_0_r. cbn [negb]. rewrite iterM_app.
  set (c := mkCell hash fg (final_bg_color bg s)).
  assert (Hpair : forall p1 p2 t,
            (let* t1 := draw_border_cell (fst p1) (snd p1) fg (final_bg_color bg s) t in
             draw_border_cell (fst p2) (snd p2) fg (final_bg_color bg s) t1) =
            iterM (put_cell c) [p1; p2] t).
  { intros p1 p2 t. cbn [iterM]. unfold draw_border_cell. fold c.
    change (if in_bounds ?u (fst ?p) (snd ?p)
            then write_cell (cell_index ?u (fst ?p) (snd ?p)) c ?u
            else Ok ?u) with (put_cell c p u).
    destruct (put_cell c p1 t) as [t1| |]; cbn [bind]; try reflexivity.
    destruct (put_cell c p2 t1); reflexivity. }
  match goal with
  | |- bind (iterM ?b1 ?l1 s) ?k = _ =>
      rewrite (iterM_flat_map
                 (fun i => [(wrap32 (x + i), y);
                            (wrap32 (x + i), wrap32 (wrap32 (y + h) - 1))])
                 b1 (put_cell c) l1 s)
        by (intros i t;
            exact (Hpair (wrap32 (x + i), y)
                         (wrap32 (x + i), wrap32 (wrap32 (y + h) - 1)) t))
  end.
  destruct (iterM (put_cell c) _ s) as [t| |]; cbn [bind]; try reflexivity.
  apply iterM_flat_map. intros j u.
  exact (Hpair (x, wrap32 (y + j))
               (wrap32 (wrap32 (x + w) - 1), wrap32 (y + j)) u).
Qed.

(** X1. On an open session each of the four 2D drawing calls, whatever its
    arguments, returns normally, keeps the session invariant and changes
    nothing but the frame buffer: not the previous frame, the depth
    buffer, the dimensions, the key, the background or the terminal output. *)
Theorem draw_call_only_rewrites_frame (c : DrawCall) (s : Engine) :
  wf s ->
  exists s',
    run_call c s = Ok s' /\ wf s' /\
    s' = set_screen_buffer (__tr_screen_buffer s') s /\
    length (__tr_screen_buffer s') = length (__tr_screen_buffer s) /\
    __tr_prev_screen_buffer s' = __tr_prev_screen_buffer s /\
    __tr_z_buffer s' = __tr_z_buffer s /\
    out s' = out s.
Proof.
  intros Hwf. pose proof (wf_open s Hwf) as Ho.
  assert (H : exists buf, run_call c s = Ok (set_screen_buffer buf s) /\
                          length buf = length (__tr_screen_buffer s)).
  { destruct c as [x y color | [txt|] x y fs fg bg | x y w h fg bg | x y w h fg bg];
      cbn [run_call].
    - pose proof (put_cell_is_draw_pixel color (x, y) s Ho) as Ep.
      cbn [fst snd] in Ep. rewrite <- Ep. now apply frame_only_put_cell.
    - unfold TR_DrawText. rewrite Ho. cbn [negb orb].
      destruct (y <? 0) eqn:E1; [now apply frame_only_skip|].
      destruct (__tr_buffer_height s <=? y) eqn:E2; [now apply frame_only_skip|].
      apply Z.ltb_ge in E1. apply Z.leb_gt in E2.
      apply frame_only_draw_text_loop; [exact Hwf|lia].
    - now apply frame_only_skip.
    - rewrite draw_rectangle_put_cells by exact Ho.
      apply frame_only_iterM; [|exact Hwf]. intros p. apply frame_only_put_cell.
    - rewrite draw_rectangle_lines_put_cells by exact Ho.
      apply frame_only_iterM; [|exact Hwf]. intros p. apply frame_only_put_cell. }
  destruct H as (buf & E & L). exists (set_screen_buffer buf s).
  split; [exact E|]. split; [now apply set_screen_buffer_wf|].
  repeat split; auto.
Qed.

Lemma draw_call_only_rewrites_frame_witness :
  exists s',
    run_call (CallText (Some "hi"%string) 3 1 0 WHITE BLANK) demo_session = Ok s' /\
    wf s' /\
    s' = set_screen_buffer (__tr_screen_buffer s') demo_session /\
    length (__tr_screen_buffer s') = length (__tr_screen_buffer demo_session) /\
    __tr_prev_screen_buffer s' = __tr_prev_screen_buffer demo_session /\
    __tr_z_buffer s' = __tr_z_buffer demo_session /\
    out s' = out demo_session.
Proof.
  exact (draw_call_only_rewrites_frame
           (CallText (Some "hi"%string) 3 1 0 WHITE BLANK) demo_session
           demo_session_wf).
Defined.

(** ** What the 2D calls write *)

(** X2. [TR_DrawPixel] inside the bounds stores the solid cell at that
    position, where a later read finds it, and leaves every other cell. *)
Theorem draw_pixel_writes_one_cell (x y : Z) (color : Color) (s : Engine) :
  wf s -> in_bounds s x y = true ->
  exists s',
    TR_DrawPixel x y color s = Ok s' /\
    cell_at s' x y = Some (mkCell space color color) /\
    (forall cx cy, in_bounds s cx cy = true -> (cx, cy) <> (x, y) ->
                   cell_at s' cx cy = cell_at s cx cy).
Proof.
  intros Hwf Hb.
  destruct (put_cell_spec (mkCell space color color) (x, y) s Hwf)
    as (s' & E & _ & _ & _ & Hc).
  rewrite (put_cell_is_draw_pixel color (x, y) s (wf_open s Hwf)) in E.
  exists s'. split; [exact E|]. split.
  - rewrite (Hc x y Hb). now rewrite decide_True.
  - intros cx cy Hcb Hne. rewrite (Hc cx cy Hcb). now rewrite decide_False.
Qed.

Lemma draw_pixel_writes_one_cell_witness :
  exists s',
    TR_DrawPixel 2 1 RED demo_session = Ok s' /\
    cell_at s' 2 1 = Some (mkCell space RED RED) /\
    (forall cx cy, in_bounds demo_session cx cy = true -> (cx, cy) <> (2, 1) ->
                   cell_at s' cx cy = cell_at demo_session cx cy).
Proof.
  apply (draw_pixel_writes_one_cell 2 1 RED demo_session demo_session_wf).
  reflexivity.
Defined.

Lemma c_char_at_tail ch rest k :
  0 < k -> c_char_at (String ch rest) (Z.to_nat k) = c_char_at rest (Z.to_nat (k - 1)).
Proof.
  intros Hk. replace (Z.to_nat k) with (S (Z.to_nat (k - 1))) by lia. reflexivity.
Qed.

Lemma draw_text_loop_cells txt x y fg bg :
  forall i s,
    wf s -> 0 <= y < __tr_buffer_height s ->
    in_range (x + i) -> in_range (x + i + c_strlen txt) ->
    exists s',
      draw_text_loop txt i x y fg bg s = Ok s' /\
      forall cx cy, in_bounds s cx cy = true ->
        cell_at s' cx cy =
        if decide (cy = y /\ x + i <= cx < x + i + c_strlen txt)
        then Some (mkCell (c_char_at txt (Z.to_nat (cx - x - i))) fg bg)
        else cell_at s cx cy.
Proof.
  induction txt as [|ch rest IH]; intros i s Hwf Hy Hr1 Hr2.
  - exists s. split; [reflexivity|]. intros cx cy _. cbn [c_strlen].
    rewrite decide_False by lia. reflexivity.
  - rewrite draw_text_loop_put_cell by exact Hy. cbn [c_strlen] in *.
    destruct (Ascii.eqb ch zero) eqn:Ez.
    + exists s. split; [reflexivity|]. intros cx cy _.
      rewrite decide_False by lia. reflexivity.
    + pose proof (c_strlen_nonneg rest) as Hn.
      rewrite (wrap32_id (x + i)) by exact Hr1.
      destruct (put_cell_spec (mkCell ch fg bg) (x + i, y) s Hwf)
        as (s1 & E1 & Hwf1 & Hw1 & Hh1 & Hc1).
      rewrite E1. cbn [bind].
      destruct (IH (i + 1) s1 Hwf1) as (s' & E' & Hc');
        [rewrite Hh1; exact Hy
        |unfold in_range, INT_MIN, INT_MAX in *; lia
        |unfold in_range, INT_MIN, INT_MAX in *; lia|].
      exists s'. split; [exact E'|]. intros cx cy Hb.
      assert (Hb1 : in_bounds s1 cx cy = true)
        by (unfold in_bounds in *; now rewrite Hw1, Hh1).
      rewrite (Hc' cx cy Hb1), (Hc1 cx cy Hb).
      destruct (decide (cy = y /\ x + (i + 1) <= cx < x + (i + 1) + c_strlen rest))
        as [[-> Hin]|Hout].
      * rewrite decide_True by lia. f_equal. f_equal.
        replace (cx - x - (i + 1)) with (cx - x - i - 1) by lia.
        symmetry. apply c_char_at_tail. lia.
      * destruct (decide ((cx, cy) = (x + i, y))) as [[= -> ->]|Hne].
        -- rewrite decide_True by lia.
           replace (x + i - x - i) with 0 by lia. reflexivity.
        -- rewrite decide_False; [reflexivity|].
           intros [-> Hin]. destruct (decide (cx = x + i)) as [->|]; [|lia].
           now apply Hne.
Qed.

(** X3. [TR_DrawText] on a visible row writes character [k] of the text,
    with the foreground and the resolved background, to column [x + k]
    of row [y] for every such column inside the buffer, and changes no
    other cell; characters falling outside are clipped one by one. *)
Theorem draw_text_cells (txt : string) (x y fontSize : Z) (fg bg : Color)
    (s : Engine) :
  wf s -> 0 <= y < __tr_buffer_height s ->
  in_range x -> in_range (x + c_strlen txt) ->
  exists s',
    TR_DrawText (Some txt) x y fontSize fg bg s = Ok s' /\
    forall cx cy, in_bounds s cx cy = true ->
      cell_at s' cx cy =
      if decide (cy = y /\ x <= cx < x + c_strlen txt)
      then Some (mkCell (c_char_at txt (Z.to_nat (cx - x))) fg (final_bg_color bg s))
      else cell_at s cx cy.
Proof.
  intros Hwf Hy Hx Hxl. unfold TR_DrawText. rewrite (wf_open s Hwf).
  cbn [negb orb].
  rewrite (proj2 (Z.ltb_ge y 0)), (proj2 (Z.leb_gt _ y)) by lia.
  destruct (draw_text_loop_cells txt x y fg (final_bg_color bg s) 0 s Hwf Hy)
    as (s' & E & Hc); [now rewrite Z.add_0_r..|].
  exists s'. split; [exact E|]. intros cx cy Hb. rewrite (Hc cx cy Hb).
  rewrite !Z.add_0_r, Z.sub_0_r. reflexivity.
Qed.

Lemma draw_text_cells_witness :
  exists s',
    TR_DrawText (Some "hello"%string) 2 1 20 WHITE BLANK demo_session = Ok s' /\
    forall cx cy, in_bounds demo_session cx cy = true ->
      cell_at s' cx cy =
      if decide (cy = 1 /\ 2 <= cx < 2 + c_strlen "hello")
      then Some (mkCell (c_char_at "hello" (Z.to_nat (cx - 2))) WHITE
                        (final_bg_color BLANK demo_session))
      else cell_at demo_session cx cy.
Proof.
  apply (draw_text_cells "hello" 2 1 20 WHITE BLANK demo_session demo_session_wf);
    [simpl; lia|unfold in_range, INT_MIN, INT_MAX; simpl; lia..].
Defined.

Lemma in_rect_positions x y w h cx cy :
  in_range x -> in_range y -> in_range (x + w) -> in_range (y + h) ->
  (cx, cy) ∈ rect_positions x y w h <-> in_rectangle x y w h cx cy = true.
Proof.
  intros Hx Hy Hxw Hyh. unfold rect_positions, in_rectangle.
  rewrite !andb_true_iff, !Z.leb_le, !Z.ltb_lt, list_elem_of_In, in_flat_map.
  split.
  - intros (j & Hj & Hi). apply in_map_iff in Hi as (i & E & Hi).
    apply list_elem_of_In, elem_of_seqZ in Hj, Hi.
    rewrite !wrap32_id in E by (unfold in_range, INT_MIN, INT_MAX in *; lia).
    injection E as <- <-. lia.
  - intros [[[H1 H2] H3] H4]. exists (cy - y). split.
    + apply list_elem_of_In, elem_of_seqZ. lia.
    + apply in_map_iff. exists (cx - x). split.
      * rewrite !wrap32_id by (unfold in_range, INT_MIN, INT_MAX in *; lia).
        f_equal; lia.
      * apply list_elem_of_In, elem_of_seqZ. lia.
Qed.

(** X4. When no coordinate sum wraps, [TR_DrawRectangle] changes exactly
    the in-bounds cells with [x <= cx < x + width] and
    [y <= cy < y + height]; with a width or height of zero or less it
    changes nothing at all. *)
Theorem draw_rectangle_geometry (x y width height : Z) (fg bg : Color)
    (s : Engine) :
  wf s -> corners_in_range x y width height ->
  exists s',
    TR_DrawRectangle x y width height fg bg s = Ok s' /\
    (forall cx cy, in_bounds s cx cy = true ->
       cell_at s' cx cy =
       if in_rectangle x y width height cx cy
       then Some (mkCell space fg (final_bg_color bg s))
       else cell_at s cx cy) /\
    (width <= 0 \/ height <= 0 -> s' = s).
Proof.
  intros Hwf (Hx & Hy & Hxw & Hyh & _). pose proof (wf_open s Hwf) as Ho.
  rewrite draw_rectangle_put_cells by exact Ho.
  destruct (iterM_put_cell_spec (mkCell space fg (final_bg_color bg s))
              (rect_positions x y width height) s Hwf) as (s' & E & _ & Hc).
  exists s'. split; [exact E|]. split.
  - intros cx cy Hb. rewrite (Hc cx cy Hb).
    pose proof (in_rect_positions x y width height cx cy Hx Hy Hxw Hyh) as Hin.
    destruct (in_rectangle x y width height cx cy).
    + rewrite decide_True by (now apply Hin). reflexivity.
    + rewrite decide_False; [reflexivity|]. intros H. apply Hin in H. discriminate.
  - intros Hdeg. assert (Hnil : rect_positions x y width height = []).
    { unfold rect_positions. destruct Hdeg as [Hw|Hh].
      - rewrite (seqZ_nil 0 width) by lia. cbn [map].
        induction (seqZ 0 height); [reflexivity|assumption].
      - now rewrite (seqZ_nil 0 height) by lia. }
    rewrite Hnil in E. cbn [iterM] in E. congruence.
Qed.

Lemma draw_rectangle_geometry_witness :
  exists s',
    TR_DrawRectangle (-1) 1 3 5 RED BLUE demo_session = Ok s' /\
    (forall cx cy, in_bounds demo_session cx cy = true ->
       cell_at s' cx cy =
       if in_rectangle (-1) 1 3 5 cx cy
       then Some (mkCell space RED (final_bg_color BLUE demo_session))
       else cell_at demo_session cx cy) /\
    (3 <= 0 \/ 5 <= 0 -> s' = demo_session).
Proof.
  apply (draw_rectangle_geometry (-1) 1 3 5 RED BLUE demo_session demo_session_wf).
  unfold corners_in_range, in_range, INT_MIN, INT_MAX. lia.
Defined.

Lemma in_border_positions x y w h cx cy :
  corners_in_range x y w h ->
  (cx, cy) ∈ border_positions x y w h <-> on_border x y w h cx cy = true.
Proof.
  intros (Hx & Hy & Hxw & Hyh & Hxw1 & Hyh1 & Hh1).
  unfold border_positions, addressed, on_border.
  rewrite (wrap32_id (h - 1)) by exact Hh1.
  rewrite (wrap32_id (y + h)) by exact Hyh.
  rewrite (wrap32_id (x + w)) by exact Hxw.
  rewrite (wrap32_id (y + h - 1)) by exact Hyh1.
  rewrite (wrap32_id (x + w - 1)) by exact Hxw1.
  rewrite elem_of_app, !list_elem_of_In, !in_flat_map.
  rewrite orb_true_iff, !andb_true_iff, !orb_true_iff, !Z.leb_le, !Z.ltb_lt,
    !Z.eqb_eq.
  split.
  - intros [(i & Hi & Hp)|(j & Hj & Hp)].
    + apply list_elem_of_In, elem_of_seqZ in Hi.
      rewrite wrap32_id in Hp by (unfold in_range, INT_MIN, INT_MAX in *; lia).
      destruct Hp as [[= <- <-]|[[= <- <-]|[]]]; lia.
    + apply list_elem_of_In, elem_of_seqZ in Hj.
      rewrite wrap32_id in Hp by (unfold in_range, INT_MIN, INT_MAX in *; lia).
      destruct Hp as [[= <- <-]|[[= <- <-]|[]]]; lia.
  - intros [[[H1 H2] H3]|[[H1 H2] H3]].
    + left. exists (cx - x). split.
      * apply list_elem_of_In, elem_of_seqZ. lia.
      * rewrite wrap32_id by (unfold in_range, INT_MIN, INT_MAX in *; lia).
        replace (x + (cx - x)) with cx by lia.
        destruct H3 as [->| ->]; [left|right; left]; reflexivity.
    + right. exists (cy - y). split.
      * apply list_elem_of_In, elem_of_seqZ. lia.
      * rewrite wrap32_id by (unfold in_range, INT_MIN, INT_MAX in *; lia).
        replace (y + (cy - y)) with cy by lia.
        destruct H1 as [->| ->]; [left|right; left]; reflexivity.
Qed.

(** X5. When no coordinate sum wraps, [TR_DrawRectangleLines] writes the
    glyph [#] to exactly the in-bounds cells of the top and bottom rows
    and, between them, of the columns [x] and [x + width - 1], and changes
    no other cell; so a rectangle of width 0 and height at least 3 still
    draws the two columns [x] and [x - 1]. *)
Theorem draw_rectangle_lines_cells (x y width height : Z) (fg bg : Color)
    (s : Engine) :
  wf s -> corners_in_range x y width height ->
  exists s',
    TR_DrawRectangleLines x y width height fg bg s = Ok s' /\
    (forall cx cy, in_bounds s cx cy = true ->
       cell_at s' cx cy =
       if on_border x y width height cx cy
       then Some (mkCell hash fg (final_bg_color bg s))
       else cell_at s cx cy) /\
    (width = 0 -> forall cy, y + 1 <= cy < y + height - 1 ->
       on_border x y width height x cy = true /\
       on_border x y width height (x - 1) cy = true).
Proof.
  intros Hwf Hcorners. pose proof (wf_open s Hwf) as Ho.
  rewrite draw_rectangle_lines_put_cells by exact Ho.
  destruct (iterM_put_cell_spec (mkCell hash fg (final_bg_color bg s))
              (border_positions x y width height) s Hwf) as (s' & E & _ & Hc).
  exists s'. split; [exact E|]. split.
  - intros cx cy Hb. rewrite (Hc cx cy Hb).
    pose proof (in_border_positions x y width height cx cy Hcorners) as Hin.
    destruct (on_border x y width height cx cy).
    + rewrite decide_True by (now apply Hin). reflexivity.
    + rewrite decide_False; [reflexivity|]. intros H. apply Hin in H. discriminate.
  - intros -> cy Hcy. unfold on_border.
    rewrite !orb_true_iff, !andb_true_iff, !orb_true_iff, !Z.leb_le, !Z.ltb_lt,
      !Z.eqb_eq. split; right; lia.
Qed.

Lemma draw_rectangle_lines_cells_witness :
  exists s',
    TR_DrawRectangleLines 0 0 4 3 RED BLANK demo_session = Ok s' /\
    (forall cx cy, in_bounds demo_session cx cy = true ->
       cell_at s' cx cy =
       if on_border 0 0 4 3 cx cy
       then Some (mkCell hash RED (final_bg_color BLANK demo_session))
       else cell_at demo_session cx cy) /\
    (4 = 0 -> forall cy, 0 + 1 <= cy < 0 + 3 - 1 ->
       on_border 0 0 4 3 0 cy = true /\ on_border 0 0 4 3 (0 - 1) cy = true).
Proof.
  apply (draw_rectangle_lines_cells 0 0 4 3 RED BLANK demo_session demo_session_wf).
  unfold corners_in_range, in_range, INT_MIN, INT_MAX. lia.
Defined.

(** ** The life cycle of a window *)

(** X6. On a closed engine, with an allocator that returns blocks of the
    requested size and a terminal whose area is an [int], [TR_InitWindow]
    exits with status 1 exactly when the terminal reports a zero dimension
    or an allocation fails; otherwise the session is open, satisfies the
    invariant, both frames are blank black cells, and the key, the frame
    period and the background are reset. *)
Theorem init_window_outcome (width height : Z) (title : string) (t : Terminal)
    (h : Heap) (sigaction_ok : bool) (s : Engine) :
  __tr_window_open s = false ->
  honest h ->
  0 <= TR_GetScreenWidth t -> 0 <= TR_GetScreenHeight t ->
  TR_GetScreenWidth t * TR_GetScreenHeight t <= INT_MAX ->
  let area := TR_GetScreenWidth t * TR_GetScreenHeight t in
  match alloc_cells h area, alloc_floats h area with
  | Some _, Some zb =>
      if (TR_GetScreenWidth t =? 0) || (TR_GetScreenHeight t =? 0)
      then TR_InitWindow width height title t h sigaction_ok s = Exit 1
      else exists s',
        TR_InitWindow width height title t h sigaction_ok s = Ok s' /\
        wf s' /\
        __tr_screen_buffer s' = replicate (Z.to_nat area) blank_cell /\
        __tr_prev_screen_buffer s' = replicate (Z.to_nat area) blank_cell /\
        __tr_z_buffer s' = zb /\
        __tr_key_buffer s' = 0 /\ __tr_frame_time_us s' = 0 /\
        __tr_current_bg_color s' = BLACK
  | _, _ => TR_InitWindow width height title t h sigaction_ok s = Exit 1
  end.
Proof.
  intros Hclosed Hh Hw Hht Ha area.
  pose proof (fun s' => init_window_wf width height title t h sigaction_ok s s'
                          Hclosed Hh Hw Hht Ha) as Hwf.
  destruct Hh as [Hc Hf].
  unfold TR_InitWindow in *. rewrite Hclosed in *.
  set (bw := TR_GetScreenWidth t) in *. set (bh := TR_GetScreenHeight t) in *.
  fold area in Hwf |- *.
  destruct (alloc_cells h area) as [screen|] eqn:Es;
    [|destruct ((bw =? 0) || (bh =? 0)); reflexivity].
  destruct ((bw =? 0) || (bh =? 0)) eqn:E0.
  { destruct (alloc_floats h area); reflexivity. }
  apply orb_false_elim in E0 as [E1 E2]. apply Z.eqb_neq in E1, E2.
  assert (Hwrap : wrap32 area = area)
    by (apply wrap32_id; unfold area, in_range, INT_MIN, INT_MAX in *; nia).
  rewrite Hwrap in *.
  destruct (alloc_floats h area) as [zbuf|] eqn:Ez; [|reflexivity].
  apply Hc in Es; [|unfold area; nia].
  rewrite (fill_cells_all _ _ screen Es) in *. cbn [bind] in *.
  eexists. split; [reflexivity|]. split; [now apply Hwf|].
  cbn [__tr_screen_buffer __tr_prev_screen_buffer __tr_z_buffer __tr_key_buffer
       __tr_frame_time_us __tr_current_bg_color].
  replace (length screen) with (Z.to_nat area) by lia. repeat split.
Qed.

Lemma demo_heap_honest : honest demo_heap.
Proof.
  split; intros n l Hn [= <-]; rewrite length_replicate; lia.
Qed.

Lemma init_window_outcome_witness :
  exists s',
    TR_InitWindow 80 25 "demo" demo_terminal demo_heap true initial_engine = Ok s' /\
    wf s' /\
    __tr_screen_buffer s' = replicate (Z.to_nat (4 * 3)) blank_cell /\
    __tr_prev_screen_buffer s' = replicate (Z.to_nat (4 * 3)) blank_cell /\
    __tr_z_buffer s' = replicate (Z.to_nat (4 * 3)) F32.zero /\
    __tr_key_buffer s' = 0 /\ __tr_frame_time_us s' = 0 /\
    __tr_current_bg_color s' = BLACK.
Proof.
  apply (init_window_outcome 80 25 "demo" demo_terminal demo_heap true
           initial_engine eq_refl demo_heap_honest);
    cbv; discriminate.
Defined.

Lemma begin_drawing_eq t now i s :
  wf s ->
  TR_GetScreenWidth t = __tr_initial_width s ->
  TR_GetScreenHeight t = __tr_initial_height s ->
  TR_BeginDrawing t now i s =
  Ok (set_screen_buffer
        (replicate (length (__tr_screen_buffer s))
           (mkCell space (__tr_current_bg_color s) (__tr_current_bg_color s)))
        (set_key_buffer (__tr_get_key_nonblocking i)
           (set_last_frame_start_ns now s))).
Proof.
  intros Hwf Hw Hh. unfold TR_BeginDrawing.
  rewrite (wf_open s Hwf), Hw, Hh, !Z.eqb_refl. cbn [negb orb].
  cbn [set_key_buffer set_last_frame_start_ns __tr_buffer_width
       __tr_buffer_height __tr_screen_buffer __tr_current_bg_color].
  rewrite (wf_area_wrap s Hwf), fill_cells_all by (apply (wf_screen s Hwf)).
  reflexivity.
Qed.

(** X7. On an open session [TR_BeginDrawing] exits with status 1 exactly
    when the terminal size differs from the size recorded at open;
    otherwise it erases the whole frame to the current background, stores
    the polled key and the clock, and leaves the previous frame and the
    terminal output alone. *)
Theorem begin_drawing_outcome (t : Terminal) (now : Z) (i : Stdin) (s : Engine) :
  wf s ->
  if (TR_GetScreenWidth t =? __tr_initial_width s) &&
     (TR_GetScreenHeight t =? __tr_initial_height s)
  then exists s',
    TR_BeginDrawing t now i s = Ok s' /\ wf s' /\
    __tr_screen_buffer s' =
      replicate (length (__tr_screen_buffer s))
        (mkCell space (__tr_current_bg_color s) (__tr_current_bg_color s)) /\
    __tr_prev_screen_buffer s' = __tr_prev_screen_buffer s /\
    __tr_last_frame_start_ns s' = now /\
    out s' = out s
  else TR_BeginDrawing t now i s = Exit 1.
Proof.
  intros Hwf.
  destruct (TR_GetScreenWidth t =? __tr_initial_width s) eqn:Ew;
    [destruct (TR_GetScreenHeight t =? __tr_initial_height s) eqn:Eh|];
    cbn [andb].
  - apply Z.eqb_eq in Ew, Eh. rewrite (begin_drawing_eq t now i s Hwf Ew Eh).
    eexists. split; [reflexivity|]. split; [|repeat split].
    destruct Hwf as [H1 H2 H3 H4 H5 H6 H7 H8].
    split; cbn [set_screen_buffer set_key_buffer set_last_frame_start_ns
                __tr_window_open __tr_buffer_width __tr_buffer_height
                __tr_screen_buffer __tr_prev_screen_buffer __tr_z_buffer
                __tr_z_buffer_size]; auto.
    now rewrite length_replicate.
  - unfold TR_BeginDrawing. rewrite (wf_open s Hwf), Ew, Eh. reflexivity.
  - unfold TR_BeginDrawing. rewrite (wf_open s Hwf), Ew. reflexivity.
Qed.

Lemma begin_drawing_outcome_witness :
  TR_BeginDrawing (mkTerminal true 5 3) 0 idle_stdin demo_session = Exit 1.
Proof.
  exact (begin_drawing_outcome (mkTerminal true 5 3) 0 idle_stdin demo_session
           demo_session_wf).
Defined.

Lemma clear_background_eq color s :
  wf s ->
  TR_ClearBackground color s =
  Ok (set_screen_buffer
        (replicate (length (__tr_screen_buffer s)) (mkCell space color color))
        (set_current_bg_color color s)).
Proof.
  intros Hwf. unfold TR_ClearBackground. rewrite (wf_open s Hwf). cbn [negb].
  cbn [set_current_bg_color __tr_buffer_width __tr_buffer_height
       __tr_screen_buffer].
  rewrite (wf_area_wrap s Hwf), fill_cells_all by (apply (wf_screen s Hwf)).
  reflexivity.
Qed.

(** X8. [TR_ClearBackground] fills the whole frame with solid cells of the
    colour and remembers it: the next [TR_BeginDrawing] rebuilds the very
    same frame, and the inherit sentinel then resolves to that colour. *)
Theorem clear_background_persists (color : Color) (t : Terminal) (now : Z)
    (i : Stdin) (s : Engine) :
  wf s ->
  TR_GetScreenWidth t = __tr_initial_width s ->
  TR_GetScreenHeight t = __tr_initial_height s ->
  exists s1 s2,
    TR_ClearBackground color s = Ok s1 /\
    __tr_screen_buffer s1 =
      replicate (length (__tr_screen_buffer s)) (mkCell space color color) /\
    TR_BeginDrawing t now i s1 = Ok s2 /\
    __tr_screen_buffer s2 = __tr_screen_buffer s1 /\
    final_bg_color BLANK s2 = color.
Proof.
  intros Hwf Hw Hh. rewrite (clear_background_eq color s Hwf).
  eexists. eexists. split; [reflexivity|]. split; [reflexivity|].
  rewrite begin_drawing_eq; [| |exact Hw|exact Hh].
  - split; [reflexivity|]. split; [|reflexivity].
    cbn [set_screen_buffer set_current_bg_color set_key_buffer
         set_last_frame_start_ns __tr_screen_buffer __tr_current_bg_color].
    now rewrite length_replicate.
  - destruct Hwf as [H1 H2 H3 H4 H5 H6 H7 H8].
    split; cbn [set_screen_buffer set_current_bg_color
                __tr_window_open __tr_buffer_width __tr_buffer_height
                __tr_screen_buffer __tr_prev_screen_buffer __tr_z_buffer
                __tr_z_buffer_size]; auto.
    now rewrite length_replicate.
Qed.

Lemma clear_background_persists_witness :
  exists s1 s2,
    TR_ClearBackground BLUE demo_session = Ok s1 /\
    __tr_screen_buffer s1 =
      replicate (length (__tr_screen_buffer demo_session))
        (mkCell space BLUE BLUE) /\
    TR_BeginDrawing demo_terminal 9 idle_stdin s1 = Ok s2 /\
    __tr_screen_buffer s2 = __tr_screen_buffer s1 /\
    final_bg_color BLANK s2 = BLUE.
Proof.
  apply (clear_background_persists BLUE demo_terminal 9 idle_stdin demo_session
           demo_session_wf); reflexivity.
Defined.

Lemma cell_changed_refl c : cell_changed c c = false.
Proof.
  apply cell_unchanged_same_rgb; [reflexivity|repeat split..].
Qed.

Lemma changed_positions_same_frames s :
  __tr_prev_screen_buffer s = __tr_screen_buffer s -> changed_positions s = [].
Proof.
  intros E. unfold changed_positions.
  induction (positions_row_major _ _) as [|p l IH]; [reflexivity|].
  rewrite filter_cons, IH. rewrite decide_False; [reflexivity|].
  unfold changed_at, cell_at, prev_cell_at. rewrite E.
  destruct (__tr_screen_buffer s !! _); [|discriminate].
  rewrite cell_changed_refl. discriminate.
Qed.

(** The state [TR_EndDrawing] returns on an open session. *)
Lemma end_drawing_eq now s :
  wf s ->
  TR_EndDrawing now s =
  Ok (emit (pace_events now s)
        (set_prev_screen_buffer (__tr_screen_buffer s)
           (emit (flat_map (write_events s) (changed_positions s) ++ [EvFlush]) s))).
Proof.
  intros Hwf.
  assert (Escan :
    for_range 0 (__tr_buffer_height s)
      (fun y => for_range 0 (__tr_buffer_width s) (fun x => flush_cell y x)) s =
    Ok (emit (flat_map (write_events s) (changed_positions s)) s)).
  { unfold for_range. rewrite !Z.sub_0_r.
    rewrite (iterM_nested_map (fun x y => (x, y))
               (fun p => flush_cell (snd p) (fst p))).
    pose proof (flush_scan_spec s
      (positions_row_major (__tr_buffer_width s) (__tr_buffer_height s))
      [] Hwf) as Hsc.
    rewrite emit_nil in Hsc. apply Hsc.
    intros [x y] Hp. apply in_positions_row_major in Hp.
    now apply in_bounds_iff. }
  unfold TR_EndDrawing. rewrite (wf_open s Hwf). cbn [negb].
  rewrite Escan. cbn [bind]. rewrite emit_emit.
  cbn [emit __tr_buffer_width __tr_buffer_height __tr_screen_buffer
       __tr_prev_screen_buffer].
  unfold memcpy_cells.
  assert (Hlen : Z.of_nat (length (__tr_prev_screen_buffer s)) =
                 Z.of_nat (length (__tr_screen_buffer s)))
    by (rewrite (wf_screen s Hwf); apply (wf_prev s Hwf)).
  rewrite <- (wf_screen s Hwf), Hlen, Z.leb_refl, (proj2 (Z.leb_le 0 _)) by lia.
  rewrite Nat2Z.id, take_ge, drop_ge, app_nil_r by lia. cbn [andb bind].
  now rewrite pace_frame_emit.
Qed.

Lemma end_drawing_wf now s s' : wf s -> TR_EndDrawing now s = Ok s' -> wf s'.
Proof.
  intros Hwf E. rewrite (end_drawing_eq now s Hwf) in E. injection E as <-.
  destruct Hwf as [H1 H2 H3 H4 H5 H6 H7 H8].
  split; cbn [emit set_prev_screen_buffer __tr_window_open __tr_buffer_width
              __tr_buffer_height __tr_screen_buffer __tr_prev_screen_buffer
              __tr_z_buffer __tr_z_buffer_size]; auto.
Qed.

(** X9. A second [TR_EndDrawing] with nothing drawn in between writes no
    cell: it adds only the flush and the pacing sleep to the output. *)
Theorem end_drawing_twice_writes_nothing (now now' : Z) (s : Engine) :
  wf s ->
  exists s1 s2,
    TR_EndDrawing now s = Ok s1 /\
    TR_EndDrawing now' s1 = Ok s2 /\
    out s2 = out s1 ++ EvFlush :: pace_events now' s1 /\
    __tr_screen_buffer s2 = __tr_screen_buffer s /\
    __tr_prev_screen_buffer s2 = __tr_screen_buffer s.
Proof.
  intros Hwf.
  pose proof (end_drawing_eq now s Hwf) as E1.
  set (s1 := emit (pace_events now s) _) in E1.
  assert (Hwf1 : wf s1) by (eapply end_drawing_wf; eauto).
  pose proof (end_drawing_eq now' s1 Hwf1) as E2.
  rewrite (changed_positions_same_frames s1 eq_refl) in E2.
  cbn [flat_map app] in E2.
  exists s1. eexists. split; [exact E1|]. split; [exact E2|].
  split; [|split; reflexivity].
  cbn [emit out set_prev_screen_buffer]. now rewrite <- app_assoc.
Qed.

Lemma end_drawing_twice_writes_nothing_witness :
  exists s1 s2,
    TR_EndDrawing 3 alpha_only_session = Ok s1 /\
    TR_EndDrawing 8 s1 = Ok s2 /\
    out s2 = out s1 ++ EvFlush :: pace_events 8 s1 /\
    __tr_screen_buffer s2 = __tr_screen_buffer alpha_only_session /\
    __tr_prev_screen_buffer s2 = __tr_screen_buffer alpha_only_session.
Proof.
  apply (end_drawing_twice_writes_nothing 3 8 alpha_only_session).
  split; simpl; unfold INT_MAX; try reflexivity; lia.
Defined.

Lemma init_window_eq width height title t h sigaction_ok s screen zb :
  __tr_window_open s = false ->
  0 < TR_GetScreenWidth t -> 0 < TR_GetScreenHeight t ->
  TR_GetScreenWidth t * TR_GetScreenHeight t <= INT_MAX ->
  alloc_cells h (TR_GetScreenWidth t * TR_GetScreenHeight t) = Some screen ->
  alloc_floats h (TR_GetScreenWidth t * TR_GetScreenHeight t) = Some zb ->
  Z.of_nat (length screen) = TR_GetScreenWidth t * TR_GetScreenHeight t ->
  TR_InitWindow width height title t h sigaction_ok s =
  Ok (mkEngine true 0 0 (replicate (length screen) blank_cell)
        (replicate (length screen) blank_cell)
        (TR_GetScreenWidth t) (TR_GetScreenHeight t) BLACK
        (TR_GetScreenWidth t) (TR_GetScreenHeight t) zb
        (TR_GetScreenWidth t * TR_GetScreenHeight t)
        (__tr_last_frame_start_ns s)
        (out s ++ ([EvRawMode; EvSigintIgnore] ++
                   (if sigaction_ok then [] else
                      [EvStderr "TREAD WARNING: Could not set SIGINT handler. Ctrl+C might still terminate the app."])) ++
           __tr_set_console_title title ++ __tr_set_cursor_visibility false ++
           __tr_clear_screen_direct BLACK ++ [EvFlush])).
Proof.
  intros Hclosed Hw Hh Ha Es Ez Hl. unfold TR_InitWindow. rewrite Hclosed.
  rewrite (proj2 (Z.eqb_neq _ 0)), (proj2 (Z.eqb_neq _ 0)) by lia. cbn [orb].
  rewrite wrap32_id by (unfold in_range, INT_MIN, INT_MAX in *; nia).
  rewrite Es, Ez, (fill_cells_all _ _ screen Hl). reflexivity.
Qed.

(** X10. Opening a window and running an empty frame sends no cell to the
    terminal: after [TR_InitWindow], [TR_BeginDrawing] and
    [TR_EndDrawing] the output is that of the open followed by one flush. *)
Theorem first_frame_writes_nothing (width height : Z) (title : string)
    (t : Terminal) (h : Heap) (sigaction_ok : bool) (now now' : Z) (i : Stdin)
    (s s0 : Engine) :
  __tr_window_open s = false ->
  honest h ->
  0 <= TR_GetScreenWidth t -> 0 <= TR_GetScreenHeight t ->
  TR_GetScreenWidth t * TR_GetScreenHeight t <= INT_MAX ->
  TR_InitWindow width height title t h sigaction_ok s = Ok s0 ->
  exists s1 s2,
    TR_BeginDrawing t now i s0 = Ok s1 /\
    TR_EndDrawing now' s1 = Ok s2 /\
    out s2 = out s0 ++ [EvFlush].
Proof.
  intros Hclosed Hh Hw Hht Ha Hinit.
  pose proof (init_window_wf _ _ _ _ _ _ _ _ Hclosed Hh Hw Hht Ha Hinit) as Hwf0.
  assert (Hst : __tr_prev_screen_buffer s0 =
                  replicate (length (__tr_screen_buffer s0)) blank_cell /\
                __tr_current_bg_color s0 = BLACK /\
                __tr_frame_time_us s0 = 0 /\
                __tr_initial_width s0 = TR_GetScreenWidth t /\
                __tr_initial_height s0 = TR_GetScreenHeight t).
  { pose proof Hinit as Hi. unfold TR_InitWindow in Hi. rewrite Hclosed in Hi.
    destruct ((TR_GetScreenWidth t =? 0) || (TR_GetScreenHeight t =? 0)) eqn:E0;
      [discriminate|].
    apply orb_false_elim in E0 as [E1 E2]. apply Z.eqb_neq in E1, E2.
    rewrite wrap32_id in Hi by (unfold in_range, INT_MIN, INT_MAX in *; nia).
    destruct (alloc_cells h _) as [screen|] eqn:Es; [|discriminate].
    destruct (alloc_floats h _) as [zbuf|] eqn:Ez; [|discriminate].
    clear Hi. destruct Hh as [Hc Hf].
    assert (Hnn : 0 <= TR_GetScreenWidth t * TR_GetScreenHeight t)
      by (apply Z.mul_nonneg_nonneg; assumption).
    pose proof (Hc _ _ Hnn Es) as Hl.
    rewrite (init_window_eq _ _ _ _ _ _ _ screen zbuf Hclosed) in Hinit
      by first [lia|assumption].
    injection Hinit as <-.
    cbn [__tr_prev_screen_buffer __tr_screen_buffer __tr_current_bg_color
         __tr_frame_time_us __tr_initial_width __tr_initial_height].
    rewrite length_replicate. repeat split. }
  destruct Hst as (Hprev & Hbg & Hft & Hiw & Hih).
  pose proof (begin_drawing_eq t now i s0 Hwf0 (eq_sym Hiw) (eq_sym Hih)) as Eb.
  set (s1 := set_screen_buffer _ _) in Eb.
  assert (Hwf1 : wf s1).
  { destruct Hwf0 as [H1 H2 H3 H4 H5 H6 H7 H8].
    split; cbn [s1 set_screen_buffer set_key_buffer set_last_frame_start_ns
                __tr_window_open __tr_buffer_width __tr_buffer_height
                __tr_screen_buffer __tr_prev_screen_buffer __tr_z_buffer
                __tr_z_buffer_size]; auto.
    now rewrite length_replicate. }
  pose proof (end_drawing_eq now' s1 Hwf1) as Ee.
  assert (Hsame : __tr_prev_screen_buffer s1 = __tr_screen_buffer s1).
  { cbn [s1 set_screen_buffer set_key_buffer set_last_frame_start_ns
         __tr_screen_buffer __tr_prev_screen_buffer].
    now rewrite Hprev, Hbg. }
  rewrite (changed_positions_same_frames s1 Hsame) in Ee. cbn [flat_map app] in Ee.
  exists s1. eexists. split; [exact Eb|]. split; [exact Ee|].
  unfold pace_events.
  change (__tr_frame_time_us (set_prev_screen_buffer _ (emit _ s1)))
    with (__tr_frame_time_us s0).
  cbn [emit out set_prev_screen_buffer].
  change (__tr_frame_time_us s1) with (__tr_frame_time_us s0).
  rewrite Hft. cbn [Z.ltb Z.compare app]. now rewrite app_nil_r.
Qed.

Lemma first_frame_writes_nothing_witness :
  exists s1 s2,
    TR_BeginDrawing demo_terminal 1 idle_stdin demo_session = Ok s1 /\
    TR_EndDrawing 2 s1 = Ok s2 /\
    out s2 = out demo_session ++ [EvFlush].
Proof.
  apply (first_frame_writes_nothing 80 25 "demo" demo_terminal demo_heap true
           1 2 idle_stdin initial_engine demo_session eq_refl demo_heap_honest);
    [cbv; discriminate..|reflexivity].
Defined.

(** X11. After [TR_CloseWindow] the window is closed and every 2D drawing
    call, [TR_BeginDrawing], [TR_EndDrawing], [TR_ClearBackground] and a
    second [TR_CloseWindow] return at once, leaving the state untouched:
    the freed buffers are never accessed through them. *)
Theorem close_window_disables_calls (sigaction_ok : bool) (s : Engine) :
  let s' := TR_CloseWindow sigaction_ok s in
  __tr_window_open s' = false /\
  (__tr_window_open s = true ->
   __tr_screen_buffer s' = [] /\ __tr_prev_screen_buffer s' = [] /\
   __tr_z_buffer s' = []) /\
  (forall c, run_call c s' = Ok s') /\
  (forall t now i, TR_BeginDrawing t now i s' = Ok s') /\
  (forall now, TR_EndDrawing now s' = Ok s') /\
  (forall color, TR_ClearBackground color s' = Ok s') /\
  (forall ok, TR_CloseWindow ok s' = s').
Proof.
  intros s'.
  assert (Hc : __tr_window_open s' = false).
  { unfold s', TR_CloseWindow. destruct (__tr_window_open s) eqn:E; [reflexivity|].
    exact E. }
  split; [exact Hc|]. split; [|repeat split].
  - intros Ho. unfold s', TR_CloseWindow. rewrite Ho. repeat split.
  - intros [x y color | [txt|] x y fs fg bg | x y w h fg bg | x y w h fg bg];
      cbn [run_call];
      unfold TR_DrawPixel, TR_DrawText, TR_DrawRectangle, TR_DrawRectangleLines;
      rewrite ?Hc; reflexivity.
  - intros t now i. unfold TR_BeginDrawing. now rewrite Hc.
  - intros now. unfold TR_EndDrawing. now rewrite Hc.
  - intros color. unfold TR_ClearBackground. now rewrite Hc.
  - intros ok. unfold TR_CloseWindow at 1. now rewrite Hc.
Qed.

(** X12. [TR_CloseWindow] frees the depth buffer but keeps
    [__tr_z_buffer_size], and [TR_DrawTriangle3DFilled] tests only that
    size: drawing a filled triangle that covers at least one pixel after
    the window was closed reads the freed depth buffer. *)
Theorem filled_triangle_after_close_faults (v1 v2 v3 : TR_Vector3)
    (mvp : TR_Matrix4x4) (color : Color) (sigaction_ok : bool) (s : Engine) :
  wf s ->
  triangle_fragments (__tr_buffer_width s) (__tr_buffer_height s) v1 v2 v3 mvp
    <> [] ->
  TR_DrawTriangle3DFilled v1 v2 v3 mvp color (TR_CloseWindow sigaction_ok s)
    = Fault.
Proof.
  intros Hwf Hne. rewrite draw_triangle_fragments.
  unfold TR_CloseWindow. rewrite (wf_open s Hwf). cbn [negb].
  cbn [__tr_buffer_width __tr_buffer_height].
  destruct (triangle_fragments _ _ v1 v2 v3 mvp) as [|f fs] eqn:Ef;
    [contradiction|].
  assert (Hin : frag_inside (__tr_buffer_width s) (__tr_buffer_height s) f).
  { destruct Hwf as [_ Hw Hh Ha _ _ _ _].
    apply (triangle_fragments_in_bounds _ _ v1 v2 v3 mvp);
      [unfold INT_MAX in *; nia..|rewrite Ef; now left]. }
  destruct f as [[x y] z]. unfold frag_inside in Hin. cbn [fst snd] in Hin.
  assert (Hb : in_bounds s x y = true) by (apply in_bounds_iff; exact Hin).
  destruct (cell_index_in_bounds s x y Hwf Hb) as [_ Hr].
  cbn [iterM]. unfold plot, depth_test_draw. cbn [fst snd].
  match goal with
  | |- context [cell_index ?t x y] =>
      change (cell_index t x y) with (cell_index s x y)
  end.
  cbn [__tr_z_buffer_size __tr_z_buffer]. rewrite (wf_z_size s Hwf).
  rewrite (proj2 (Z.leb_le 0 _)), (proj2 (Z.ltb_lt _ _)) by lia.
  cbn [andb]. unfold load. cbn [length].
  rewrite (proj2 (Z.leb_le 0 _)), (proj2 (Z.ltb_ge _ _)) by lia.
  reflexivity.
Qed.

Lemma filled_triangle_after_close_faults_witness :
  TR_DrawTriangle3DFilled near_a1 near_a2 near_a3 TR_MatrixIdentity RED
    (TR_CloseWindow true demo_session) = Fault.
Proof.
  apply (filled_triangle_after_close_faults near_a1 near_a2 near_a3
           TR_MatrixIdentity RED true demo_session demo_session_wf).
  vm_compute. discriminate.
Defined.

(** ** Frame pacing *)

(** X13. After [TR_SetTargetFPS(fps)] the end of a frame sleeps for what
    is left of the period of [1000000 / fps] microseconds, and not at all
    when the period has elapsed; a rate of zero or less, and also any rate
    above 1000000, whose period rounds to zero, switch the pacing off. *)
Theorem target_fps_pacing (fps now : Z) (s : Engine) :
  wf s ->
  let period_ns := 1000000 / fps * 1000 in
  let elapsed := now - __tr_last_frame_start_ns s in
  exists s',
    TR_EndDrawing now (TR_SetTargetFPS fps s) = Ok s' /\
    out s' =
      out s ++ flat_map (write_events s) (changed_positions s) ++
      EvFlush ::
      (if (0 <? fps) && (fps <=? 1000000) && (elapsed <? period_ns)
       then [EvSleep (period_ns - elapsed)] else []).
Proof.
  intros Hwf period_ns elapsed.
  assert (Hwf1 : wf (TR_SetTargetFPS fps s)).
  { destruct Hwf as [H1 H2 H3 H4 H5 H6 H7 H8].
    unfold TR_SetTargetFPS. destruct (0 <? fps); split; auto. }
  rewrite (end_drawing_eq now _ Hwf1). eexists. split; [reflexivity|].
  assert (Hsame : forall u,
            changed_positions (set_frame_time_us u s) = changed_positions s /\
            write_events (set_frame_time_us u s) = write_events s /\
            out (set_frame_time_us u s) = out s) by (intros; repeat split).
  assert (Hp : pace_events now (TR_SetTargetFPS fps s) =
               if (0 <? fps) && (fps <=? 1000000) && (elapsed <? period_ns)
               then [EvSleep (period_ns - elapsed)] else []).
  { unfold pace_events, TR_SetTargetFPS, period_ns, elapsed.
    destruct (0 <? fps) eqn:E0; cbn [andb set_frame_time_us __tr_frame_time_us
                                     __tr_last_frame_start_ns].
    - apply Z.ltb_lt in E0. rewrite Z.quot_div_nonneg by lia.
      destruct (fps <=? 1000000) eqn:E1; cbn [andb].
      + apply Z.leb_le in E1.
        assert (0 < 1000000 / fps) by (apply Z.div_str_pos; lia).
        rewrite (proj2 (Z.ltb_lt 0 _)) by lia. reflexivity.
      + apply Z.leb_gt in E1. rewrite Z.div_small by lia. reflexivity.
    - reflexivity. }
  cbn [emit out set_prev_screen_buffer]. rewrite Hp.
  unfold TR_SetTargetFPS. destruct (0 <? fps);
    destruct (Hsame (Z.quot 1000000 fps)) as (-> & -> & ->) ||
    destruct (Hsame 0) as (-> & -> & ->);
    now rewrite <- !app_assoc.
Qed.

Lemma target_fps_pacing_witness :
  exists s',
    TR_EndDrawing 2000000 (TR_SetTargetFPS 60 demo_session) = Ok s' /\
    out s' =
      out demo_session ++
      flat_map (write_events demo_session) (changed_positions demo_session) ++
      EvFlush ::
      (if (0 <? 60) && (60 <=? 1000000) &&
          (2000000 - __tr_last_frame_start_ns demo_session <? 1000000 / 60 * 1000)
       then [EvSleep (1000000 / 60 * 1000 -
                       (2000000 - __tr_last_frame_start_ns demo_session))]
       else []).
Proof.
  exact (target_fps_pacing 60 2000000 demo_session demo_session_wf).
Defined.

(** ** The palette *)

Lemma map_color_index_range c flag : 0 <= __tr_map_color_to_terminal c flag <= 7.
Proof.
  pose proof (map_color_scan_first_min c (mkColor 0 0 0 255)
                (tl terminal_colors)) as (t & Ht & H0 & _).
  change (mkColor 0 0 0 255 :: tl terminal_colors) with terminal_colors in *.
  fold (__tr_map_color_to_terminal c flag) in Ht, H0.
  apply lookup_lt_Some in Ht. cbn [length terminal_colors] in Ht. lia.
Qed.

(** X14. The nearest palette colour is found channel by channel: the
    index returned by [__tr_map_color_to_terminal] has its red, green and
    blue bit set exactly for the channels of at least 128. *)
Theorem map_color_is_threshold (c : Color) (flag : bool) :
  __tr_map_color_to_terminal c flag = threshold_index c.
Proof.
  pose proof (map_color_scan_first_min c (mkColor 0 0 0 255)
                (tl terminal_colors)) as (t & Ht & H0 & _ & Hle & _).
  change (mkColor 0 0 0 255 :: tl terminal_colors) with terminal_colors in *.
  fold (__tr_map_color_to_terminal c flag) in Ht, H0.
  set (i := __tr_map_color_to_terminal c flag) in *.
  assert (Hj : exists u, terminal_colors !! Z.to_nat (threshold_index c) = Some u /\
                         r u = (if 128 <=? r c then 255 else 0) /\
                         g u = (if 128 <=? g c then 255 else 0) /\
                         b u = (if 128 <=? b c then 255 else 0)).
  { unfold threshold_index.
    destruct (128 <=? r c), (128 <=? g c), (128 <=? b c);
      eexists; (split; [reflexivity|]); repeat split. }
  destruct Hj as (u & Hu & Hur & Hug & Hub).
  specialize (Hle _ _ Hu). unfold dist in Hle. rewrite Hur, Hug, Hub in Hle.
  rewrite <- (Z2Nat.id i H0).
  unfold threshold_index.
  destruct (Z.to_nat i) as [|[|[|[|[|[|[|[|n]]]]]]]];
    try discriminate; injection Ht as <-; cbn [r g b] in Hle;
    destruct (128 <=? r c) eqn:Er, (128 <=? g c) eqn:Eg, (128 <=? b c) eqn:Eb;
    rewrite ?Z.leb_le, ?Z.leb_gt in *; cbn; lia.
Qed.

(** X15. [__tr_set_terminal_color] emits one SGR sequence whose two
    parameters are always codes of the 16-colour ANSI palette: 30-37 or
    90-97 for the foreground, 40-47 or 100-107 for the background. *)
Theorem set_terminal_color_codes (fg bg : Color) :
  exists f k,
    __tr_set_terminal_color fg bg = [EvSgr f k] /\
    ansi_fg_code f /\ ansi_bg_code k.
Proof.
  unfold __tr_set_terminal_color, ansi_fg_code, ansi_bg_code.
  pose proof (map_color_index_range fg false).
  pose proof (map_color_index_range bg true).
  eexists. eexists. split; [reflexivity|].
  destruct ((128 <? r fg) || (128 <? g fg) || (128 <? b fg)),
           ((128 <? r bg) || (128 <? g bg) || (128 <? b bg)); lia.
Qed.

(** ** The keyboard *)

Lemma get_key_cases i :
  let k := __tr_get_key_nonblocking i in
  k <> TR_KEY_ESCAPE /\
  (k = 0 \/ TR_KEY_UP <= k <= TR_KEY_F12 \/
   exists rest, read_chars i = k :: rest).
Proof.
  unfold __tr_get_key_nonblocking.
  destruct (select_ready i); [|cbv; split; [discriminate|auto]].
  destruct (read_chars i) as [|c rest] eqn:Er; [cbv; split; [discriminate|auto]|].
  cbn [length app nth].
  replace (0 <? Z.of_nat (S (length rest))) with true by (symmetry; apply Z.ltb_lt; lia).
  destruct (c =? 27) eqn:Ec.
  - unfold TR_KEY_ESCAPE, TR_KEY_UP, TR_KEY_DOWN, TR_KEY_LEFT, TR_KEY_RIGHT,
      TR_KEY_F1, TR_KEY_F2, TR_KEY_F3, TR_KEY_F4, TR_KEY_F5, TR_KEY_F6,
      TR_KEY_F7, TR_KEY_F8, TR_KEY_F9, TR_KEY_F10, TR_KEY_F11, TR_KEY_F12.
    repeat match goal with
           | |- context [if ?c then _ else _] => destruct c
           end; split; lia.
  - apply Z.eqb_neq in Ec. split; [exact Ec|]. right. right. eauto.
Qed.

(** X16. The key poll never reports the escape key: its result is 0, one
    of the sixteen arrow and function codes (256-271), or the first
    character read, which is then not ESC; further characters of the same
    read are dropped. *)
Theorem get_key_never_escape (i : Stdin) :
  __tr_get_key_nonblocking i <> TR_KEY_ESCAPE /\
  (__tr_get_key_nonblocking i = 0 \/
   TR_KEY_UP <= __tr_get_key_nonblocking i <= TR_KEY_F12 \/
   exists rest, read_chars i = __tr_get_key_nonblocking i :: rest).
Proof. exact (get_key_cases i). Qed.

(** X17. After [TR_BeginDrawing] on an open session whose terminal kept
    its size, [TR_WindowShouldClose] holds exactly when the key polled in
    that call is [q]; the escape key never closes the window.  Once
    [TR_GetKeyPressed] has taken the key the test is false again. *)
Theorem window_closes_only_on_q (t : Terminal) (now : Z) (i : Stdin) (s : Engine) :
  wf s ->
  TR_GetScreenWidth t = __tr_initial_width s ->
  TR_GetScreenHeight t = __tr_initial_height s ->
  exists s',
    TR_BeginDrawing t now i s = Ok s' /\
    TR_WindowShouldClose s' = (__tr_get_key_nonblocking i =? 113) /\
    TR_WindowShouldClose (snd (TR_GetKeyPressed s')) = false /\
    fst (TR_GetKeyPressed s') = __tr_get_key_nonblocking i.
Proof.
  intros Hwf Hw Hh. eexists. split; [apply begin_drawing_eq; assumption|].
  unfold TR_WindowShouldClose, TR_GetKeyPressed. cbn.
  destruct (get_key_cases i) as [Hne _]. unfold TR_KEY_ESCAPE in Hne.
  apply Z.eqb_neq in Hne. rewrite Hne. auto.
Qed.

Lemma window_closes_only_on_q_witness :
  exists s',
    TR_BeginDrawing demo_terminal 0 (mkStdin true [27] []) demo_session = Ok s' /\
    TR_WindowShouldClose s' = false.
Proof.
  destruct (window_closes_only_on_q demo_terminal 0 (mkStdin true [27] [])
              demo_session demo_session_wf eq_refl eq_refl)
    as (s' & Hb & Hc & _).
  exists s'. split; [exact Hb|]. rewrite Hc. reflexivity.
Defined.

(** X18. For input made of [char] values the codes of F5 to F12 are
    returned only for a read of exactly four bytes, and only when the two
    bytes of the stack buffer behind them, which the read did not write,
    hold a tilde and a NUL: the comparison reads past the received
    bytes. *)
Theorem function_keys_read_stale_bytes (i : Stdin) :
  Forall (fun c => -128 <= c <= 255) (read_chars i) ->
  TR_KEY_F5 <= __tr_get_key_nonblocking i <= TR_KEY_F12 ->
  length (read_chars i) = 4%nat /\
  nth 4 (buf_before i) 0 = 126 /\ nth 5 (buf_before i) 0 = 0.
Proof.
  intros Hc. unfold __tr_get_key_nonblocking.
  unfold TR_KEY_ESCAPE, TR_KEY_UP, TR_KEY_DOWN, TR_KEY_LEFT, TR_KEY_RIGHT,
    TR_KEY_F1, TR_KEY_F2, TR_KEY_F3, TR_KEY_F4, TR_KEY_F5, TR_KEY_F6,
    TR_KEY_F7, TR_KEY_F8, TR_KEY_F9, TR_KEY_F10, TR_KEY_F11, TR_KEY_F12.
  destruct (select_ready i); [|intros; lia].
  destruct (read_chars i) as [|c rest] eqn:Er; [change (0 <? Z.of_nat (length (@nil Z))) with false; cbn iota; intros; lia|].
  cbn [length app nth].
  replace (0 <? Z.of_nat (S (length rest))) with true by (symmetry; apply Z.ltb_lt; lia).
  destruct (c =? 27); [|inversion Hc; subst; intros; lia].
  destruct ((Z.of_nat (S (length rest)) =? 3) && _);
    [repeat match goal with
            | |- context [if ?c then _ else _] => destruct c
            end; intros; lia|].
  destruct ((Z.of_nat (S (length rest)) =? 3) && _);
    [repeat match goal with
            | |- context [if ?c then _ else _] => destruct c
            end; intros; lia|].
  destruct (Z.of_nat (S (length rest)) =? 4) eqn:E4; [|cbn; intros; lia].
  apply Z.eqb_eq in E4.
  destruct rest as [|c1 [|c2 [|c3 [|c4 rest]]]]; cbn [length] in E4; try lia.
  cbn [andb length drop nth app]. unfold tail_is. cbn [nth app].
  intros H.
  assert (Hs : (nth 4 (c :: c1 :: c2 :: c3 :: drop 4 (buf_before i)) 0 =? 126) &&
               (nth 5 (c :: c1 :: c2 :: c3 :: drop 4 (buf_before i)) 0 =? 0) = true).
  { revert H.
    repeat match goal with
           | |- context [if ?c then _ else _] => destruct c eqn:?
           end; intros; try lia;
    repeat match goal with
           | H : _ && _ = true |- _ => apply andb_prop in H; destruct H
           end; apply andb_true_intro; split; assumption. }
  apply andb_prop in Hs. destruct Hs as [H4 H5].
  apply Z.eqb_eq in H4, H5. cbn [nth] in H4, H5.
  rewrite nth_lookup, lookup_drop in H4, H5.
  rewrite !nth_lookup. auto.
Qed.

Lemma function_keys_read_stale_bytes_witness :
  __tr_get_key_nonblocking stale_f5_input = TR_KEY_F5 /\
  nth 4 (buf_before stale_f5_input) 0 = 126.
Proof.
  split; [reflexivity|].
  apply (function_keys_read_stale_bytes stale_f5_input).
  - cbn. repeat constructor; lia.
  - cbv. split; discriminate.
Defined.

(** ** Lines *)

Lemma line_points_inv x2 y2 dx dy sx sy fuel :
  sx = 1 \/ sx = -1 -> sy = 1 \/ sy = -1 ->
  0 <= dx <= 268435456 -> 0 <= dy <= 268435456 ->
  line_coordinate x2 -> line_coordinate y2 ->
  forall x y err ra rb,
    0 <= ra <= dx -> 0 <= rb <= dy ->
    x2 = x + sx * ra -> y2 = y + sy * rb ->
    err = dx - dy + dy * ra - dx * rb ->
    - 2 * dy <= err <= 2 * dx ->
    ra + rb < Z.of_nat fuel ->
    exists pts,
      line_points fuel x y x2 y2 dx dy sx sy err = Some ((x, y) :: pts) /\
      last ((x, y) :: pts) = Some (x2, y2) /\
      Forall (fun p => between x x2 (fst p) /\ between y y2 (snd p))
             ((x, y) :: pts) /\
      chain (line_move sx sy) ((x, y) :: pts).
Proof.
  intros Hsx Hsy Hdx Hdy Hx2 Hy2. unfold line_coordinate in *.
  induction fuel as [|fuel IH]; intros x y err ra rb Hra Hrb Ex Ey Eerr Herr Hfuel;
    [lia|].
  cbn [line_points].
  destruct ((x =? x2) && (y =? y2)) eqn:E.
  - apply andb_prop in E as [E1 E2]. apply Z.eqb_eq in E1, E2.
    exists []. split; [reflexivity|]. split; [cbn; now rewrite E1, E2|].
    split; [|cbn; auto].
    constructor; [|constructor]. cbn [fst snd]. unfold between. lia.
  - assert (Hpos : 0 < ra + rb).
    { apply andb_false_iff in E. rewrite !Z.eqb_neq in E.
      destruct (Z.eq_dec ra 0) as [Ea|Ea], (Z.eq_dec rb 0) as [Eb|Eb]; lia. }
    assert (F1 : ra = 0 -> err <= - dy).
    { intros Ea. assert (dx * 1 <= dx * rb) by (apply Z.mul_le_mono_nonneg_l; lia).
      rewrite Ea in Eerr. lia. }
    assert (F2 : rb = 0 -> dx <= err).
    { intros Eb. assert (dy * 1 <= dy * ra) by (apply Z.mul_le_mono_nonneg_l; lia).
      rewrite Eb in Eerr. lia. }
    rewrite (wrap32_id (2 * err)), (wrap32_id (- dy))
      by (unfold in_range, INT_MIN, INT_MAX; lia).
    assert (Hbx : between x x2 x /\ between y y2 y).
    { unfold between. destruct Hsx as [Es|Es], Hsy as [Et|Et];
        rewrite Es in Ex; rewrite Et in Ey; lia. }
    destruct (- dy <? 2 * err) eqn:C1; destruct (2 * err <? dx) eqn:C2;
      rewrite ?Z.ltb_lt, ?Z.ltb_ge in C1, C2; [| | |lia].
    + rewrite (wrap32_id (err - dy)), (wrap32_id (x + sx))
        by (unfold in_range, INT_MIN, INT_MAX;
            destruct Hsx as [Es|Es]; rewrite Es in *; lia).
      rewrite (wrap32_id (err - dy + dx)), (wrap32_id (y + sy))
        by (unfold in_range, INT_MIN, INT_MAX;
            destruct Hsy as [Es|Es]; rewrite Es in *; lia).
      destruct (IH (x + sx) (y + sy) (err - dy + dx) (ra - 1) (rb - 1))
        as (pts & Ep & El & Hb & Hc); try lia.
      exists ((x + sx, y + sy) :: pts). rewrite Ep. cbn [option_map].
      split; [reflexivity|]. split; [exact El|]. split.
      * constructor; [exact Hbx|]. eapply Forall_impl; [exact Hb|].
        intros [px py]. cbn [fst snd]. unfold between.
        destruct Hsx as [Es|Es], Hsy as [Et|Et];
          rewrite Es in Ex; rewrite Et in Ey; rewrite ?Es, ?Et; lia.
      * cbn [chain]. split; [|exact Hc]. unfold line_move. cbn [fst snd].
        split; [auto|]. split; [auto|]. intros [= H1 H2].
        destruct Hsx as [Es|Es]; rewrite Es in H1; lia.
    + rewrite (wrap32_id (err - dy)), (wrap32_id (x + sx))
        by (unfold in_range, INT_MIN, INT_MAX;
            destruct Hsx as [Es|Es]; rewrite Es in *; lia).
      destruct (IH (x + sx) y (err - dy) (ra - 1) rb)
        as (pts & Ep & El & Hb & Hc); try lia.
      exists ((x + sx, y) :: pts). rewrite Ep. cbn [option_map].
      split; [reflexivity|]. split; [exact El|]. split.
      * constructor; [exact Hbx|]. eapply Forall_impl; [exact Hb|].
        intros [px py]. cbn [fst snd]. unfold between.
        destruct Hsx as [Es|Es];
          rewrite Es in Ex; rewrite ?Es; lia.
      * cbn [chain]. split; [|exact Hc]. unfold line_move. cbn [fst snd].
        split; [auto|]. split; [auto|]. intros [= H1].
        destruct Hsx as [Es|Es]; rewrite Es in H1; lia.
    + rewrite (wrap32_id (err + dx)), (wrap32_id (y + sy))
        by (unfold in_range, INT_MIN, INT_MAX;
            destruct Hsy as [Es|Es]; rewrite Es in *; lia).
      destruct (IH x (y + sy) (err + dx) ra (rb - 1))
        as (pts & Ep & El & Hb & Hc); try lia.
      exists ((x, y + sy) :: pts). rewrite Ep. cbn [option_map].
      split; [reflexivity|]. split; [exact El|]. split.
      * constructor; [exact Hbx|]. eapply Forall_impl; [exact Hb|].
        intros [px py]. cbn [fst snd]. unfold between.
        destruct Hsy as [Et|Et];
          rewrite Et in Ey; rewrite ?Et; lia.
      * cbn [chain]. split; [|exact Hc]. unfold line_move. cbn [fst snd].
        split; [auto|]. split; [auto|]. intros [= H1].
        destruct Hsy as [Es|Es]; rewrite Es in H1; lia.
Qed.

(** On an open session the loop is the run of [TR_DrawPixel] over the
    positions of [line_points]. *)
Lemma draw_line_loop_points color x2 y2 dx dy sx sy fuel :
  forall x y err s, wf s ->
    draw_line_loop fuel x y x2 y2 dx dy sx sy err color s =
    option_map (fun pts => iterM (put_cell (pixel_cell color)) pts s)
               (line_points fuel x y x2 y2 dx dy sx sy err).
Proof.
  induction fuel as [|fuel IH]; intros x y err s Hwf; [reflexivity|].
  cbn [draw_line_loop line_points].
  pose proof (put_cell_is_draw_pixel color (x, y) s (wf_open s Hwf)) as Ep.
  cbn [fst snd] in Ep. rewrite <- Ep.
  destruct (put_cell_spec (mkCell space color color) (x, y) s Hwf)
    as (s1 & E1 & Hwf1 & _).
  rewrite E1.
  destruct ((x =? x2) && (y =? y2)).
  - cbn [option_map iterM]. unfold pixel_cell. rewrite E1. reflexivity.
  - destruct (wrap32 (- dy) <? wrap32 (2 * err));
      destruct (wrap32 (2 * err) <? dx); rewrite IH by exact Hwf1;
      destruct (line_points fuel _ _ x2 y2 dx dy sx sy _); cbn [option_map iterM];
      unfold pixel_cell; rewrite ?E1; reflexivity.
Qed.

Lemma draw_line_2d_spec fuel x1 y1 x2 y2 color s :
  wf s ->
  line_coordinate x1 -> line_coordinate y1 ->
  line_coordinate x2 -> line_coordinate y2 ->
  Z.abs (x2 - x1) + Z.abs (y2 - y1) < Z.of_nat fuel ->
  exists pts s',
    __tr_draw_line_2d fuel x1 y1 x2 y2 color s = Some (Ok s') /\
    wf s' /\
    s' = set_screen_buffer (__tr_screen_buffer s') s /\
    head pts = Some (x1, y1) /\ last pts = Some (x2, y2) /\
    Forall (fun p => between x1 x2 (fst p) /\ between y1 y2 (snd p)) pts /\
    chain (line_move (direction x1 x2) (direction y1 y2)) pts /\
    (forall cx cy, in_bounds s cx cy = true ->
       cell_at s' cx cy =
       if decide ((cx, cy) ∈ pts) then Some (pixel_cell color)
       else cell_at s cx cy).
Proof.
  intros Hwf H1 H2 H3 H4 Hfuel. unfold line_coordinate in *.
  unfold __tr_draw_line_2d.
  rewrite (wrap32_id (x2 - x1)), (wrap32_id (y2 - y1))
    by (unfold in_range, INT_MIN, INT_MAX; lia).
  rewrite (wrap32_id (Z.abs _)), (wrap32_id (Z.abs _))
    by (unfold in_range, INT_MIN, INT_MAX; lia).
  rewrite (wrap32_id (_ - _)) by (unfold in_range, INT_MIN, INT_MAX; lia).
  fold (direction x1 x2). fold (direction y1 y2).
  set (dx := Z.abs (x2 - x1)). set (dy := Z.abs (y2 - y1)).
  destruct (line_points_inv x2 y2 dx dy (direction x1 x2) (direction y1 y2) fuel)
    with (x := x1) (y := y1) (err := dx - dy) (ra := dx) (rb := dy)
    as (pts & Ep & El & Hb & Hc);
    try (unfold line_coordinate, direction, dx, dy;
         repeat match goal with |- context [?a <? ?b] => destruct (Z.ltb_spec a b) end;
         lia).
  rewrite draw_line_loop_points by exact Hwf. rewrite Ep. cbn [option_map].
  destruct (iterM_put_cell_spec (pixel_cell color) ((x1, y1) :: pts) s Hwf)
    as (s' & E' & Hwf' & Hcells).
  destruct (frame_only_iterM (put_cell (pixel_cell color)) ((x1, y1) :: pts)
              (fun p => frame_only_put_cell (pixel_cell color) p) s Hwf)
    as (buf & Eb & _).
  exists ((x1, y1) :: pts), s'. rewrite E'.
  split; [reflexivity|]. split; [exact Hwf'|]. split.
  { rewrite E' in Eb. injection Eb as ->. reflexivity. }
  auto.
Qed.

(** X19. For coordinates of at most [2^27] in absolute value and an open
    session, [__tr_draw_line_2d] leaves its loop after at most
    [|x2 - x1| + |y2 - y1| + 1] pixels.  The pixels start at the first end
    and finish at the second, stay in the box spanned by the two ends,
    and each one is a neighbour of its predecessor, one step nearer the
    second end along the row, the column or both.  The cells of the
    frame inside the buffer at these positions become the colour; nothing
    else in the session changes. *)
Theorem draw_line_covers (fuel : nat) (x1 y1 x2 y2 : Z) (color : Color)
    (s : Engine) :
  wf s ->
  line_coordinate x1 -> line_coordinate y1 ->
  line_coordinate x2 -> line_coordinate y2 ->
  Z.abs (x2 - x1) + Z.abs (y2 - y1) < Z.of_nat fuel ->
  exists pts s',
    __tr_draw_line_2d fuel x1 y1 x2 y2 color s = Some (Ok s') /\
    wf s' /\
    s' = set_screen_buffer (__tr_screen_buffer s') s /\
    head pts = Some (x1, y1) /\ last pts = Some (x2, y2) /\
    Forall (fun p => between x1 x2 (fst p) /\ between y1 y2 (snd p)) pts /\
    chain (line_move (direction x1 x2) (direction y1 y2)) pts /\
    (forall cx cy, in_bounds s cx cy = true ->
       cell_at s' cx cy =
       if decide ((cx, cy) ∈ pts) then Some (pixel_cell color)
       else cell_at s cx cy).
Proof. exact (draw_line_2d_spec fuel x1 y1 x2 y2 color s). Qed.

Lemma draw_line_covers_witness :
  exists s',
    __tr_draw_line_2d 6 0 0 3 2 RED demo_session = Some (Ok s') /\
    cell_at s' 3 2 = Some (pixel_cell RED).
Proof.
  destruct (draw_line_covers 6 0 0 3 2 RED demo_session demo_session_wf)
    as (pts & s' & E & _ & _ & _ & Hl & _ & _ & Hcells);
    try (unfold line_coordinate; lia).
  exists s'. split; [exact E|].
  rewrite Hcells by reflexivity.
  destruct (decide ((3, 2) ∈ pts)) as [_|Hn]; [reflexivity|].
  exfalso. apply Hn. apply last_Some_elem_of in Hl. exact Hl.
Defined.

(** ** Wireframe triangles *)

Lemma in_bounds_set_screen_buffer buf s x y :
  in_bounds (set_screen_buffer buf s) x y = in_bounds s x y.
Proof. reflexivity. Qed.

(** X20. When the three projected vertices have coordinates of at most
    [2^27] in absolute value, [TR_DrawTriangle3DWireframe] on an open
    session returns normally and changes only the frame buffer: every
    projected vertex that falls inside the buffer holds the colour, and
    every other cell of the buffer holds the colour or what it held. *)
Theorem wireframe_triangle_draws_vertices (fuel : nat) (v1 v2 v3 : TR_Vector3)
    (mvp : TR_Matrix4x4) (color : Color) (s : Engine) :
  wf s ->
  line_cell (projected_cell s v1 mvp) ->
  line_cell (projected_cell s v2 mvp) ->
  line_cell (projected_cell s v3 mvp) ->
  manhattan (projected_cell s v1 mvp) (projected_cell s v2 mvp) < Z.of_nat fuel ->
  manhattan (projected_cell s v2 mvp) (projected_cell s v3 mvp) < Z.of_nat fuel ->
  manhattan (projected_cell s v3 mvp) (projected_cell s v1 mvp) < Z.of_nat fuel ->
  exists s',
    TR_DrawTriangle3DWireframe fuel v1 v2 v3 mvp color s = Some (Ok s') /\
    wf s' /\
    s' = set_screen_buffer (__tr_screen_buffer s') s /\
    (forall p,
       p ∈ [projected_cell s v1 mvp; projected_cell s v2 mvp;
            projected_cell s v3 mvp] ->
       in_bounds s (fst p) (snd p) = true ->
       cell_at s' (fst p) (snd p) = Some (pixel_cell color)) /\
    (forall cx cy, in_bounds s cx cy = true ->
       cell_at s' cx cy = Some (pixel_cell color) \/
       cell_at s' cx cy = cell_at s cx cy).
Proof.
  intros Hwf [H1x H1y] [H2x H2y] [H3x H3y] F12 F23 F31.
  unfold TR_DrawTriangle3DWireframe, projected_cell, manhattan in *.
  cbn [fst snd] in *.
  set (p1 := __tr_project_vertex _ _ v1 mvp) in *.
  set (p2 := __tr_project_vertex _ _ v2 mvp) in *.
  set (p3 := __tr_project_vertex _ _ v3 mvp) in *.
  destruct (draw_line_2d_spec fuel _ _ _ _ color s Hwf H1x H1y H2x H2y F12)
    as (l1 & s1 & E1 & Hwf1 & Es1 & Hh1 & Hl1 & _ & _ & C1).
  rewrite E1.
  destruct (draw_line_2d_spec fuel _ _ _ _ color s1 Hwf1 H2x H2y H3x H3y F23)
    as (l2 & s2 & E2 & Hwf2 & Es2 & Hh2 & Hl2 & _ & _ & C2).
  rewrite E2.
  destruct (draw_line_2d_spec fuel _ _ _ _ color s2 Hwf2 H3x H3y H1x H1y F31)
    as (l3 & s3 & E3 & Hwf3 & Es3 & Hh3 & Hl3 & _ & _ & C3).
  rewrite E3.
  assert (B1 : forall x y, in_bounds s1 x y = in_bounds s x y)
    by (intros; rewrite Es1; reflexivity).
  assert (B2 : forall x y, in_bounds s2 x y = in_bounds s x y)
    by (intros; rewrite Es2, <- B1; reflexivity).
  assert (K2 : forall x y, in_bounds s x y = true ->
             cell_at s1 x y = Some (pixel_cell color) ->
             cell_at s2 x y = Some (pixel_cell color)).
  { intros x y Hb Hc. rewrite C2 by (rewrite B1; exact Hb).
    destruct (decide _); [reflexivity|exact Hc]. }
  assert (K3 : forall x y, in_bounds s x y = true ->
             cell_at s2 x y = Some (pixel_cell color) ->
             cell_at s3 x y = Some (pixel_cell color)).
  { intros x y Hb Hc. rewrite C3 by (rewrite B2; exact Hb).
    destruct (decide _); [reflexivity|exact Hc]. }
  apply head_Some_elem_of in Hh1, Hh2, Hh3.
  apply last_Some_elem_of in Hl1, Hl2, Hl3.
  exists s3. split; [reflexivity|]. split; [exact Hwf3|]. split.
  { etrans; [exact Es3|]. generalize (__tr_screen_buffer s3). intros b3.
    rewrite Es2. generalize (__tr_screen_buffer s2). intros b2.
    rewrite Es1. reflexivity. }
  split.
  - intros p Hp Hb.
    apply elem_of_cons in Hp as [->|Hp]; [|apply elem_of_cons in Hp as [->|Hp]];
      [| |apply list_elem_of_singleton in Hp as ->]; cbn [fst snd] in *.
    + apply K3, K2; try exact Hb. rewrite C1 by exact Hb.
      now rewrite decide_True by exact Hh1.
    + apply K3, K2; try exact Hb. rewrite C1 by exact Hb.
      now rewrite decide_True by exact Hl1.
    + apply K3; try exact Hb. rewrite C2 by (rewrite B1; exact Hb).
      now rewrite decide_True by exact Hl2.
  - intros cx cy Hb.
    rewrite C3 by (rewrite B2; exact Hb). destruct (decide _); [now left|].
    rewrite C2 by (rewrite B1; exact Hb). destruct (decide _); [now left|].
    rewrite C1 by exact Hb. destruct (decide _); [now left|now right].
Qed.

Lemma wireframe_triangle_draws_vertices_witness :
  exists s',
    TR_DrawTriangle3DWireframe 8 near_a1 near_a2 near_a3 TR_MatrixIdentity RED
      demo_session = Some (Ok s') /\
    cell_at s' 0 2 = Some (pixel_cell RED).
Proof.
  destruct (wireframe_triangle_draws_vertices 8 near_a1 near_a2 near_a3
              TR_MatrixIdentity RED demo_session demo_session_wf)
    as (s' & E & _ & _ & Hv & _);
    [split; vm_compute; split; discriminate ..
    |vm_compute; reflexivity|vm_compute; reflexivity|vm_compute; reflexivity|].
  exists s'. split; [exact E|].
  apply (Hv (projected_cell demo_session near_a1 TR_MatrixIdentity)).
  - left.
  - vm_compute. reflexivity.
Defined.

(** ** Filled triangles *)

Lemma pixel_step_monotone bw color bufs f i zv c0 :
  local i bufs = (Some zv, Some c0) ->
  local i (pixel_step bw color bufs f) = (Some zv, Some c0) \/
  exists z', F32.ltb z' zv = true /\
             local i (pixel_step bw color bufs f) =
             (Some z', Some (pixel_cell color)).
Proof.
  intros Hl. destruct (decide (frag_index bw f = i)) as [<-|Hne].
  - rewrite (pixel_step_same bw color bufs f zv c0 Hl).
    destruct (F32.ltb (snd f) zv) eqn:E; [right; eauto|now left].
  - left. now rewrite pixel_step_other.
Qed.

Lemma fold_pixel_step_monotone bw color fs : forall bufs i zv c0,
  local i bufs = (Some zv, Some c0) ->
  local i (fold_left (pixel_step bw color) fs bufs) = (Some zv, Some c0) \/
  exists z', F32.ltb z' zv = true /\
             local i (fold_left (pixel_step bw color) fs bufs) =
             (Some z', Some (pixel_cell color)).
Proof.
  induction fs as [|f fs IH]; intros bufs i zv c0 Hl; [now left|].
  cbn [fold_left].
  destruct (pixel_step_monotone bw color bufs f i zv c0 Hl) as [H|(z1 & Hz1 & H)].
  - exact (IH _ _ _ _ H).
  - destruct (IH _ _ _ _ H) as [H'|(z2 & Hz2 & H')].
    + right. eauto.
    + right. exists z2. split; [exact (ltb_trans _ _ _ Hz2 Hz1)|exact H'].
Qed.

(** X21. On an open session [TR_DrawTriangle3DFilled] returns normally
    for any vertices and any matrix, NaNs and infinities included, and
    changes only the depth buffer and the frame buffer.  At every index
    either depth and cell are what they were, or the depth is strictly
    smaller than before and the cell holds the colour: a depth never
    grows, and no cell changes without its depth. *)
Theorem filled_triangle_lowers_depths (v1 v2 v3 : TR_Vector3)
    (mvp : TR_Matrix4x4) (color : Color) (s : Engine) :
  wf s ->
  exists s',
    TR_DrawTriangle3DFilled v1 v2 v3 mvp color s = Ok s' /\
    wf s' /\
    s' = with_buffers (buffers_of s') s /\
    (forall i zv c0,
       local i (buffers_of s) = (Some zv, Some c0) ->
       local i (buffers_of s') = (Some zv, Some c0) \/
       exists z', F32.ltb z' zv = true /\
                  local i (buffers_of s') = (Some z', Some (pixel_cell color))).
Proof.
  intros Hwf. rewrite draw_triangle_fragments.
  set (fs := triangle_fragments _ _ v1 v2 v3 mvp).
  assert (Hin : Forall (frag_inside (__tr_buffer_width s) (__tr_buffer_height s)) fs).
  { apply Forall_forall. intros f Hf.
    pose proof (wf_width s Hwf). pose proof (wf_height s Hwf).
    pose proof (wf_area s Hwf).
    apply (triangle_fragments_in_bounds _ _ v1 v2 v3 mvp f); [nia|nia|exact Hf]. }
  destruct (run_plot color fs s Hwf Hin) as [E Hwf'].
  eexists. split; [exact E|]. split; [exact Hwf'|].
  rewrite buffers_of_with_buffers. split; [reflexivity|].
  intros i zv c0 Hl. apply fold_pixel_step_monotone. exact Hl.
Qed.

Lemma filled_triangle_lowers_depths_witness :
  exists s',
    TR_DrawTriangle3DFilled near_a1 near_a2 near_a3 TR_MatrixIdentity RED
      demo_session = Ok s' /\ wf s'.
Proof.
  destruct (filled_triangle_lowers_depths near_a1 near_a2 near_a3
              TR_MatrixIdentity RED demo_session demo_session_wf)
    as (s' & E & Hwf' & _).
  exists s'. auto.
Defined.

Ltac order_floats :=
  unfold F32.gtb, F32.ltb in *;
  repeat match goal with
  | H1 : SFltb ?a ?b = true, H2 : SFltb ?b ?c = true |- _ =>
      lazymatch goal with
      | _ : SFltb a c = true |- _ => fail
      | _ => pose proof (ltb_trans a b c H1 H2 : SFltb a c = true)
      end
  end;
  repeat match goal with
  | H1 : SFltb ?a ?b = true |- _ =>
      lazymatch goal with
      | _ : SFltb b a = false |- _ => fail
      | _ => pose proof (ltb_asym a b H1 : SFltb b a = false)
      end
  end;
  first [assumption | congruence].

Ltac perm3 :=
  first [ reflexivity
        | apply perm_swap
        | apply perm_skip; apply perm_swap
        | etrans; [apply perm_swap|]; apply perm_skip; apply perm_swap
        | etrans; [apply perm_skip; apply perm_swap|]; apply perm_swap
        | etrans; [apply perm_swap|];
          etrans; [apply perm_skip; apply perm_swap|]; apply perm_swap ].

(** X22. The three conditional swaps of [sort_by_y] return the three
    vertices in some order, and in that order no vertex has a row
    coordinate greater than that of a later one.  This holds for all
    floats, a NaN comparing as not greater. *)
Theorem sort_by_y_sorted (a b c : TR_Vector3) :
  let '(p0, p1, p2) := sort_by_y (a, b, c) in
  [a; b; c] ≡ₚ [p0; p1; p2] /\
  F32.gtb (V3.y p0) (V3.y p1) = false /\
  F32.gtb (V3.y p1) (V3.y p2) = false /\
  F32.gtb (V3.y p0) (V3.y p2) = false.
Proof.
  unfold sort_by_y.
  destruct (F32.gtb (V3.y a) (V3.y b)) eqn:E1.
  - destruct (F32.gtb (V3.y b) (V3.y c)) eqn:E2.
    + destruct (F32.gtb (V3.y a) (V3.y b)) eqn:E3;
        (split; [perm3|repeat split; apply not_true_iff_false; intros ?; order_floats]).
    + destruct (F32.gtb (V3.y a) (V3.y c)) eqn:E3;
        (split; [perm3|repeat split; apply not_true_iff_false; intros ?; order_floats]).
  - destruct (F32.gtb (V3.y a) (V3.y c)) eqn:E2.
    + destruct (F32.gtb (V3.y b) (V3.y a)) eqn:E3;
        (split; [perm3|repeat split; apply not_true_iff_false; intros ?; order_floats]).
    + destruct (F32.gtb (V3.y b) (V3.y c)) eqn:E3;
        (split; [perm3|repeat split; apply not_true_iff_false; intros ?; order_floats]).
Qed.

(** ** Division by one *)

Lemma div_eucl_exact a b : 0 < b -> Z.div_eucl (a * b) b = (a, 0).
Proof.
  intros Hb.
  assert (E : Z.div_eucl (a * b) b = ((a * b) / b, (a * b) mod b))
    by (unfold Z.div, Z.modulo; destruct (Z.div_eucl (a * b) b); reflexivity).
  rewrite E, Z.div_mul, Z.mod_mul by lia. reflexivity.
Qed.

(** Rounding a valid mantissa at its own exponent gives the number back. *)
Lemma round_exact_mantissa s m e :
  F32.valid (S754_finite s m e) = true ->
  binary_round_aux F32.prec F32.emax s (Z.pos m) e loc_Exact = S754_finite s m e.
Proof.
  intros Hv.
  unfold F32.valid, valid_binary, bounded, canonical_mantissa in Hv.
  apply andb_prop in Hv as [Hc Hb]. apply Z.eqb_eq in Hc.
  unfold binary_round_aux, shr_fexp. cbn [Zdigits2].
  rewrite Hc, Z.sub_diag. cbn [shr shr_record_of_loc shr_m loc_of_shr_record
    round_nearest_even Zdigits2].
  rewrite Hc, Z.sub_diag. cbn [shr shr_m shr_record_of_loc].
  now rewrite Hb.
Qed.

(** So does rounding twice the mantissa at an exponent one lower. *)
Lemma round_doubled_mantissa s m e :
  F32.valid (S754_finite s m e) = true ->
  binary_round_aux F32.prec F32.emax s (Z.pos m~0) (e - 1) loc_Exact
  = S754_finite s m e.
Proof.
  intros Hv.
  unfold F32.valid, valid_binary, bounded, canonical_mantissa in Hv.
  apply andb_prop in Hv as [Hc Hb]. apply Z.eqb_eq in Hc.
  unfold binary_round_aux, shr_fexp.
  assert (Hd : Zdigits2 (Z.pos m~0) = Z.pos (digits2_pos m) + 1).
  { cbn [Zdigits2 digits2_pos]. rewrite !Pos2Z.inj_succ. lia. }
  rewrite Hd.
  replace (Z.pos (digits2_pos m) + 1 + (e - 1))
    with (Z.pos (digits2_pos m) + e) by lia.
  rewrite Hc. replace (e - (e - 1)) with 1 by lia.
  cbn [shr shr_record_of_loc SpecFloat.iter_pos shr_1].
  cbn [shr_m loc_of_shr_record round_nearest_even Zdigits2 orb].
  replace (e - 1 + 1) with e by lia.
  rewrite Hc, Z.sub_diag. cbn [shr shr_m shr_record_of_loc].
  now rewrite Hb.
Qed.

(** The quotient of a number by [1.0f] is the number, bit for bit. *)
Lemma div_one x : is_number x = true -> F32.div x F32.one = x.
Proof.
  intros [[s ->]|(s & m & e & -> & Hv)]%is_number_cases.
  - unfold F32.div, F32.one. simpl. now rewrite xorb_false_r.
  - unfold F32.div, F32.one, SFdiv. rewrite xorb_false_r.
    pose proof Hv as Hv'.
    unfold F32.valid, valid_binary, bounded, canonical_mantissa in Hv'.
    apply andb_prop in Hv' as [Hc Hb]. apply Z.eqb_eq in Hc.
    unfold SFdiv_core_binary.
    change (Zdigits2 (Z.pos 8388608)) with 24.
    cbn [Zdigits2].
    unfold fexp, emin, F32.prec, F32.emax in Hc |- *.
    destruct (Z.eq_dec e (-149)) as [He|He].
    + replace (Z.min _ _) with e by lia.
      replace (e - -23 - e) with 23 by lia.
      replace (Z.shiftl (Z.pos m) 23) with (Z.pos m * 8388608)
        by (rewrite Z.shiftl_mul_pow2 by lia; reflexivity).
      rewrite div_eucl_exact by lia.
      change (new_location 8388608 0) with loc_Exact.
      apply round_exact_mantissa, Hv.
    + replace (Z.min _ _) with (e - 1) by lia.
      replace (e - -23 - (e - 1)) with 24 by lia.
      replace (Z.shiftl (Z.pos m) 24) with (Z.pos m~0 * 8388608)
        by (rewrite Z.shiftl_mul_pow2, (Pos2Z.inj_xO m) by lia;
            change (2 ^ 24) with 16777216; lia).
      rewrite div_eucl_exact by lia.
      change (new_location 8388608 0) with loc_Exact.
      apply round_doubled_mantissa, Hv.
Qed.

(** ** Transforms that keep a coordinate *)

Lemma sum_with_zeros x s1 s2 :
  is_number x = true ->
  F32.add (F32.add (F32.add x (S754_zero s1)) (S754_zero s2)) F32.zero =
  plus_zero x.
Proof.
  intros [[s ->]|(s & m & e & -> & _)]%is_number_cases.
  - destruct s, s1, s2; reflexivity.
  - reflexivity.
Qed.

Lemma zeros_then_number s0 s1 s2 x :
  is_number x = true -> is_zero x = false ->
  F32.add (F32.add (F32.add (S754_zero s0) (S754_zero s1)) (S754_zero s2)) x = x.
Proof.
  intros [[s ->]|(s & m & e & -> & _)]%is_number_cases Hz; [discriminate|].
  destruct s0, s1, s2; reflexivity.
Qed.

Lemma is_number_plus_zero x : is_number x = true -> is_number (plus_zero x) = true.
Proof.
  intros [[s ->]|(s & m & e & -> & Hv)]%is_number_cases; [reflexivity|].
  unfold is_number. cbn [plus_zero]. now rewrite Hv.
Qed.

Lemma add_plus_zero_number x y :
  is_zero y = false -> F32.add (plus_zero x) y = F32.add x y.
Proof.
  destruct x as [s| | |s m e]; try reflexivity.
  destruct y as [t| | |t m e]; try discriminate; destruct s; reflexivity.
Qed.

Lemma sum_with_zeros_mid x s1 s2 :
  is_number x = true ->
  F32.add (F32.add (F32.add (S754_zero s1) x) (S754_zero s2)) F32.zero =
  plus_zero x.
Proof.
  intros [[s ->]|(s & m & e & -> & _)]%is_number_cases.
  - destruct s, s1, s2; reflexivity.
  - destruct s1; reflexivity.
Qed.

Lemma sum_with_zeros_last x s1 s2 :
  is_number x = true ->
  F32.add (F32.add (F32.add (S754_zero s1) (S754_zero s2)) x) F32.zero =
  plus_zero x.
Proof.
  intros [[s ->]|(s & m & e & -> & _)]%is_number_cases.
  - destruct s, s1, s2; reflexivity.
  - destruct s1, s2; reflexivity.
Qed.

Lemma transform_identity_eq v :
  is_number (V3.x v) = true -> is_number (V3.y v) = true ->
  is_number (V3.z v) = true ->
  TR_Vector3Transform v TR_MatrixIdentity =
  V3.mk (plus_zero (V3.x v)) (plus_zero (V3.y v)) (plus_zero (V3.z v)).
Proof.
  intros Hx Hy Hz. unfold TR_Vector3Transform, TR_MatrixIdentity, matrix_zero, zero_row.
  cbn [mget mset get4 set4 m].
  change (F32.mul F32.one F32.zero) with F32.zero.
  change (F32.mul F32.one F32.one) with F32.one.
  rewrite !mul_one_r, !mul_zero_r by assumption.
  rewrite sum_with_zeros, sum_with_zeros_mid, sum_with_zeros_last by assumption.
  rewrite zeros_then_number by reflexivity.
  change (negb (F32.eqb F32.one F32.zero)) with true. cbn iota.
  rewrite !div_one by now apply is_number_plus_zero.
  reflexivity.
Qed.

(** X23. For a vertex of finite coordinates the transform by the identity
    matrix is exact: the homogeneous [w] is 1, the divide by it changes
    nothing, and the result is the vertex itself with a negative zero
    turned into the positive zero.  The projection to the screen is then
    [((x + 1) / 2 * W, (1 - y) / 2 * H, z)] in single precision. *)
Theorem transform_by_identity (bw bh : Z) (v : TR_Vector3) :
  is_number (V3.x v) = true -> is_number (V3.y v) = true ->
  is_number (V3.z v) = true ->
  TR_Vector3Transform v TR_MatrixIdentity =
    V3.mk (plus_zero (V3.x v)) (plus_zero (V3.y v)) (plus_zero (V3.z v)) /\
  __tr_project_vertex bw bh v TR_MatrixIdentity =
    V3.mk (F32.mul (F32.mul (F32.add (V3.x v) F32.one) F32.half) (F32.of_int bw))
          (F32.mul (F32.mul (F32.sub F32.one (V3.y v)) F32.half) (F32.of_int bh))
          (plus_zero (V3.z v)).
Proof.
  intros Hx Hy Hz. split; [now apply transform_identity_eq|].
  unfold __tr_project_vertex. rewrite transform_identity_eq by assumption.
  cbn [V3.x V3.y V3.z].
  rewrite add_plus_zero_number by reflexivity.
  f_equal. f_equal. f_equal.
  destruct (V3.y v) as [s| | |s m e]; reflexivity.
Qed.

Lemma transform_by_identity_witness :
  TR_Vector3Transform near_a1 TR_MatrixIdentity = near_a1.
Proof.
  destruct (transform_by_identity 4 3 near_a1) as [E _];
    [reflexivity..|].
  rewrite E. reflexivity.
Defined.

(** X24. Whatever the angle and whatever [cos] and [sin] return, the
    rotation about an axis leaves the coordinate along that axis of a
    finite vertex exactly as it was (a negative zero becomes the positive
    zero): [x] under [TR_MatrixRotateX], [y] under [TR_MatrixRotateY],
    [z] under [TR_MatrixRotateZ]. *)
Theorem rotation_keeps_axis (lm : Libm) (angle : float) (v : TR_Vector3) :
  is_number (V3.x v) = true -> is_number (V3.y v) = true ->
  is_number (V3.z v) = true ->
  V3.x (TR_Vector3Transform v (TR_MatrixRotateX lm angle)) = plus_zero (V3.x v) /\
  V3.y (TR_Vector3Transform v (TR_MatrixRotateY lm angle)) = plus_zero (V3.y v) /\
  V3.z (TR_Vector3Transform v (TR_MatrixRotateZ lm angle)) = plus_zero (V3.z v).
Proof.
  intros Hx Hy Hz.
  unfold TR_Vector3Transform, TR_MatrixRotateX, TR_MatrixRotateY,
    TR_MatrixRotateZ, TR_MatrixIdentity, matrix_zero, zero_row.
  cbn [mget mset get4 set4 m].
  change (F32.mul F32.one F32.zero) with F32.zero.
  change (F32.mul F32.one F32.one) with F32.one.
  rewrite !mul_one_r, !mul_zero_r by assumption.
  rewrite sum_with_zeros, sum_with_zeros_mid, sum_with_zeros_last by assumption.
  rewrite zeros_then_number by reflexivity.
  change (negb (F32.eqb F32.one F32.zero)) with true. cbn iota.
  cbn [V3.x V3.y V3.z].
  rewrite !div_one by now apply is_number_plus_zero.
  auto.
Qed.

Lemma rotation_keeps_axis_witness :
  V3.x (TR_Vector3Transform near_a1 (TR_MatrixRotateX libm_at_zero F32.half))
  = V3.x near_a1.
Proof.
  destruct (rotation_keeps_axis libm_at_zero F32.half near_a1) as [E _];
    [reflexivity..|].
  rewrite E. reflexivity.
Defined.

(** ** A frame with one pixel *)

Lemma filter_none {A} (P : A -> Prop) `{!forall x, Decision (P x)} (l : list A) :
  (forall b, b ∈ l -> ~ P b) -> filter P l = [].
Proof.
  induction l as [|b l IH]; intros Hn; [reflexivity|].
  rewrite filter_cons, decide_False by (apply Hn; left).
  apply IH. intros c Hc. apply Hn. now right.
Qed.

Lemma filter_unique {A} (P : A -> Prop) `{!forall x, Decision (P x)}
    (l : list A) (a : A) :
  NoDup l -> a ∈ l -> P a -> (forall b, b ∈ l -> P b -> b = a) ->
  filter P l = [a].
Proof.
  induction l as [|b l IH]; intros Hnd Ha HP Hu; [now apply elem_of_nil in Ha|].
  apply NoDup_cons in Hnd as [Hb Hnd]. rewrite filter_cons.
  apply elem_of_cons in Ha as [->|Ha].
  - rewrite decide_True by exact HP. f_equal. apply filter_none.
    intros c Hc Pc. apply Hb. rewrite <- (Hu c); [exact Hc|now right|exact Pc].
  - rewrite decide_False.
    + apply IH; auto. intros c Hc. apply Hu. now right.
    + intros Pb. apply Hb. rewrite (Hu b); [exact Ha|now left|exact Pb].
Qed.

(** X25. Over a previous frame that shows the plain background, a frame
    that draws one pixel inside the buffer sends exactly one cell to the
    terminal: the cursor moves to row [y + 1], column [x + 1], the colour
    is set and a space is printed.  When the pixel has the RGB of the
    background the frame sends no cell at all. *)
Theorem single_pixel_frame (t : Terminal) (now now' : Z) (i : Stdin)
    (x y : Z) (color : Color) (s : Engine) :
  wf s ->
  TR_GetScreenWidth t = __tr_initial_width s ->
  TR_GetScreenHeight t = __tr_initial_height s ->
  __tr_prev_screen_buffer s =
    replicate (length (__tr_screen_buffer s))
      (mkCell space (__tr_current_bg_color s) (__tr_current_bg_color s)) ->
  in_bounds s x y = true ->
  exists s1 s2 s3,
    TR_BeginDrawing t now i s = Ok s1 /\
    TR_DrawPixel x y color s1 = Ok s2 /\
    TR_EndDrawing now' s2 = Ok s3 /\
    out s3 =
      out s ++
      (if __tr_colors_equal color (__tr_current_bg_color s) then []
       else EvCursor (y + 1) (x + 1) ::
            __tr_set_terminal_color color color ++ [EvPutc space]) ++
      EvFlush :: pace_events now' s2.
Proof.
  intros Hwf Hw Hh Hprev Hb.
  set (bg := __tr_current_bg_color s) in *.
  set (n := length (__tr_screen_buffer s)) in *.
  pose proof (begin_drawing_eq t now i s Hwf Hw Hh) as E1.
  fold bg n in E1.
  set (s1 := set_screen_buffer _ _) in E1.
  assert (Hwf1 : wf s1).
  { destruct Hwf as [H1 H2 H3 H4 H5 H6 H7 H8].
    split; cbn; auto. rewrite length_replicate. exact H5. }
  assert (Hb1 : in_bounds s1 x y = true) by exact Hb.
  destruct (put_cell_spec (mkCell space color color) (x, y) s1 Hwf1)
    as (s2 & E2 & Hwf2 & Hw2 & Hh2 & Hcells).
  destruct (frame_only_put_cell (mkCell space color color) (x, y) s1 Hwf1)
    as (buf & E2' & _).
  rewrite E2 in E2'. injection E2' as Es2.
  rewrite (put_cell_is_draw_pixel color (x, y) s1 (wf_open s1 Hwf1)) in E2.
  cbn [fst snd] in E2.
  exists s1, s2. eexists. split; [exact E1|]. split; [exact E2|].
  split; [apply end_drawing_eq, Hwf2|].
  cbn [emit set_prev_screen_buffer out].
  assert (Eout : out s2 = out s) by (rewrite Es2; reflexivity).
  rewrite Eout, <- !app_assoc. f_equal.
  rewrite (app_assoc _ [EvFlush]). 
  change ([EvFlush] ++ pace_events now' s2) with (EvFlush :: pace_events now' s2).
  rewrite <- app_assoc. cbn [app]. f_equal.
  assert (Hdim : forall cx cy, in_bounds s2 cx cy = in_bounds s1 cx cy)
    by (intros; rewrite Es2; reflexivity).
  assert (Hlen : Z.of_nat n = __tr_buffer_width s2 * __tr_buffer_height s2).
  { rewrite Hw2, Hh2. exact (wf_screen s Hwf). }
  assert (Hbgc : forall cx cy, in_bounds s2 cx cy = true ->
            cell_at s1 cx cy = Some (mkCell space bg bg) /\
            prev_cell_at s2 cx cy = Some (mkCell space bg bg)).
  { intros cx cy Hc.
    destruct (cell_index_in_bounds s2 cx cy Hwf2 Hc) as [_ Hr].
    unfold cell_at, prev_cell_at.
    replace (__tr_prev_screen_buffer s2) with (__tr_prev_screen_buffer s)
      by (rewrite Es2; reflexivity).
    rewrite Hprev. unfold cell_index in *. rewrite Hw2 in *.
    change (__tr_screen_buffer s1) with (replicate n (mkCell space bg bg)).
    split; apply lookup_replicate_2; lia. }
  assert (Hch : forall p,
            p ∈ positions_row_major (__tr_buffer_width s2) (__tr_buffer_height s2) ->
            changed_at s2 p =
            if decide (p = (x, y)) then negb (__tr_colors_equal color bg) else false).
  { intros [cx cy] Hp. apply in_positions_row_major in Hp.
    apply in_bounds_iff in Hp.
    destruct (Hbgc cx cy Hp) as [Hc1 Hc2].
    unfold changed_at. cbn [fst snd].
    rewrite Hcells by (rewrite <- Hdim; exact Hp). rewrite Hc2.
    destruct (decide ((cx, cy) = (x, y))) as [_|_].
    - unfold cell_changed. cbn [character fg_color bg_color].
      destruct (__tr_colors_equal color bg); reflexivity.
    - rewrite Hc1. apply cell_changed_refl. }
  assert (Hxy : (x, y) ∈ positions_row_major (__tr_buffer_width s2)
                          (__tr_buffer_height s2)).
  { apply in_positions_row_major, in_bounds_iff. rewrite Hdim. exact Hb1. }
  unfold changed_positions.
  destruct (__tr_colors_equal color bg) eqn:Ec.
  - rewrite filter_none; [reflexivity|].
    intros p Hp. rewrite (Hch p Hp). destruct (decide _); discriminate.
  - rewrite (filter_unique _ _ (x, y)); [|apply NoDup_positions_row_major|exact Hxy| |].
    + cbn [flat_map]. rewrite app_nil_r. unfold write_events. cbn [fst snd].
      rewrite Hcells by exact Hb1. rewrite decide_True by reflexivity.
      cbn [fg_color bg_color character]. unfold __tr_set_cursor_position.
      apply in_bounds_iff in Hb.
      pose proof (wf_area s Hwf). pose proof (wf_height s Hwf).
      pose proof (wf_width s Hwf).
      rewrite !wrap32_id by (unfold in_range, INT_MIN, INT_MAX in *; nia).
      reflexivity.
    + rewrite (Hch _ Hxy), decide_True by reflexivity. reflexivity.
    + intros p Hp. rewrite (Hch p Hp). destruct (decide _); [auto|discriminate].
Qed.

Lemma single_pixel_frame_witness :
  exists s3,
    (let* s1 := TR_BeginDrawing demo_terminal 0 idle_stdin demo_session in
     let* s2 := TR_DrawPixel 1 2 RED s1 in
     TR_EndDrawing 0 s2) = Ok s3.
Proof.
  destruct (single_pixel_frame demo_terminal 0 0 idle_stdin 1 2 RED demo_session
              demo_session_wf eq_refl eq_refl eq_refl eq_refl)
    as (s1 & s2 & s3 & E1 & E2 & E3 & _).
  exists s3. rewrite E1. cbn [bind]. rewrite E2. cbn [bind]. exact E3.
Defined.

(** * The snake game *)

Lemma same_cell_eq seg cx cy : same_cell seg cx cy = true <-> seg = Seg.mk cx cy.
Proof.
  destruct seg as [sx sy]. unfold same_cell. cbn [Seg.x Seg.y].
  rewrite andb_true_iff, !Z.eqb_eq. split; [intros [-> ->]; reflexivity|].
  intros [= -> ->]. auto.
Qed.

Lemma any_segment_spec idxs arr cx cy :
  (forall i, i ∈ idxs -> 0 <= i < Z.of_nat (length arr)) ->
  exists b, any_segment idxs arr cx cy = Ok b /\
            (b = true <-> exists i, i ∈ idxs /\ arr !! Z.to_nat i = Some (Seg.mk cx cy)).
Proof.
  induction idxs as [|i idxs IH]; intros Hr.
  - exists false. split; [reflexivity|]. split; [discriminate|].
    intros (i & Hi & _). now apply elem_of_nil in Hi.
  - destruct (load_lookup i arr) as (seg & El & Hl); [apply Hr; left|].
    cbn [any_segment]. rewrite El. cbn [bind].
    destruct (same_cell seg cx cy) eqn:Es.
    + exists true. split; [reflexivity|]. split; [|reflexivity]. intros _.
      apply same_cell_eq in Es. subst seg. exists i. split; [left|exact Hl].
    + destruct IH as (b & Eb & Hb); [intros k Hk; apply Hr; now right|].
      exists b. split; [exact Eb|]. rewrite Hb. split.
      * intros (k & Hk & Hs). exists k. split; [now right|exact Hs].
      * intros (k & Hk & Hs). apply elem_of_cons in Hk as [->|Hk].
        -- rewrite Hl in Hs. injection Hs as ->.
           rewrite (proj2 (same_cell_eq _ cx cy) eq_refl) in Es. discriminate.
        -- eauto.
Qed.

(** The shifting loop moves the first [n] entries up by one place. *)
Lemma shift_spec n : forall arr : list Segment,
  (n < length arr)%nat -> Z.of_nat (length arr) <= INT_MAX ->
  exists arr',
    iterM (fun i arr => let* seg := load (wrap32 (i - 1)) arr in store i seg arr)
          (down_from n) arr = Ok arr' /\
    length arr' = length arr /\
    (forall j, (1 <= j <= n)%nat -> arr' !! j = arr !! (j - 1)%nat) /\
    (forall j, (j = 0 \/ n < j)%nat -> arr' !! j = arr !! j).
Proof.
  induction n as [|n IH]; intros arr Hn Hmax.
  - exists arr. split; [reflexivity|]. split; [reflexivity|]. split; [lia|auto].
  - cbn [down_from iterM].
    rewrite wrap32_id by (unfold in_range, INT_MIN, INT_MAX in *; lia).
    destruct (load_lookup (Z.of_nat (S n) - 1) arr) as (seg & El & Hl); [lia|].
    rewrite El. cbn [bind]. rewrite store_Ok by lia. cbn [bind].
    replace (Z.to_nat (Z.of_nat (S n) - 1)) with n in Hl by lia.
    rewrite Nat2Z.id.
    destruct (IH (<[S n := seg]> arr)) as (arr' & E & Hlen & Hup & Hsame);
      [rewrite length_insert; lia|rewrite length_insert; lia|].
    exists arr'. split; [exact E|]. rewrite length_insert in Hlen.
    split; [exact Hlen|]. split.
    + intros j Hj. destruct (decide (j = S n)) as [->|Hne].
      * rewrite Hsame by lia. rewrite list_lookup_insert_eq by lia.
        now replace (S n - 1)%nat with n by lia.
      * rewrite Hup by lia. apply list_lookup_insert_ne. lia.
    + intros j Hj. rewrite Hsame by lia. apply list_lookup_insert_ne. lia.
Qed.

Lemma steer_spec key g :
  unit_direction (current_dx g) (current_dy g) ->
  exists dx dy,
    steer key g = set_direction dx dy g /\
    unit_direction dx dy /\
    (dx, dy) <> (- current_dx g, - current_dy g).
Proof.
  intros Hu.
  assert (Hsame : g = set_direction (current_dx g) (current_dy g) g)
    by (destruct g; reflexivity).
  assert (Hkeep : exists dx dy,
            g = set_direction dx dy g /\ unit_direction dx dy /\
            (dx, dy) <> (- current_dx g, - current_dy g)).
  { exists (current_dx g), (current_dy g). split; [exact Hsame|].
    split; [exact Hu|]. unfold unit_direction in Hu. intros [= H1 H2]. lia. }
  unfold steer. destruct (negb (key =? 0)); [|exact Hkeep].
  repeat match goal with
         | |- context [if ?c then _ else _] => destruct c eqn:?
         end; try exact Hkeep;
    repeat match goal with
           | H : _ && _ = true |- _ => apply andb_prop in H as [_ H]
           end;
    match goal with H : (_ =? 0) = true |- _ => apply Z.eqb_eq in H end;
    eexists; eexists; (split; [reflexivity|]);
    unfold unit_direction in *; (split; [lia|]); intros [= H1 H2]; lia.
Qed.

(** The outcome of [PlaceFoodRandomly]: the food goes to the first drawn
    cell that no live segment occupies. *)
Lemma place_food_spec rands : forall g,
  Z.of_nat (length (snake g)) = MAX_SNAKE_LENGTH ->
  0 <= snake_length g <= MAX_SNAKE_LENGTH ->
  Forall (fun r => 0 <= r <= INT_MAX) rands ->
  match PlaceFoodRandomly rands g with
  | None => Forall (fun p => occupied g (food_cell p)) (pairs rands)
  | Some (r, rest) =>
      exists pre p,
        pairs rands = pre ++ p :: pairs rest /\
        Forall (fun q => occupied g (food_cell q)) pre /\
        ~ occupied g (food_cell p) /\
        r = Ok (set_food (food_cell p) g)
  end.
Proof.
  induction rands as [rands IH] using (induction_ltof1 _ (@length Z)).
  unfold ltof in IH. intros g Hlen Hn Hr.
  destruct rands as [|r1 [|r2 rest]]; [constructor..|].
  apply Forall_cons in Hr as [H1 Hr]. apply Forall_cons in Hr as [H2 Hr].
  cbn [PlaceFoodRandomly pairs].
  assert (E1 : wrap32 (Z.rem r1 (MAP_WIDTH - 2) + 1) = Seg.x (food_cell (r1, r2))).
  { cbn [food_cell fst Seg.x]. apply wrap32_id.
    pose proof (Z.rem_bound_pos r1 (MAP_WIDTH - 2)).
    unfold in_range, INT_MIN, INT_MAX, MAP_WIDTH in *. lia. }
  assert (E2 : wrap32 (Z.rem r2 (MAP_HEIGHT - 2) + 1) = Seg.y (food_cell (r1, r2))).
  { cbn [food_cell snd Seg.y]. apply wrap32_id.
    pose proof (Z.rem_bound_pos r2 (MAP_HEIGHT - 2)).
    unfold in_range, INT_MIN, INT_MAX, MAP_HEIGHT in *. lia. }
  rewrite E1, E2.
  destruct (any_segment_spec (seqZ 0 (snake_length g)) (snake g)
              (Seg.x (food_cell (r1, r2))) (Seg.y (food_cell (r1, r2))))
    as (b & Eb & Hb).
  { intros i Hi. apply elem_of_seqZ in Hi. lia. }
  rewrite Eb.
  assert (Hocc : b = true <-> occupied g (food_cell (r1, r2))).
  { rewrite Hb. unfold occupied. split.
    - intros (i & Hi & Hs). apply elem_of_seqZ in Hi.
      exists (Z.to_nat i). split; [lia|exact Hs].
    - intros (j & Hj & Hs). exists (Z.of_nat j). rewrite Nat2Z.id.
      split; [apply elem_of_seqZ; lia|exact Hs]. }
  destruct b.
  - specialize (IH rest ltac:(cbn; lia) g Hlen Hn Hr).
    destruct (PlaceFoodRandomly rest g) as [[r rest']|].
    + destruct IH as (pre & p & Ep & Hpre & Hp & Er).
      exists ((r1, r2) :: pre), p. rewrite Ep. split; [reflexivity|].
      split; [constructor; [now apply Hocc|exact Hpre]|]. auto.
    + constructor; [now apply Hocc|exact IH].
  - exists [], (r1, r2). split; [reflexivity|]. split; [constructor|].
    split; [intros H; apply Hocc in H; discriminate|]. reflexivity.
Qed.

Lemma move_snake_spec key g :
  game_inv g ->
  exists dx dy arr hit,
    move_snake key g = Ok (after_move g dx dy arr hit) /\
    unit_direction dx dy /\
    (dx, dy) <> (- current_dx g, - current_dy g) /\
    moved g dx dy arr /\
    (hit = true <-> crashed g arr).
Proof.
  intros [Harr Hlen Hdir Hlive Hrest].
  destruct (steer_spec key g Hdir) as (dx & dy & Es & Hu & Hnr).
  unfold move_snake. rewrite Es.
  cbn [set_direction snake snake_length current_dx current_dy food score].
  unfold MAX_SNAKE_LENGTH, MAP_WIDTH, MAP_HEIGHT in *.
  rewrite wrap32_id by (unfold in_range, INT_MIN, INT_MAX; lia).
  destruct (shift_spec (Z.to_nat (snake_length g - 1)) (snake g))
    as (arr1 & E1 & L1 & Hup & Hsame); [lia|unfold INT_MAX; lia|].
  rewrite E1. cbn [bind].
  destruct (load_lookup 0 arr1) as (h & El & Hl); [lia|].
  change (Z.to_nat 0) with 0%nat in Hl.
  rewrite El. cbn [bind].
  assert (Hh : snake g !! 0%nat = Some h) by (rewrite <- Hsame by lia; exact Hl).
  pose proof (Hlive 0%nat h ltac:(lia) Hh) as [Hhx Hhy].
  unfold MAP_WIDTH, MAP_HEIGHT in *.
  assert (Hd : -1 <= dx <= 1 /\ -1 <= dy <= 1) by (unfold unit_direction in Hu; lia).
  rewrite !wrap32_id by (unfold in_range, INT_MIN, INT_MAX; lia).
  rewrite store_Ok by lia. cbn [bind]. change (Z.to_nat 0) with 0%nat.
  set (head := Seg.mk (Seg.x h + dx) (Seg.y h + dy)).
  set (arr := <[0%nat := head]> arr1).
  cbn [Seg.x Seg.y]. fold head.
  change (Seg.x h + dx) with (Seg.x head). change (Seg.y h + dy) with (Seg.y head).
  assert (Hmoved : moved g dx dy arr).
  { split; [unfold arr; rewrite length_insert; exact L1|]. split.
    - exists h. split; [exact Hh|]. unfold arr.
      apply list_lookup_insert_eq. lia.
    - split.
      + intros j Hj1 Hj2. unfold arr. rewrite list_lookup_insert_ne by lia.
        apply Hup. lia.
      + intros j Hj. unfold arr. rewrite list_lookup_insert_ne by lia.
        apply Hsame. lia. }
  assert (H0 : arr !! 0%nat = Some head)
    by (unfold arr; apply list_lookup_insert_eq; lia).
  destruct ((Seg.x head <? 0) || (40 <=? Seg.x head) ||
            (Seg.y head <? 0) || (20 <=? Seg.y head)) eqn:Ewall;
    unfold head in Ewall; cbn [Seg.x Seg.y] in Ewall.
  - exists dx, dy, arr, true. unfold after_move. split; [reflexivity|].
    split; [exact Hu|]. split; [exact Hnr|]. split; [exact Hmoved|].
    split; [|reflexivity]. intros _. exists head. split; [exact H0|]. left.
    unfold in_map, MAP_WIDTH, MAP_HEIGHT, head. cbn [Seg.x Seg.y].
    rewrite !orb_true_iff, !Z.ltb_lt, !Z.leb_le in Ewall. lia.
  - assert (Hin : in_map head).
    { unfold in_map, MAP_WIDTH, MAP_HEIGHT, head. cbn [Seg.x Seg.y].
      rewrite !orb_false_iff, !Z.ltb_ge, !Z.leb_gt in Ewall. lia. }
    unfold IsCollidingWithSelf.
    cbn [set_snake set_direction snake snake_length food score current_dx current_dy
         game_over].
    destruct (any_segment_spec (seqZ 1 (snake_length g - 1)) arr
                (Seg.x head) (Seg.y head)) as (b & Eb & Hb).
    { intros i Hi. apply elem_of_seqZ in Hi. unfold arr.
      rewrite length_insert, L1. lia. }
    rewrite Eb. cbn [bind].
    change (Seg.mk (Seg.x head) (Seg.y head)) with head in Hb.
    assert (Hcr : b = true <-> crashed g arr).
    { rewrite Hb. unfold crashed. split.
      - intros (i & Hi & Hs). apply elem_of_seqZ in Hi.
        exists head. split; [exact H0|]. right.
        exists (Z.to_nat i). split; [lia|]. split; [lia|exact Hs].
      - intros (h' & Hh' & [Hout|(j & Hj1 & Hj2 & Hs)]).
        + rewrite H0 in Hh'. injection Hh' as <-. contradiction.
        + rewrite H0 in Hh'. injection Hh' as <-.
          exists (Z.of_nat j). rewrite Nat2Z.id.
          split; [apply elem_of_seqZ; lia|exact Hs]. }
    exists dx, dy, arr, b. split.
    + unfold after_move. destruct b; [reflexivity|].
      unfold on_food. rewrite H0. unfold same_cell.
      destruct ((Seg.x head =? Seg.x (food g)) && (Seg.y head =? Seg.y (food g)));
        [|reflexivity].
      cbn [set_score set_snake_length set_snake set_direction snake snake_length
           current_dx current_dy food score game_over].
      rewrite wrap32_id by (unfold in_range, INT_MIN, INT_MAX; lia).
      destruct (40 * 20 <? snake_length g + 1) eqn:Ecap;
        rewrite ?Z.ltb_lt, ?Z.ltb_ge in Ecap;
        unfold MAX_SNAKE_LENGTH, MAP_WIDTH, MAP_HEIGHT.
      * replace (Z.min (snake_length g + 1) (40 * 20)) with (40 * 20) by lia.
        reflexivity.
      * replace (Z.min (snake_length g + 1) (40 * 20)) with (snake_length g + 1)
          by lia.
        reflexivity.
    + auto.
Qed.

(** [UpdateGame] in full: the move, and the new food when the old one was
    eaten. *)
Lemma update_game_spec rands g s :
  game_inv g ->
  Forall (fun r => 0 <= r <= INT_MAX) rands ->
  exists dx dy arr hit,
    unit_direction dx dy /\
    (dx, dy) <> (- current_dx g, - current_dy g) /\
    moved g dx dy arr /\
    (hit = true <-> crashed g arr) /\
    if snd (after_move g dx dy arr hit) then
      match UpdateGame rands g s with
      | None =>
          Forall (fun p => occupied (fst (after_move g dx dy arr hit)) (food_cell p))
                 (pairs rands)
      | Some (r, rest) =>
          exists pre p,
            pairs rands = pre ++ p :: pairs rest /\
            Forall (fun q => occupied (fst (after_move g dx dy arr hit)) (food_cell q))
                   pre /\
            ~ occupied (fst (after_move g dx dy arr hit)) (food_cell p) /\
            r = Ok (set_food (food_cell p) (fst (after_move g dx dy arr hit)),
                    set_key_buffer 0 s)
      end
    else
      UpdateGame rands g s =
      Some (Ok (fst (after_move g dx dy arr hit), set_key_buffer 0 s), rands).
Proof.
  intros Hinv Hr.
  destruct (move_snake_spec (__tr_key_buffer s) g Hinv)
    as (dx & dy & arr & hit & Em & Hu & Hnr & Hmv & Hcr).
  exists dx, dy, arr, hit. do 4 (split; [assumption|]).
  unfold UpdateGame, TR_GetKeyPressed. rewrite Em.
  destruct (after_move g dx dy arr hit) as [g1 ate] eqn:Ea. cbn [fst snd].
  destruct ate; [|reflexivity].
  assert (Hg1 : Z.of_nat (length (snake g1)) = MAX_SNAKE_LENGTH /\
                0 <= snake_length g1 <= MAX_SNAKE_LENGTH).
  { unfold after_move in Ea. destruct hit; [discriminate|].
    destruct (on_food g arr); [|discriminate]. injection Ea as <-.
    cbn [set_snake_length set_score set_snake set_direction snake snake_length].
    destruct Hmv as [Hl _]. rewrite Hl.
    pose proof (inv_array g Hinv). pose proof (inv_length g Hinv).
    unfold MAX_SNAKE_LENGTH, MAP_WIDTH, MAP_HEIGHT in *. lia. }
  destruct Hg1 as [Hl1 Hn1].
  pose proof (place_food_spec rands g1 Hl1 Hn1 Hr) as Hp.
  destruct (PlaceFoodRandomly rands g1) as [[r rest]|]; [|exact Hp].
  destruct Hp as (pre & p & Ep & Hpre & Hfree & ->).
  exists pre, p. auto.
Qed.

(** [UpdateGame] is still in the loop of [PlaceFoodRandomly] at the end
    of the stream only when the snake ate and no drawn cell was free. *)
Lemma update_game_starved rands g s dx dy arr hit :
  moved g dx dy arr ->
  (if snd (after_move g dx dy arr hit) then
     match UpdateGame rands g s with
     | None =>
         Forall (fun p => occupied (fst (after_move g dx dy arr hit)) (food_cell p))
                (pairs rands)
     | Some (r, rest) =>
         exists pre p,
           pairs rands = pre ++ p :: pairs rest /\
           Forall (fun q => occupied (fst (after_move g dx dy arr hit)) (food_cell q))
                  pre /\
           ~ occupied (fst (after_move g dx dy arr hit)) (food_cell p) /\
           r = Ok (set_food (food_cell p) (fst (after_move g dx dy arr hit)),
                   set_key_buffer 0 s)
     end
   else
     UpdateGame rands g s =
     Some (Ok (fst (after_move g dx dy arr hit), set_key_buffer 0 s), rands)) ->
  match UpdateGame rands g s with
  | None => starved g rands
  | Some _ => True
  end.
Proof.
  intros Hmv H. destruct (UpdateGame rands g s) as [p|] eqn:E; [exact I|].
  unfold after_move in H. destruct hit; [discriminate|].
  destruct (on_food g arr) eqn:Ef; [|discriminate]. cbn [fst snd] in H.
  exists dx, dy, arr. split; [exact Hmv|]. split; [exact Ef|]. exact H.
Qed.

Lemma demo_game_inv : game_inv demo_game.
Proof.
  split.
  - reflexivity.
  - cbv. split; discriminate.
  - right. cbn. auto.
  - intros [|[|[|j]]] seg Hj; cbn in Hj; try lia;
      intros [= <-]; cbv; intuition discriminate.
  - intros j Hj. cbn in Hj. unfold demo_game, initial_game. cbn [snake].
    rewrite !list_lookup_insert_ne by lia.
    apply lookup_replicate_2. unfold MAX_SNAKE_LENGTH, MAP_WIDTH, MAP_HEIGHT in *. lia.
Qed.

(** X26. One [UpdateGame] takes the key of the frame and moves the snake
    one cell: the direction stays a unit step along a row or a column
    and is never the reverse of the previous one, the head advances by
    it, every other live segment takes the place of its predecessor, and
    the array behind the live segments is not touched. *)
Theorem update_game_moves_snake (rands : list Z) (g : Game) (s : Engine) :
  game_inv g ->
  Forall (fun r => 0 <= r <= INT_MAX) rands ->
  match UpdateGame rands g s with
  | Some (r, rest) =>
      exists g',
        r = Ok (g', set_key_buffer 0 s) /\
        unit_direction (current_dx g') (current_dy g') /\
        (current_dx g', current_dy g') <> (- current_dx g, - current_dy g) /\
        moved g (current_dx g') (current_dy g') (snake g')
  | None => starved g rands
  end.
Proof.
  intros Hinv Hr.
  destruct (update_game_spec rands g s Hinv Hr)
    as (dx & dy & arr & hit & Hu & Hnr & Hmv & Hcr & H).
  pose proof (update_game_starved rands g s dx dy arr hit Hmv H) as Hst.
  set (g1 := fst (after_move g dx dy arr hit)) in *.
  assert (Hg : unit_direction (current_dx g1) (current_dy g1) /\
               (current_dx g1, current_dy g1) <> (- current_dx g, - current_dy g) /\
               moved g (current_dx g1) (current_dy g1) (snake g1)).
  { unfold g1, after_move. destruct hit; [|destruct (on_food g arr)]; cbn; auto. }
  destruct (snd (after_move g dx dy arr hit)).
  - destruct (UpdateGame rands g s) as [[r rest]|]; [|exact Hst].
    destruct H as (pre & p & _ & _ & _ & ->). eexists. split; [reflexivity|].
    exact Hg.
  - rewrite H. eexists. split; [reflexivity|]. exact Hg.
Qed.

Lemma update_game_moves_snake_witness :
  exists g' s' rest,
    UpdateGame [5; 7] demo_game demo_session = Some (Ok (g', s'), rest) /\
    snake g' !! 0%nat = Some (Seg.mk 21 10).
Proof.
  pose proof (update_game_moves_snake [5; 7] demo_game demo_session
                demo_game_inv) as H.
  destruct (UpdateGame [5; 7] demo_game demo_session) as [[r rest]|] eqn:E;
    [|vm_compute in E; discriminate].
  destruct H as (g' & -> & _ & _ & _ & (h & Hh & H0) & _).
  { repeat constructor; unfold INT_MAX; lia. }
  exists g', (set_key_buffer 0 demo_session), rest. split; [reflexivity|].
  rewrite H0. vm_compute in Hh. injection Hh as <-.
  assert (Ed : current_dx g' = 1 /\ current_dy g' = 0).
  { vm_compute in E. injection E as E _. rewrite <- E. split; reflexivity. }
  destruct Ed as [-> ->]. reflexivity.
Defined.

Lemma food_cell_inside p :
  0 <= fst p -> 0 <= snd p ->
  1 <= Seg.x (food_cell p) <= MAP_WIDTH - 2 /\
  1 <= Seg.y (food_cell p) <= MAP_HEIGHT - 2.
Proof.
  intros H1 H2. unfold food_cell, MAP_WIDTH, MAP_HEIGHT. cbn [Seg.x Seg.y].
  pose proof (Z.rem_bound_pos (fst p) (40 - 2)).
  pose proof (Z.rem_bound_pos (snd p) (20 - 2)). lia.
Qed.

Lemma in_pairs rands p :
  Forall (fun r => 0 <= r <= INT_MAX) rands -> p ∈ pairs rands ->
  0 <= fst p /\ 0 <= snd p.
Proof.
  induction rands as [rands IH] using (induction_ltof1 _ (@length Z)).
  unfold ltof in IH. intros Hr Hp.
  destruct rands as [|r1 [|r2 rest]]; try (now apply elem_of_nil in Hp).
  apply Forall_cons in Hr as [H1 Hr]. apply Forall_cons in Hr as [H2 Hr].
  cbn [pairs] in Hp. apply elem_of_cons in Hp as [->|Hp]; [cbn; lia|].
  apply (IH rest); [cbn; lia|exact Hr|exact Hp].
Qed.

(** The moved snake of a game that did not end satisfies the invariant
    again, grown by one segment or not. *)
Lemma moved_inv g dx dy arr n :
  game_inv g -> unit_direction dx dy -> moved g dx dy arr -> ~ crashed g arr ->
  n = snake_length g \/
  n = Z.min (snake_length g + 1) MAX_SNAKE_LENGTH ->
  forall g',
    snake g' = arr -> snake_length g' = n ->
    current_dx g' = dx -> current_dy g' = dy ->
    game_inv g'.
Proof.
  intros [Harr Hlen Hdir Hlive Hrest] Hu (Hl & (h & Hh & H0) & Hup & Hsame) Hnc Hn
    g' Es En Edx Edy.
  assert (Hhead : in_map (Seg.mk (Seg.x h + dx) (Seg.y h + dy))).
  { destruct (decide (0 <= Seg.x h + dx < MAP_WIDTH /\ 0 <= Seg.y h + dy < MAP_HEIGHT))
      as [Hd|Hd]; [exact Hd|].
    exfalso. apply Hnc. eexists. split; [exact H0|]. left. exact Hd. }
  split.
  - rewrite Es, Hl. exact Harr.
  - rewrite En. unfold MAX_SNAKE_LENGTH, MAP_WIDTH, MAP_HEIGHT in *. lia.
  - rewrite Edx, Edy. exact Hu.
  - rewrite Es, En. intros j seg Hj Hs.
    destruct (decide (j = 0%nat)) as [->|Hj0].
    + rewrite H0 in Hs. injection Hs as <-. exact Hhead.
    + destruct (decide (Z.of_nat j < snake_length g)) as [Hlt|Hge].
      * rewrite Hup in Hs by lia. apply (Hlive (j - 1)%nat); [lia|exact Hs].
      * rewrite Hsame in Hs by lia.
        rewrite Hrest in Hs
          by (unfold MAX_SNAKE_LENGTH, MAP_WIDTH, MAP_HEIGHT in *; lia).
        injection Hs as <-. cbv. intuition discriminate.
  - rewrite Es, En. intros j Hj. rewrite Hsame by lia. apply Hrest.
    unfold MAX_SNAKE_LENGTH, MAP_WIDTH, MAP_HEIGHT in *. lia.
Qed.

(** [InitGame] on the zero-initialised globals. *)
Lemma init_game_spec rands :
  Forall (fun r => 0 <= r <= INT_MAX) rands ->
  match InitGame rands initial_game with
  | Some (r, rest) =>
      exists g, r = Ok g /\ game_inv g /\ game_over g = false /\
                snake_length g = 1 /\ score g = 0 /\
                snake g !! 0%nat = Some (Seg.mk 20 10) /\
                (current_dx g, current_dy g) = (1, 0) /\
                ~ occupied g (food g)
  | None => Forall (fun p => food_cell p = Seg.mk 20 10) (pairs rands)
  end.
Proof.
  intros Hr. unfold InitGame.
  cbn [set_snake_length snake].
  rewrite store_Ok by (vm_compute; split; [discriminate|reflexivity]).
  set (g0 := set_game_over false _).
  assert (Hinv0 : game_inv g0).
  { split.
    - reflexivity.
    - cbv. split; discriminate.
    - right. cbn. auto.
    - intros [|j] seg Hj; cbn in Hj; [|lia]. intros [= <-].
      cbv. intuition discriminate.
    - intros j Hj. cbn in Hj. unfold g0, initial_game.
      cbn [set_game_over set_score set_direction set_snake snake].
      change (Z.to_nat 0) with 0%nat.
      rewrite list_lookup_insert_ne by lia. apply lookup_replicate_2.
      unfold MAX_SNAKE_LENGTH, MAP_WIDTH, MAP_HEIGHT in *. lia. }
  pose proof (place_food_spec rands g0 (inv_array g0 Hinv0)
                ltac:(cbv; split; discriminate) Hr) as Hp.
  destruct (PlaceFoodRandomly rands g0) as [[r rest]|].
  - destruct Hp as (pre & p & _ & _ & Hfree & ->).
    eexists. split; [reflexivity|].
    split; [destruct Hinv0; split; assumption|].
    repeat (split; [reflexivity|]). exact Hfree.
  - eapply Forall_impl; [exact Hp|]. intros p (j & Hj & Hs).
    cbn in Hj. destruct j; [|lia].
    change (Some (Seg.mk 20 10) = Some (food_cell p)) in Hs. congruence.
Qed.

(** X27. The invariant of the snake.  [InitGame] on the zero-initialised
    globals gives a snake of one segment at the centre, heading right,
    with the food off it; [UpdateGame] ends the game exactly when the
    moved head left the map or lies on another live segment; and while
    the game has not ended all live segments lie inside the map, the
    length is between 1 and the size of the array, and the entries behind
    the live segments are still zero. *)
Theorem snake_invariant (rands : list Z) :
  Forall (fun r => 0 <= r <= INT_MAX) rands ->
  match InitGame rands initial_game with
  | Some (r, rest) =>
      exists g, r = Ok g /\ game_inv g /\ game_over g = false /\
                snake_length g = 1 /\
                snake g !! 0%nat = Some (Seg.mk 20 10) /\
                (current_dx g, current_dy g) = (1, 0) /\
                ~ occupied g (food g)
  | None => Forall (fun p => food_cell p = Seg.mk 20 10) (pairs rands)
  end /\
  forall g s, game_inv g ->
    match UpdateGame rands g s with
    | Some (r, rest) =>
        exists g' s',
          r = Ok (g', s') /\
          (game_over g' = true <-> game_over g = true \/ crashed g (snake g')) /\
          (game_over g' = false -> game_inv g')
    | None => starved g rands
    end.
Proof.
  intros Hr. split.
  - pose proof (init_game_spec rands Hr) as H.
    destruct (InitGame rands initial_game) as [[r rest]|]; [|exact H].
    destruct H as (g & -> & Hinv & Hgo & Hl & _ & Hh & Hd & Hf).
    exists g. auto 10.
  - intros g s Hinv.
    destruct (update_game_spec rands g s Hinv Hr)
      as (dx & dy & arr & hit & Hu & Hnr & Hmv & Hcr & H).
    pose proof (update_game_starved rands g s dx dy arr hit Hmv H) as Hst.
    assert (Hg : forall f,
              let g' := set_food f (fst (after_move g dx dy arr hit)) in
              (game_over g' = true <-> game_over g = true \/ crashed g (snake g')) /\
              (game_over g' = false -> game_inv g')).
    { intros f. unfold after_move. destruct hit.
      - cbn. split; [|discriminate]. split; [|reflexivity].
        intros _. right. now apply Hcr.
      - assert (Hnc : ~ crashed g arr) by (intros Hc; apply Hcr in Hc; discriminate).
        destruct (on_food g arr); cbn [fst set_food set_snake_length set_score
          set_snake set_direction snake game_over].
        + split; [tauto|]. intros _.
          apply (moved_inv g dx dy arr
                   (Z.min (snake_length g + 1) MAX_SNAKE_LENGTH)); auto.
        + split; [tauto|]. intros _.
          apply (moved_inv g dx dy arr (snake_length g)); auto. }
    destruct (snd (after_move g dx dy arr hit)).
    + destruct (UpdateGame rands g s) as [[r rest]|]; [|exact Hst].
      destruct H as (pre & p & _ & _ & _ & ->). eexists. eexists.
      split; [reflexivity|]. apply Hg.
    + rewrite H. eexists. eexists. split; [reflexivity|].
      specialize (Hg (food (fst (after_move g dx dy arr hit)))).
      destruct (fst (after_move g dx dy arr hit)). exact Hg.
Qed.

Lemma snake_invariant_witness :
  exists g rest, InitGame [5; 7] initial_game = Some (Ok g, rest) /\ game_inv g.
Proof.
  destruct (snake_invariant [5; 7]) as [H _];
    [repeat constructor; unfold INT_MAX; lia|].
  destruct (InitGame [5; 7] initial_game) as [[r rest]|] eqn:E;
    [|vm_compute in E; discriminate].
  destruct H as (g & -> & Hinv & _). exists g, rest. auto.
Defined.

(** X28. What [UpdateGame] does when the game goes on.  If the moved head
    lies on the food, the score grows by 10, the length by one up to the
    size of the array, and new food is placed inside the walls on a cell
    free of the snake; the segment added at the tail is the array entry
    that was never written, the cell [(0, 0)], and not a cell the snake
    has left.  Otherwise, and also when the game ends, length, score and
    food stay as they were and nothing is drawn from the random stream. *)
Theorem update_game_eats (rands : list Z) (g : Game) (s : Engine) :
  game_inv g -> game_over g = false ->
  Forall (fun r => 0 <= r <= INT_MAX) rands ->
  match UpdateGame rands g s with
  | Some (r, rest) =>
      exists g' s',
        r = Ok (g', s') /\
        if on_food g (snake g') && negb (game_over g') then
          snake_length g' = Z.min (snake_length g + 1) MAX_SNAKE_LENGTH /\
          score g' = wrap32 (score g + 10) /\
          (snake_length g < MAX_SNAKE_LENGTH ->
           snake g' !! Z.to_nat (snake_length g) = Some (Seg.mk 0 0)) /\
          ~ occupied g' (food g') /\
          1 <= Seg.x (food g') <= MAP_WIDTH - 2 /\
          1 <= Seg.y (food g') <= MAP_HEIGHT - 2
        else
          snake_length g' = snake_length g /\ score g' = score g /\
          food g' = food g /\ rest = rands
  | None => starved g rands
  end.
Proof.
  intros Hinv Hgo Hr.
  destruct (update_game_spec rands g s Hinv Hr)
    as (dx & dy & arr & hit & Hu & Hnr & Hmv & Hcr & H).
  pose proof (update_game_starved rands g s dx dy arr hit Hmv H) as Hst.
  unfold after_move in H. destruct hit.
  - cbn [fst snd] in H. rewrite H. eexists. eexists. split; [reflexivity|].
    cbn [set_game_over set_snake set_direction snake snake_length score food
         game_over negb]. rewrite andb_false_r. auto.
  - destruct (on_food g arr) eqn:Ef; cbn [fst snd] in H.
    + destruct (UpdateGame rands g s) as [[r rest]|]; [|exact Hst].
      destruct H as (pre & p & Ep & _ & Hfree & ->).
      eexists. eexists. split; [reflexivity|].
      cbn [set_food set_snake_length set_score set_snake set_direction snake
           snake_length score food game_over].
      rewrite Ef, Hgo. cbn [negb andb].
      split; [reflexivity|]. split; [reflexivity|]. split.
      { intros Hlt. destruct Hmv as (_ & _ & _ & Hsame).
        rewrite Hsame by lia. apply (inv_rest g Hinv).
        pose proof (inv_length g Hinv). lia. }
      split; [exact Hfree|].
      apply food_cell_inside; apply (in_pairs rands p Hr);
        rewrite Ep; apply elem_of_app; right; left.
    + rewrite H. eexists. eexists. split; [reflexivity|].
      cbn [set_snake set_direction snake snake_length score food game_over].
      rewrite Ef. cbn [andb]. auto.
Qed.

Lemma update_game_eats_witness :
  exists g' s' rest,
    UpdateGame [5; 7] demo_game demo_session = Some (Ok (g', s'), rest) /\
    snake_length g' = 4 /\ snake g' !! 3%nat = Some (Seg.mk 0 0).
Proof.
  pose proof (update_game_eats [5; 7] demo_game demo_session
                demo_game_inv eq_refl) as H.
  destruct (UpdateGame [5; 7] demo_game demo_session) as [[r rest]|] eqn:E;
    [|vm_compute in E; discriminate].
  destruct H as (g' & s' & -> & H).
  { repeat constructor; unfold INT_MAX; lia. }
  exists g', s', rest. split; [reflexivity|].
  assert (Ec : on_food demo_game (snake g') && negb (game_over g') = true).
  { vm_compute in E. injection E as E _ _. rewrite <- E. reflexivity. }
  rewrite Ec in H. destruct H as (Hl & _ & Ht & _).
  split; [exact Hl|]. apply Ht. reflexivity.
Defined.

(** X29. [PlaceFoodRandomly] draws pairs from the random stream until one
    names a cell that no live segment occupies, and puts the food there:
    inside the walls, off the snake, everything else unchanged.  It is
    still in its loop at the end of the stream exactly when every pair
    drawn named an occupied cell. *)
Theorem place_food_lands_free (rands : list Z) (g : Game) :
  Z.of_nat (length (snake g)) = MAX_SNAKE_LENGTH ->
  0 <= snake_length g <= MAX_SNAKE_LENGTH ->
  Forall (fun r => 0 <= r <= INT_MAX) rands ->
  match PlaceFoodRandomly rands g with
  | Some (r, rest) =>
      exists pre p,
        pairs rands = pre ++ p :: pairs rest /\
        Forall (fun q => occupied g (food_cell q)) pre /\
        ~ occupied g (food_cell p) /\
        r = Ok (set_food (food_cell p) g) /\
        1 <= Seg.x (food_cell p) <= MAP_WIDTH - 2 /\
        1 <= Seg.y (food_cell p) <= MAP_HEIGHT - 2
  | None => Forall (fun p => occupied g (food_cell p)) (pairs rands)
  end.
Proof.
  intros Hlen Hn Hr. pose proof (place_food_spec rands g Hlen Hn Hr) as H.
  destruct (PlaceFoodRandomly rands g) as [[r rest]|]; [|exact H].
  destruct H as (pre & p & Ep & Hpre & Hfree & ->).
  exists pre, p. do 4 (split; [auto|]).
  apply food_cell_inside; apply (in_pairs rands p Hr);
    rewrite Ep; apply elem_of_app; right; left.
Qed.

Lemma place_food_lands_free_witness :
  exists g' rest,
    PlaceFoodRandomly [19; 9; 5; 7] demo_game = Some (Ok g', rest) /\
    food g' = Seg.mk 6 8.
Proof.
  assert (E : PlaceFoodRandomly [19; 9; 5; 7] demo_game =
              Some (Ok (set_food (Seg.mk 6 8) demo_game), []))
    by (vm_compute; reflexivity).
  pose proof (place_food_lands_free [19; 9; 5; 7] demo_game eq_refl) as H.
  rewrite E in H. destruct H as (pre & p & _ & _ & _ & Hr & _).
  { cbv. split; discriminate. }
  { repeat constructor; unfold INT_MAX; lia. }
  exists (set_food (Seg.mk 6 8) demo_game), []. split; [exact E|reflexivity].
Defined.

(** ** Triangles off the screen *)

Lemma sort_by_y_ends a b c :
  let '(p0, _, p2) := sort_by_y (a, b, c) in
  p0 ∈ [a; b; c] /\ p2 ∈ [a; b; c].
Proof.
  unfold sort_by_y.
  destruct (F32.gtb (V3.y a) (V3.y b));
    repeat match goal with
           | |- context [if ?c then _ else _] => destruct c
           end; rewrite !elem_of_cons; auto.
Qed.

(** X30. A filled triangle whose three projected vertices all lie above
    the first row, or all below the last row, is culled: on an open
    session [TR_DrawTriangle3DFilled] visits no scanline and returns the
    session as it was, depth buffer included. *)
Theorem filled_triangle_off_screen (v1 v2 v3 : TR_Vector3) (mvp : TR_Matrix4x4)
    (color : Color) (s : Engine) :
  wf s ->
  (forall v, v ∈ [v1; v2; v3] -> snd (projected_cell s v mvp) < 0) \/
  (forall v, v ∈ [v1; v2; v3] ->
             __tr_buffer_height s <= snd (projected_cell s v mvp)) ->
  TR_DrawTriangle3DFilled v1 v2 v3 mvp color s = Ok s.
Proof.
  intros Hwf Hoff. unfold TR_DrawTriangle3DFilled.
  pose proof (sort_by_y_ends
                (__tr_project_vertex (__tr_buffer_width s) (__tr_buffer_height s) v1 mvp)
                (__tr_project_vertex (__tr_buffer_width s) (__tr_buffer_height s) v2 mvp)
                (__tr_project_vertex (__tr_buffer_width s) (__tr_buffer_height s) v3 mvp))
    as Hends.
  destruct (sort_by_y _) as [[p0 p1] p2]. destruct Hends as [H0 H2].
  assert (Hrow : forall p,
            p ∈ [__tr_project_vertex (__tr_buffer_width s) (__tr_buffer_height s) v1 mvp;
                 __tr_project_vertex (__tr_buffer_width s) (__tr_buffer_height s) v2 mvp;
                 __tr_project_vertex (__tr_buffer_width s) (__tr_buffer_height s) v3 mvp] ->
            exists v, v ∈ [v1; v2; v3] /\
                      F32.to_int (V3.y p) = snd (projected_cell s v mvp)).
  { intros p Hp. rewrite !elem_of_cons in Hp.
    destruct Hp as [->|[->|[->|Hp]]]; [| | |now apply elem_of_nil in Hp];
      eexists; (split; [|reflexivity]); rewrite !elem_of_cons; auto. }
  destruct (Hrow p0 H0) as (u0 & Hu0 & E0). destruct (Hrow p2 H2) as (u2 & Hu2 & E2).
  pose proof (wf_height s Hwf) as Hh. pose proof (wf_width s Hwf) as Hw.
  pose proof (wf_area s Hwf) as Ha.
  unfold scanline_rows. rewrite E0, E2. unfold for_range.
  assert (Hempty : forall lo hi body, hi + 1 - lo <= 0 ->
            iterM body (seqZ lo (hi + 1 - lo)) s = Ok s).
  { intros lo hi body Hle.
    assert (seqZ lo (hi + 1 - lo) = []) as -> by (apply seqZ_nil; lia).
    reflexivity. }
  apply Hempty.
  destruct Hoff as [Hup|Hdown].
  - pose proof (Hup u0 Hu0). pose proof (Hup u2 Hu2).
    destruct (snd (projected_cell s u0 mvp) <? 0) eqn:C0;
      destruct (__tr_buffer_height s <=? snd (projected_cell s u2 mvp)) eqn:C2;
      rewrite ?Z.ltb_lt, ?Z.ltb_ge, ?Z.leb_le, ?Z.leb_gt in *; lia.
  - pose proof (Hdown u0 Hu0). pose proof (Hdown u2 Hu2).
    rewrite wrap32_id by (unfold in_range, INT_MIN, INT_MAX in *; nia).
    destruct (snd (projected_cell s u0 mvp) <? 0) eqn:C0;
      destruct (__tr_buffer_height s <=? snd (projected_cell s u2 mvp)) eqn:C2;
      rewrite ?Z.ltb_lt, ?Z.ltb_ge, ?Z.leb_le, ?Z.leb_gt in *; lia.
Qed.

Lemma filled_triangle_off_screen_witness :
  TR_DrawTriangle3DFilled (demo_vertex (-9) (-30) 5) (demo_vertex 9 (-30) 5)
    (demo_vertex 0 (-40) 5) TR_MatrixIdentity RED demo_session = Ok demo_session.
Proof.
  apply (filled_triangle_off_screen _ _ _ _ RED demo_session demo_session_wf).
  right. intros v Hv. rewrite !elem_of_cons in Hv.
  destruct Hv as [->|[->|[->|Hv]]]; [| | |now apply elem_of_nil in Hv];
    vm_compute; discriminate.
Defined.
